(** * xficher-pro: the endpoint generator, the probe engine, the playlist
      codec and the server store of [main.py] and [xtream.py]

    The Python functions are embedded as Rocq functions.  Python [str]
    values are lists of characters; a character is a code point below 256
    (the Latin-1 range), for which [str.strip], [str.splitlines],
    [str.lower] and the regular expressions of the program are written out
    below.  Effectful functions (HTTP requests, the clock, the debug
    directory, the server store) thread an explicit world state and return
    either a value or a raised exception. *)

From Stdlib Require Import Ascii String ZArith Sorted.
From stdpp Require Import gmap strings list pretty.
From Equations Require Import Equations.

Local Open Scope Z_scope.
Local Open Scope list_scope.
Local Open Scope nat_scope.

(* ===================================================================== *)
(** ** Python strings *)
(* ===================================================================== *)

Definition str := list ascii.

(** A value together with the equation that names it, for the loops defined
    by well-founded recursion. *)
Definition inspect {A : Type} (x : A) : {y : A | x = y} := exist _ x eq_refl.

(** String literals of the source are written as Rocq string literals. *)
Definition py (s : string) : str := list_ascii_of_string s.
Coercion py : string >-> str.

Definition ord (c : ascii) : nat := nat_of_ascii c.

(** The double quote, the line feed and the carriage return. *)
Definition dquote : ascii := "034"%char.
Definition LF : ascii := "010"%char.
Definition CR : ascii := "013"%char.

(** [c.isspace()] on code points below 256: TAB..CR, FS..US, SPACE, NEL and
    NBSP. *)
Definition is_space (c : ascii) : bool :=
  let n := ord c in
  ((9 <=? n) && (n <=? 13)) || ((28 <=? n) && (n <=? 32))
  || (n =? 133) || (n =? 160).

(** The line boundaries of [str.splitlines] below 256: LF, VT, FF, CR, FS,
    GS, RS and NEL. *)
Definition is_linebreak (c : ascii) : bool :=
  let n := ord c in
  ((10 <=? n) && (n <=? 13)) || ((28 <=? n) && (n <=? 30)) || (n =? 133).

Definition is_digit (c : ascii) : bool :=
  let n := ord c in (48 <=? n) && (n <=? 57).

Definition is_ascii_upper (c : ascii) : bool :=
  let n := ord c in (65 <=? n) && (n <=? 90).

Definition is_ascii_lower (c : ascii) : bool :=
  let n := ord c in (97 <=? n) && (n <=? 122).

(** [c.lower()]: A-Z and the Latin-1 capitals 192..222 (not the
    multiplication sign 215) move up by 32. *)
Definition lower_char (c : ascii) : ascii :=
  let n := ord c in
  if is_ascii_upper c || ((192 <=? n) && (n <=? 222) && negb (n =? 215))
  then ascii_of_nat (n + 32) else c.

(** [c.upper()]: a-z and the Latin-1 small letters 224..254 (not the
    division sign 247) move down by 32.  The code points 181, 223 and 255
    have upper-case forms outside the 8-bit alphabet (223 becomes the two
    letters SS); the program only compares upper-cased text against
    [#EXTINF] and [#EXTM3U], in which none of these forms occurs, so the three
    characters are left in place. *)
Definition upper_char (c : ascii) : ascii :=
  let n := ord c in
  if is_ascii_lower c || ((224 <=? n) && (n <=? 254) && negb (n =? 247))
  then ascii_of_nat (n - 32) else c.

Definition lower (s : str) : str := map lower_char s.
Definition upper (s : str) : str := map upper_char s.

Definition char_in (chars : str) (c : ascii) : bool :=
  bool_decide (c ∈ chars).

Fixpoint lstrip_by (p : ascii -> bool) (s : str) : str :=
  match s with
  | [] => []
  | c :: r => if p c then lstrip_by p r else s
  end.

Fixpoint rstrip_by (p : ascii -> bool) (s : str) : str :=
  match s with
  | [] => []
  | c :: r =>
      match rstrip_by p r with
      | [] => if p c then [] else [c]
      | r' => c :: r'
      end
  end.

(** [s.strip()] *)
Definition strip (s : str) : str := rstrip_by is_space (lstrip_by is_space s).

(** [s.rstrip(chars)] *)
Definition rstrip (chars : str) (s : str) : str := rstrip_by (char_in chars) s.

(** [s.startswith(p)] *)
Fixpoint startswith (p s : str) : bool :=
  match p, s with
  | [], _ => true
  | _ :: _, [] => false
  | a :: p', b :: s' => bool_decide (a = b) && startswith p' s'
  end.

(** [sub in s] *)
Fixpoint contains (sub s : str) : bool :=
  startswith sub s ||
  match s with
  | [] => false
  | _ :: r => contains sub r
  end.

(** The first occurrence of [sep] in [s]: the text before it and the text
    after it. *)
Fixpoint find_sep (sep s : str) : option (str * str) :=
  if startswith sep s then Some ([], drop (length sep) s)
  else match s with
       | [] => None
       | c :: r =>
           match find_sep sep r with
           | Some (a, b) => Some (c :: a, b)
           | None => None
           end
       end.

(** [s.split(sep, 1)] *)
Definition split1 (sep s : str) : list str :=
  match find_sep sep s with
  | Some (a, b) => [a; b]
  | None => [s]
  end.

(** [sep.join(parts)] *)
Fixpoint join (sep : str) (parts : list str) : str :=
  match parts with
  | [] => []
  | [p] => p
  | p :: ps => p ++ sep ++ join sep ps
  end.

(** [s.replace(a, b)] for one-character [a] and [b]. *)
Definition replace_char (a b : ascii) (s : str) : str :=
  map (fun c => if bool_decide (c = a) then b else c) s.

(* ===================================================================== *)
(** ** Endpoint generator *)
(* ===================================================================== *)

Definition common_ports : list str :=
  [[]; py ":80"; py ":8080"; py ":8000"; py ":8081"; py ":8443"; py ":443"].

(** The loop [for u in candidates: if u not in seen: ...] with its [seen]
    set and its [uniq] list. *)
Definition uniq_step (st : gset str * list str) (u : str) : gset str * list str :=
  if bool_decide (u ∈ st.1) then st else ({[u]} ∪ st.1, st.2 ++ [u]).

Definition uniq_loop (candidates : list str) : list str :=
  (foldl uniq_step (∅, []) candidates).2.

(** ["simple port detection"]: [":" in host and not host.startswith("[")]. *)
Definition port_detected (host : str) : bool :=
  contains ":" host && negb (startswith "[" host).

(** *** Vocabulary of the statements about addresses *)

(** The cross product of both schemes with the seven port variants. *)
Definition cross (host : str) : list str :=
  flat_map (fun scheme : str =>
    map (fun p : str => scheme ++ py "://" ++ host ++ p) common_ports)
    [py "http"; py "https"].

(** The trimmed address, and the host portion the generator derives from it. *)
Definition trimmed (base_server : str) : str := rstrip "/" (strip base_server).

Definition has_http_scheme (s : str) : bool :=
  startswith "http://" s || startswith "https://" s.

Definition host_portion (s : str) : str :=
  if startswith "http://" s then drop 7 s
  else if startswith "https://" s then drop 8 s
  else s.

Definition given_scheme (s : str) : str :=
  if startswith "http://" s then py "http"
  else if startswith "https://" s then py "https"
  else py "http".

Definition other_scheme (proto : str) : str :=
  if bool_decide (proto = py "http") then py "https" else py "http".

(** An address carries an explicit scheme when it contains [://]. *)
Definition explicit_scheme (s : str) : bool := contains "://" s.

(** The text after the last colon of [s], if [s] has a colon. *)
Fixpoint after_last_colon (s : str) : option str :=
  match s with
  | [] => None
  | c :: r =>
      match after_last_colon r with
      | Some t => Some t
      | None => if bool_decide (c = ":"%char) then Some r else None
      end
  end.

(** A host carries an explicit port when its last colon is followed by a
    decimal number that runs to the end of the host or to a [/]. *)
Definition explicit_port (host : str) : bool :=
  match after_last_colon host with
  | None => false
  | Some t =>
      match lstrip_by is_digit t with
      | [] => negb (bool_decide (t = []))
      | c :: _ => is_digit (default c (head t)) && bool_decide (c = "/"%char)
      end
  end.

Definition ends_with_slash (u : str) : bool :=
  bool_decide (last u = Some "/"%char).
(* ===================================================================== *)
(** ** Playlist codec *)
(* ===================================================================== *)

(** A Python [dict] with string keys and values, in insertion order. *)
Definition dict := list (str * str).

(** [d[k] = v]: an existing key keeps its place and takes the new value, a
    new key goes to the end. *)
Fixpoint dict_set (d : dict) (k v : str) : dict :=
  match d with
  | [] => [(k, v)]
  | (k', v') :: r =>
      if bool_decide (k' = k) then (k', v) :: r else (k', v') :: dict_set r k v
  end.

(** [dict(pairs)] *)
Definition dict_of_pairs (pairs : list (str * str)) : dict :=
  foldl (fun d kv => dict_set d kv.1 kv.2) [] pairs.

(** [d.get(k)] *)
Fixpoint dict_get (d : dict) (k : str) : option str :=
  match d with
  | [] => None
  | (k', v') :: r => if bool_decide (k' = k) then Some v' else dict_get r k
  end.

(** A channel [dict]; a field is [None] when the key is absent. *)
Record channel := Channel {
  title : option str;
  duration : option str;
  attrs : option dict;
  url : option str;
  raw_extinf : option str
}.

(** [x or empty] after [.get]. *)
Definition or_empty (o : option str) : str := default [] o.

(** [s.splitlines()], with the line read so far in [cur]. *)
Fixpoint splitlines_from (cur : str) (s : str) : list str :=
  match s with
  | [] => match cur with [] => [] | _ => [cur] end
  | c :: r =>
      if is_linebreak c then
        cur :: match r with
               | c2 :: r2 =>
                   if bool_decide (c = CR) && bool_decide (c2 = LF)
                   then splitlines_from [] r2
                   else splitlines_from [] r
               | [] => splitlines_from [] r
               end
      else splitlines_from (cur ++ [c]) r
  end.

Definition splitlines (s : str) : list str := splitlines_from [] s.

(** The longest prefix of [s] whose characters satisfy [p]. *)
Fixpoint take_by (p : ascii -> bool) (s : str) : str :=
  match s with
  | [] => []
  | c :: r => if p c then c :: take_by p r else []
  end.

(** The character class [[-0-9]]. *)
Definition is_dur_char (c : ascii) : bool :=
  bool_decide (c = "-"%char) || is_digit c.

(** The character class [[a-zA-Z0-9\-_]]. *)
Definition is_key_char (c : ascii) : bool :=
  is_ascii_lower c || is_ascii_upper c || is_digit c
  || bool_decide (c = "-"%char) || bool_decide (c = "_"%char).

Definition eq_char : ascii := "="%char.

(** [re.match(r'#EXTINF:([-0-9]+)', header, re.IGNORECASE)]: group 1 of
    the match, or the empty string without a match. *)
Definition match_duration (header : str) : str :=
  if startswith "#EXTINF:" (upper (take 8 header))
  then take_by is_dur_char (drop 8 header)
  else [].

(** The lazy value group and its closing quote at the start of [s]: the
    text up to the first double quote, provided no newline comes first (the
    dot does not match it), and the text after that quote. *)
Fixpoint find_quote (s : str) : option (str * str) :=
  match s with
  | [] => None
  | c :: r =>
      if bool_decide (c = dquote) then Some ([], r)
      else if bool_decide (c = LF) then None
      else match find_quote r with
           | Some (v, r') => Some (c :: v, r')
           | None => None
           end
  end.

(** One match of the attribute pattern (a lazy run of key characters, an
    equals sign, a quoted lazy value) anchored at the start of [s]: the key,
    the value and the text after the closing quote.  The key class excludes
    the equals sign, so the lazy key is the whole run of key characters. *)
Definition attr_at (s : str) : option (str * str * str) :=
  match take_by is_key_char s with
  | [] => None
  | k =>
      match lstrip_by is_key_char s with
      | c1 :: c2 :: r2 =>
          if bool_decide (c1 = eq_char) && bool_decide (c2 = dquote) then
            match find_quote r2 with
            | Some (v, r3) => Some (k, v, r3)
            | None => None
            end
          else None
      | _ => None
      end
  end.

(** [re.findall] of the attribute pattern on [header]: the matches from
    left to right, each search resuming after the previous match. *)
Equations? findall_attrs (s : str) : list (str * str) by wf (length s) lt :=
  findall_attrs [] := [];
  findall_attrs (c :: r) with inspect (attr_at (c :: r)) := {
    | exist _ (Some (k, v, rest)) _ => (k, v) :: findall_attrs rest;
    | exist _ None _ => findall_attrs r }.
Proof.
  clear findall_attrs. revert e. unfold attr_at.
    destruct (take_by is_key_char (c :: r)); [done|].
    assert (Hq : forall t v r3, find_quote t = Some (v, r3) -> length r3 < S (length t)).
    { induction t as [|x0 t IH]; simpl; [done|]. intros v' r3.
      destruct (bool_decide (x0 = dquote)); [intros [= _ <-]; lia|].
      destruct (bool_decide (x0 = LF)); [done|].
      destruct (find_quote t) as [[v0 r0]|] eqn:E; [|done].
      intros [= _ <-]. specialize (IH _ _ eq_refl). lia. }
    assert (Hl : forall t, length (lstrip_by is_key_char t) <= length t).
    { induction t as [|x0 t IH]; simpl; [lia|].
      destruct (is_key_char x0); simpl; lia. }
    specialize (Hl (c :: r)).
    destruct (lstrip_by is_key_char (c :: r)) as [|c1 [|c2 r2]]; [done..|].
    destruct (_ && _); [|done].
    destruct (find_quote r2) as [[v0 r0]|] eqn:E; [|done].
    intros [= _ _ <-]. apply Hq in E. simpl in *. lia.
Qed.

(** The header and title of an [#EXTINF] line, split at the first comma. *)
Definition split_extinf (ln : str) : str * str :=
  let parts := split1 "," ln in
  if length parts =? 2 then (nth 0 parts [], strip (nth 1 parts []))
  else (nth 0 parts [], []).

(** The inner loop [while j < len(lines)] looking for the URL line: the URL
    found (or the empty string) and the final value of [j].  [rest] is
    [lines[j:]]. *)
Fixpoint scan_url_from (rest : list str) (j : nat) : str * nat :=
  match rest with
  | [] => ([], j)
  | l :: rest' =>
      let candidate := strip l in
      if bool_decide (candidate = []) || startswith "#" candidate
      then scan_url_from rest' (j + 1)
      else (candidate, j)
  end.

Definition scan_url (lines : list str) (j : nat) : str * nat :=
  scan_url_from (drop j lines) j.

(** The channel built from an [#EXTINF] line and its URL. *)
Definition make_channel (ln u : str) : channel :=
  let raw := ln in
  let '(header, t) := split_extinf ln in
  let d := match_duration header in
  let a := dict_of_pairs (findall_attrs header) in
  {| title := Some t; duration := Some d; attrs := Some a; url := Some u;
     raw_extinf := Some raw |}.

(** The outer loop [while i < len(lines)] of [parse_m3u_to_json]. *)
Equations? parse_loop (lines : list str) (i : nat) (channels : list channel)
  : list channel by wf (length lines - i) lt :=
  parse_loop lines i channels with inspect (i <? length lines) := {
    | exist _ false _ => channels;
    | exist _ true _ =>
        let ln := strip (nth i lines []) in
        if bool_decide (ln = []) then parse_loop lines (i + 1) channels
        else if startswith "#EXTINF" (upper ln) then
          parse_loop lines ((scan_url lines (i + 1)).2 + 1)
            (channels ++ [make_channel ln (scan_url lines (i + 1)).1])
        else parse_loop lines (i + 1) channels }.
Proof.
  all: apply Nat.ltb_lt in e; try lia.
  assert (H : forall rest j, j <= (scan_url_from rest j).2).
  { induction rest as [|l rest IH]; intros j; simpl; [lia|].
    destruct (_ || _); simpl; [|lia]. specialize (IH (j + 1)). lia. }
  specialize (H (drop (i + 1) lines) (i + 1)). unfold scan_url. lia.
Qed.

(** [parse_m3u_to_json(m3u_text)] of main.py, lines 342-405 (the progress
    output of [verbose] is not part of the result). *)
Definition parse_m3u_to_json (m3u_text : str) : list channel :=
  let lines := map (rstrip [LF]) (splitlines m3u_text) in
  parse_loop lines 0 [].

(** [build_extinf_line(entry)] of main.py, lines 445-458. *)
Definition build_extinf_line (entry : channel) : str :=
  let dur := default (py "-1") (duration entry) in
  let a := default [] (attrs entry) in
  let attr_parts :=
    map (fun kv : str * str =>
           let safe_v := replace_char dquote "'" kv.2 in
           kv.1 ++ [eq_char] ++ [dquote] ++ safe_v ++ [dquote]) a in
  let attr_str := join " " attr_parts in
  let t := default [] (title entry) in
  if negb (bool_decide (attr_str = []))
  then py "#EXTINF:" ++ dur ++ py " " ++ attr_str ++ py "," ++ t
  else py "#EXTINF:" ++ dur ++ py "," ++ t.

Definition newline : str := [LF].

(** The text [create_m3u_from_channels(channels, out_path)] writes to
    [out_path] (main.py, lines 460-476): the header line, then for every
    channel its [#EXTINF] line and its URL line, in the order of the
    [fh.write] calls. *)
Definition m3u_text_of (channels : list channel) : str :=
  foldl (fun fh ch =>
           (fh ++ (build_extinf_line ch ++ newline))
              ++ (or_empty (url ch) ++ newline))
        (py "#EXTM3U" ++ newline) channels.

(** [filter_channels(channels, field, keyword)] of main.py, lines 485-507. *)
Definition filter_channels (channels : list channel) (field keyword : str)
  : list channel :=
  if bool_decide (keyword = []) then channels
  else
    let kw := lower (strip keyword) in
    foldl (fun out ch =>
      if bool_decide (field = py "title") then
        if contains kw (lower (or_empty (title ch))) then out ++ [ch] else out
      else if bool_decide (field = py "group") then
        let grp := default [] (dict_get (default [] (attrs ch)) "group-title") in
        if contains kw (lower grp) then out ++ [ch] else out
      else
        let val := default [] (dict_get (default [] (attrs ch)) field) in
        if contains kw (lower val) then out ++ [ch] else out)
      [] channels.

(** *** The parser seen from the remaining lines *)

(** The URL the inner loop finds in the lines [rest] that follow an
    [#EXTINF] line, and the lines left for the outer loop after it. *)
Definition url_after (rest : list str) : str := (scan_url_from rest 0).1.

Definition skip_url (rest : list str) : list str :=
  drop ((scan_url_from rest 0).2 + 1) rest.

Definition parse_lines (lines : list str) : list channel := parse_loop lines 0 [].

(** A line the inner loop passes over: blank, or starting with [#]. *)
Definition passed_over (l : str) : bool :=
  bool_decide (strip l = []) || startswith "#" (strip l).

Definition is_extinf (l : str) : bool := startswith "#EXTINF" (upper (strip l)).

(** *** Vocabulary of the statements about playlists *)

Definition no_linebreak (s : str) : Prop := Forall (fun c => is_linebreak c = false) s.

(** The text whose lines are [ls], each ended by a line feed. *)
Definition unlines (ls : list str) : str := concat (map (fun l => l ++ newline) ls).

(** The two lines [create_m3u_from_channels] writes for a channel. *)
Definition channel_lines (ch : channel) : list str :=
  [build_extinf_line ch; or_empty (url ch)].

(** The four fields the round trip is about. *)
Definition fields (ch : channel)
  : option str * option str * option str * option dict :=
  (duration ch, title ch, url ch, attrs ch).

(** What [findall] returns: keys of the key class, values without a double
    quote or a newline, all made of characters of the text searched. *)
Definition attr_found (s : str) (kv : str * str) : Prop :=
  kv.1 <> [] /\ Forall (fun c => is_key_char c = true) kv.1
  /\ (dquote ∉ kv.2) /\ (LF ∉ kv.2) /\ (forall c, c ∈ kv.2 -> c ∈ s).


Definition comma : ascii := ","%char.

(** The text [build_extinf_line] writes for one attribute. *)
Definition attr_text (kv : str * str) : str :=
  kv.1 ++ [eq_char] ++ [dquote] ++ replace_char dquote "'" kv.2 ++ [dquote].

(** The header [build_extinf_line] writes: everything before the comma. *)
Definition header_text (d : str) (a : dict) : str :=
  match a with
  | [] => py "#EXTINF:" ++ d
  | _ => py "#EXTINF:" ++ d ++ py " " ++ join " " (map attr_text a)
  end.

(** An attribute as the parser produces it. *)
Definition attr_wf (kv : str * str) : Prop :=
  kv.1 <> [] /\ Forall (fun c => is_key_char c = true) kv.1
  /\ (dquote ∉ kv.2) /\ (comma ∉ kv.2) /\ no_linebreak kv.2.

(** A URL line as the inner loop accepts it. *)
Definition good_url (u : str) : Prop :=
  strip u = u /\ u <> [] /\ startswith "#" u = false /\ no_linebreak u.

(** The shape of what the parser returns: channels built by [make_channel]
    from lines without line breaks, every one but possibly the last with a
    URL line that was found. *)
Inductive parser_output : list channel -> Prop :=
| po_nil : parser_output []
| po_last (ln : str) : no_linebreak ln -> parser_output [make_channel ln []]
| po_cons (ln u : str) (cs : list channel) :
    no_linebreak ln -> good_url u -> parser_output cs ->
    parser_output (make_channel ln u :: cs).

(** A channel written by [create_m3u_from_channels] and parsed again. *)
Definition reparsed (ch : channel) : channel :=
  make_channel (build_extinf_line ch) (or_empty (url ch)).

(** *** Vocabulary of the statements about the URL line and the filter *)

(** A stripped line that can be a URL: not blank and not starting with [#]. *)
Definition url_line (c : str) : bool :=
  negb (bool_decide (c = []) || startswith "#" c).

(** The first URL line among [rest], stripped, or the empty string. *)
Definition first_url (rest : list str) : str :=
  default [] (head (List.filter url_line (map strip rest))).

(** The lines of [rest] that come before the next [#EXTINF] line. *)
Fixpoint before_next_extinf (rest : list str) : list str :=
  match rest with
  | [] => []
  | l :: r => if is_extinf l then [] else l :: before_next_extinf r
  end.

(** The channel [ch] was begun by line [i] of [lines]. *)
Definition begun_at (lines : list str) (i : nat) (ch : channel) : Prop :=
  exists l, lines !! i = Some l /\ is_extinf l = true
            /\ raw_extinf ch = Some (strip l).

(** Line [j] is passed over in the search for the URL of the record begun
    at line [s]: it comes after line [s], and no line from [s + 1] to [j] is
    a URL line. *)
Definition searched_past (lines : list str) (s j : nat) : Prop :=
  s < j /\ forall m l, s < m <= j -> lines !! m = Some l -> passed_over l = true.

(** The lines numbered [starts] are the [#EXTINF] lines that begin a record:
    every [#EXTINF] line either begins a record and is passed over in the
    search for the URL of no record, or begins none and is passed over in the
    search for the URL of a record. *)
Definition begin_records (lines : list str) (starts : list nat) : Prop :=
  forall j l, lines !! j = Some l -> is_extinf l = true ->
    ((j ∈ starts) /\ forall s, s ∈ starts -> ~ searched_past lines s j)
    \/ ((j ∉ starts) /\ exists s, s ∈ starts /\ searched_past lines s j).

(** The field [filter_channels] looks at. *)
Definition selected_field (field : str) (ch : channel) : str :=
  if bool_decide (field = py "title") then or_empty (title ch)
  else if bool_decide (field = py "group")
       then default [] (dict_get (default [] (attrs ch)) "group-title")
       else default [] (dict_get (default [] (attrs ch)) field).

(** [kw] occurs in the selected field, letter case ignored. *)
Definition field_contains (field kw : str) (ch : channel) : bool :=
  contains (lower kw) (lower (selected_field field ch)).

(** Two [#EXTINF] lines before the first URL line. *)
Definition two_extinf_text : str :=
  py "#EXTINF:-1,A" ++ newline ++ py "#EXTINF:-1,B" ++ newline
    ++ py "http://b" ++ newline.

(** A channel whose title has no blank. *)
Definition channel_abc : channel :=
  Channel (Some (py "abc")) (Some (py "-1")) (Some []) (Some (py "http://x"))
          (Some (py "#EXTINF:-1,abc")).


(** The playlist of the specification's scenario: one channel with two
    attributes. *)
Definition scenario_text : str :=
  py "#EXTM3U" ++ newline
  ++ py "#EXTINF:-1 tvg-id=" ++ [dquote] ++ py "1" ++ [dquote]
  ++ py " group-title=" ++ [dquote] ++ py "News" ++ [dquote]
  ++ py ",Channel A" ++ newline
  ++ py "http://x/a.ts" ++ newline.

(* ===================================================================== *)
(** ** The world: exceptions, HTTP clients, clock, files, server store *)
(* ===================================================================== *)

(** Python exceptions, by class.  The last two derive from [BaseException]
    only; [except Exception] lets them through. *)
Inductive exn_class : Set :=
| ConnectionError | Timeout | SSLError | NameResolutionError
| ValueError | OSError | IndexError | AttributeError | LookupError
| KeyboardInterrupt | SystemExit.

Record exn := Exn { exn_class_of : exn_class; exn_text : str }.

(** [isinstance(e, Exception)] *)
Definition is_Exception (e : exn) : bool :=
  match exn_class_of e with
  | KeyboardInterrupt | SystemExit => false
  | _ => true
  end.

(** Connection, timeout, TLS and DNS failures. *)
Definition network_failure (e : exn) : bool :=
  match exn_class_of e with
  | ConnectionError | Timeout | SSLError | NameResolutionError => true
  | _ => false
  end.

Inductive result (A : Type) : Type :=
| Ret (a : A)
| Raise (e : exn).
Arguments Ret {A} a.
Arguments Raise {A} e.

(** JSON values as [json.load] and [resp.json()] return them. *)
#[local] Unset Elimination Schemes.
Inductive json : Type :=
| JNull
| JBool (b : bool)
| JInt (z : Z)
| JStr (s : str)
| JList (l : list json)
| JObj (o : list (str * json)).
#[local] Set Elimination Schemes.

(** Python truth of a JSON value, for [x or {}]. *)
Definition truthy (j : json) : bool :=
  match j with
  | JNull => false
  | JBool b => b
  | JInt z => negb (z =? 0)%Z
  | JStr s => negb (bool_decide (s = []))
  | JList l => match l with [] => false | _ => true end
  | JObj o => match o with [] => false | _ => true end
  end.

(** [o.get(k)] on a JSON object. *)
Fixpoint obj_get (o : list (str * json)) (k : str) : option json :=
  match o with
  | [] => None
  | (k', v) :: r => if bool_decide (k' = k) then Some v else obj_get r k
  end.

(** An HTTP response: its status, [resp.text], what [resp.json()] does,
    [resp.encoding], and what iterating [resp.iter_content] does (all the
    chunks, as byte strings, or the exception that interrupts it). *)
Record response := Response {
  status_code : Z;
  text : str;
  json_of : result json;
  encoding : option str;
  iter_content : result (list str)
}.

(** What the program cannot decide by itself. *)
Record env := Env {
  (** [HAS_CLOUDSCRAPER] *)
  has_cloudscraper : bool;
  (** [cloudscraper.create_scraper(...).get(url, timeout, stream)] *)
  scraper_get : str -> Z -> bool -> result response;
  (** [requests.get(url, timeout, stream)] *)
  requests_get : str -> Z -> bool -> result response;
  (** [int(time.time())] at its n-th reading *)
  clock : nat -> N;
  (** whether opening the path for writing and writing to it succeeds *)
  disk_ok : str -> bool;
  (** what a write that fails leaves of the file: [None] when the file could
      not be opened and is as it was; otherwise the file was opened, which
      empties it, the failure came later, and this is the text then found
      in it *)
  failed_write : str -> option str;
  (** [raw.decode(encoding, errors=replace)] *)
  decode : str -> str -> result str;
  (** the text an f-string puts for a value that is not a string *)
  format_value : option json -> str
}.

(** A saved server: a JSON object. *)
Abbreviation server := (gmap str json).

(** What the program changes: the requests sent (client and URL, oldest
    first), the text files written, the number of clock readings, and
    [servers.json] ([None] while the file does not exist). *)
Record world := World {
  requests_log : list (str * str);
  files : gmap str str;
  clock_reads : nat;
  servers_file : option (list server)
}.

(** Computations: a result or a raised exception, and the world after. *)
Definition M (A : Type) : Type := world -> result A * world.

Definition mret {A : Type} (a : A) : M A := fun w => (Ret a, w).

Definition mraise {A : Type} (e : exn) : M A := fun w => (Raise e, w).

Definition mbind {A B : Type} (m : M A) (k : A -> M B) : M B :=
  fun w =>
    match m w with
    | (Ret a, w') => k a w'
    | (Raise e, w') => (Raise e, w')
    end.

Notation "x <- m ;; k" := (mbind m (fun x => k))
  (at level 100, m at next level, right associativity).
Notation "m >> k" := (mbind m (fun _ => k))
  (at level 100, right associativity).

(** [try: m  except Exception as e: handler(e)] *)
Definition try_except_Exception {A : Type} (m : M A) (handler : exn -> M A) : M A :=
  fun w =>
    match m w with
    | (Ret a, w') => (Ret a, w')
    | (Raise e, w') => if is_Exception e then handler e w' else (Raise e, w')
    end.

(** [try: m  except: handler] *)
Definition try_except {A : Type} (m : M A) (handler : M A) : M A :=
  fun w =>
    match m w with
    | (Ret a, w') => (Ret a, w')
    | (Raise _, w') => handler w'
    end.

Definition lift {A : Type} (r : result A) : M A := fun w => (r, w).

Definition DEFAULT_TIMEOUT : Z := 20%Z.

(** The decimal text of an integer, as an f-string prints it. *)
Definition decimal (n : N) : str := py (pretty n).

(** The result of [fetch_player_api_robust]: the [ok] dictionary with its
    endpoint, client and data, or the failure with the attempts. *)
Inductive player_result :=
| PlayerOk (endpoint client : str) (data : json)
| PlayerFailed (tried : list (str * (response + exn) * str)).

(** The result of [fetch_playlist_robust]. *)
Inductive playlist_result :=
| PlaylistOk (endpoint client body : str)
| PlaylistFailed.

Section Program.

(** The environment, the data directory of the file ([DATA_DIR]) and the
    two functions of the file that the shared code calls. *)
Variable E : env.
Variable DATA_DIR : str.
Variable generate_endpoints : str -> list str.
Variable request_with_client : str -> Z -> bool -> M ((response + exn) * str).

Definition SERVERS_FILE : str := DATA_DIR ++ py "/servers.json".
Definition DEBUG_DIR : str := DATA_DIR ++ py "/debug".

(** [time.time()] truncated by [int]. *)
Definition now : M N :=
  fun w =>
    (Ret (clock E (clock_reads w)),
     {| requests_log := requests_log w; files := files w;
        clock_reads := S (clock_reads w); servers_file := servers_file w |}).

(** [with open(path, "w") as f: f.write(content)]: a write that fails
    raises [OSError]; the file is then as it was when it could not be
    opened, and holds what got written before the failure when it was opened
    (and so emptied) first. *)
Definition write_file (path content : str) : M unit :=
  fun w =>
    if disk_ok E path then
      (Ret tt,
       {| requests_log := requests_log w; files := <[path := content]> (files w);
          clock_reads := clock_reads w; servers_file := servers_file w |})
    else
      (Raise (Exn OSError path),
       match failed_write E path with
       | None => w
       | Some remains =>
           {| requests_log := requests_log w; files := <[path := remains]> (files w);
              clock_reads := clock_reads w; servers_file := servers_file w |}
       end).

(** [with open(SERVERS_FILE, "w") as f: json.dump(servers, f)].  A write
    that fails raises [OSError]; when the file was opened (and so emptied)
    before the failure, it holds a part of the JSON text only, which
    [json.load] refuses and [load_servers] then reads as the empty list: the
    store is the empty list from then on. *)
Definition write_servers (servers : list server) : M unit :=
  fun w =>
    if disk_ok E SERVERS_FILE then
      (Ret tt,
       {| requests_log := requests_log w; files := files w;
          clock_reads := clock_reads w; servers_file := Some servers |})
    else
      (Raise (Exn OSError SERVERS_FILE),
       match failed_write E SERVERS_FILE with
       | None => w
       | Some _ =>
           {| requests_log := requests_log w; files := files w;
              clock_reads := clock_reads w; servers_file := Some [] |}
       end).

(** [ensure_dirs()]: the directories are made, which is taken to succeed,
    and [servers.json] is created with the empty list when it does not
    exist. *)
Definition ensure_dirs : M unit :=
  fun w =>
    match servers_file w with
    | Some _ => (Ret tt, w)
    | None => write_servers [] w
    end.

(** [load_servers()] *)
Definition load_servers : M (list server) :=
  ensure_dirs >> (fun w => (Ret (default [] (servers_file w)), w)).

(** [save_servers(servers)] *)
Definition save_servers (servers : list server) : M unit :=
  ensure_dirs >> write_servers servers.

(** The name of the debug file for a label at a time. *)
Definition debug_path (t : N) (server_name : str) : str :=
  DEBUG_DIR ++ py "/"
    ++ replace_char " " "_" (decimal t ++ py "_" ++ server_name ++ py "_debug.txt").

(** What is written into a debug file. *)
Definition debug_content (endpoint response_text : str) : str :=
  py "Endpoint: " ++ endpoint ++ [LF; LF] ++ take (N.to_nat 500000) response_text.

(** [save_debug_response(server_name, endpoint, response_text)] *)
Definition save_debug_response (server_name endpoint response_text : str)
  : M (option str) :=
  ensure_dirs >>
  t <- now ;;
  let path := debug_path t server_name in
  try_except_Exception
    (write_file path (debug_content endpoint response_text) >> mret (Some path))
    (fun _ => mret None).

(** The loop of [fetch_player_api_robust] over the endpoints still to try. *)
Fixpoint player_api_loop (username password : str) (timeout : Z)
    (endpoints : list str) (tried : list (str * (response + exn) * str))
  : M player_result :=
  match endpoints with
  | [] => mret (PlayerFailed tried)
  | base :: rest =>
      let api_url := base ++ py "/player_api.php?username=" ++ username
                          ++ py "&password=" ++ password in
      rc <- request_with_client api_url timeout false ;;
      let tried := tried ++ [(api_url, rc.1, rc.2)] in
      match rc.1 with
      | inr _ => player_api_loop username password timeout rest tried
      | inl resp =>
          if negb (status_code resp =? 200)%Z then
            try_except
              (save_debug_response "player_api_non200" api_url (text resp)
                 >> mret tt)
              (mret tt) >>
            player_api_loop username password timeout rest tried
          else
            r <- try_except_Exception
                   (data <- lift (json_of resp) ;;
                    mret (Some (PlayerOk api_url rc.2 data)))
                   (fun _ =>
                      save_debug_response "player_api_badjson" api_url (text resp)
                        >> mret None) ;;
            match r with
            | Some res => mret res
            | None => player_api_loop username password timeout rest tried
            end
      end
  end.

(** [fetch_player_api_robust(server_url, username, password, timeout)] *)
Definition fetch_player_api_robust (server_url username password : str)
    (timeout : Z) : M player_result :=
  player_api_loop username password timeout (generate_endpoints server_url) [].

(** The body of a streamed response: the chunks joined and decoded with the
    response's encoding, or with UTF-8 when that fails; an exception that
    interrupts the iteration, or that the second decoding raises, is raised. *)
Definition stream_text (resp : response) : result str :=
  match iter_content resp with
  | Raise e => Raise e
  | Ret chunks =>
      let raw := concat (List.filter (fun c => negb (bool_decide (c = []))) chunks) in
      let enc := match encoding resp with
                 | Some e => if bool_decide (e = []) then py "utf-8" else e
                 | None => py "utf-8"
                 end in
      match decode E enc raw with
      | Ret body => Ret body
      | Raise _ => decode E "utf-8" raw
      end
  end.

(** The loop of [fetch_playlist_robust] (main.py) over the endpoints still
    to try. *)
Fixpoint playlist_loop (username password m3u_type : str) (timeout : Z)
    (endpoints : list str) : M playlist_result :=
  match endpoints with
  | [] => mret PlaylistFailed
  | base :: rest =>
      let pl_url := base ++ py "/get.php?username=" ++ username
                         ++ py "&password=" ++ password
                         ++ py "&type=" ++ m3u_type in
      rc <- request_with_client pl_url timeout true ;;
      match rc.1 with
      | inr _ => playlist_loop username password m3u_type timeout rest
      | inl resp =>
          if negb (status_code resp =? 200)%Z then
            try_except
              (save_debug_response "playlist_non200" pl_url (text resp)
                 >> mret tt)
              (mret tt) >>
            playlist_loop username password m3u_type timeout rest
          else
            r <- try_except_Exception
                   (body <- lift (stream_text resp) ;;
                    if contains "#EXTM3U" (upper body)
                    then mret (Some (PlaylistOk pl_url rc.2 body))
                    else save_debug_response "playlist_nonm3u" pl_url body
                           >> mret None)
                   (fun e =>
                      try_except_Exception
                        (let resp_text := text resp in
                         save_debug_response "playlist_error" pl_url
                           (if bool_decide (resp_text = []) then exn_text e
                            else resp_text) >> mret None)
                        (fun _ => mret None)) ;;
            match r with
            | Some res => mret res
            | None => playlist_loop username password m3u_type timeout rest
            end
      end
  end.

(** [fetch_playlist_robust(server_url, username, password, m3u_type, timeout)] *)
Definition fetch_playlist_robust (server_url username password m3u_type : str)
    (timeout : Z) : M playlist_result :=
  playlist_loop username password m3u_type timeout (generate_endpoints server_url).

(** [create_m3u_from_channels(channels, out_path)] *)
Definition create_m3u_from_channels (channels : list channel) (out_path : str)
  : M bool :=
  try_except_Exception
    (write_file out_path (m3u_text_of channels) >> mret true)
    (fun _ => mret false).

(** [x or {}] *)
Definition or_empty_obj (o : option json) : json :=
  match o with
  | Some j => if truthy j then j else JObj []
  | None => JObj []
  end.

(** The text an f-string puts for [s.get(key)]. *)
Definition formatted (s : server) (key : str) : str :=
  match s !! key with
  | Some (JStr x) => x
  | other => format_value E other
  end.

(** [refresh_server(idx)] (console output and the final [input] are not
    part of the world). *)
Definition refresh_server (idx : nat) : M unit :=
  servers <- load_servers ;;
  match servers !! idx with
  | None => mraise (Exn IndexError "list index out of range")
  | Some s =>
      match s !! py "server_url" with
      | Some (JStr server_url) =>
          res <- fetch_player_api_robust server_url (formatted s "username")
                   (formatted s "password") DEFAULT_TIMEOUT ;;
          match res with
          | PlayerFailed _ =>
              let s := <[py "last_endpoint" := JNull]> s in
              let s := <[py "last_client" := JNull]> s in
              t <- now ;;
              let s := <[py "last_check" := JInt (Z.of_N t)]> s in
              save_servers (<[idx := s]> servers)
          | PlayerOk endpoint client data =>
              match data with
              | JObj o =>
                  let s := <[py "user_info" := or_empty_obj (obj_get o "user_info")]> s in
                  let s := <[py "server_info" := or_empty_obj (obj_get o "server_info")]> s in
                  let s := <[py "last_endpoint" := JStr endpoint]> s in
                  let s := <[py "last_client" := JStr client]> s in
                  t <- now ;;
                  let s := <[py "last_check" := JInt (Z.of_N t)]> s in
                  save_servers (<[idx := s]> servers)
              | _ => mraise (Exn AttributeError "get")
              end
          end
      | _ => mraise (Exn AttributeError "strip")
      end
  end.

(** *** Editing the server store *)

(** The record [add_server] builds from the four (stripped) answers and the
    time. *)
Definition new_server (name server_url username password : str) (t : N) : server :=
  <[py "name" := JStr (if bool_decide (name = []) then server_url else name)]>
  (<[py "server_url" := JStr server_url]>
  (<[py "username" := JStr username]>
  (<[py "password" := JStr password]>
  (<[py "created_at" := JInt (Z.of_N t)]>
  (<[py "last_check" := JNull]>
  (<[py "last_endpoint" := JNull]>
  (<[py "last_client" := JNull]>
  (<[py "user_info" := JObj []]>
  (<[py "server_info" := JObj []]> ∅))))))))).

(** [add_server()]; the four arguments are what [input] and [getpass]
    return. *)
Definition add_server (name_in url_in user_in pass_in : str) : M unit :=
  let name := strip name_in in
  let server_url := strip url_in in
  let username := strip user_in in
  let password := strip pass_in in
  t <- now ;;
  let server := new_server name server_url username password t in
  servers <- load_servers ;;
  save_servers (servers ++ [server]).

(** [input(...).strip() or s.get(key)] *)
Definition entered_or (entered : str) (old : option json) : json :=
  if bool_decide (strip entered = []) then default JNull old
  else JStr (strip entered).

(** [edit_server(idx)]; the arguments after [idx] are the answers to the
    prompts, the last one being read only when the password is changed. *)
Definition edit_server (idx : nat) (name_in url_in user_in pwd_prompt pass_in : str)
  : M unit :=
  servers <- load_servers ;;
  match servers !! idx with
  | None => mraise (Exn IndexError "list index out of range")
  | Some s =>
      let name := entered_or name_in (s !! py "name") in
      let server_url := entered_or url_in (s !! py "server_url") in
      let username := entered_or user_in (s !! py "username") in
      let password :=
        if bool_decide (lower (strip pwd_prompt) = py "y")
        then entered_or pass_in (s !! py "password")
        else default JNull (s !! py "password") in
      let s := <[py "name" := name]> s in
      let s := <[py "server_url" := server_url]> s in
      let s := <[py "username" := username]> s in
      let s := <[py "password" := password]> s in
      save_servers (<[idx := s]> servers)
  end.

(** [delete_server(idx)]; [confirm_in] is the answer to the question. *)
Definition delete_server (idx : nat) (confirm_in : str) : M unit :=
  servers <- load_servers ;;
  match servers !! idx with
  | None => mraise (Exn IndexError "list index out of range")
  | Some _ =>
      if bool_decide (lower (strip confirm_in) = py "y")
      then save_servers (delete idx servers)
      else mret tt
  end.

(** The body of the loop of [refresh_all_servers]: the record after its
    server was asked. *)
Definition refresh_record (s : server) : M server :=
  match s !! py "server_url" with
  | Some (JStr server_url) =>
      res <- fetch_player_api_robust server_url (formatted s "username")
               (formatted s "password") DEFAULT_TIMEOUT ;;
      match res with
      | PlayerFailed _ =>
          let s := <[py "last_endpoint" := JNull]> s in
          let s := <[py "last_client" := JNull]> s in
          t <- now ;;
          mret (<[py "last_check" := JInt (Z.of_N t)]> s)
      | PlayerOk endpoint client data =>
          match data with
          | JObj o =>
              let s := <[py "user_info" := or_empty_obj (obj_get o "user_info")]> s in
              let s := <[py "server_info" := or_empty_obj (obj_get o "server_info")]> s in
              let s := <[py "last_endpoint" := JStr endpoint]> s in
              let s := <[py "last_client" := JStr client]> s in
              t <- now ;;
              mret (<[py "last_check" := JInt (Z.of_N t)]> s)
          | _ => mraise (Exn AttributeError "get")
          end
      end
  | _ => mraise (Exn AttributeError "strip")
  end.

(** The loop [for i, s in enumerate(servers)]: [todo] are the records still
    to refresh, [done] the refreshed ones before them. *)
Fixpoint refresh_all_loop (todo done : list server) : M (list server) :=
  match todo with
  | [] => mret done
  | s :: rest =>
      s' <- refresh_record s ;;
      refresh_all_loop rest (done ++ [s'])
  end.

(** [refresh_all_servers()] *)
Definition refresh_all_servers : M unit :=
  servers <- load_servers ;;
  if bool_decide (servers = []) then mret tt
  else
    servers' <- refresh_all_loop servers [] ;;
    save_servers servers'.

(** *** Saving a fetched playlist *)

Definition OUTPUT_DIR : str := DATA_DIR ++ py "/output".

(** [os.path.join(a, b)] on POSIX. *)
Definition path_join (a b : str) : str :=
  if startswith "/" b then b
  else if bool_decide (a = []) || bool_decide (last a = Some "/"%char) then a ++ b
  else a ++ py "/" ++ b.

(** [json.dumps(ch, ensure_ascii=False, indent=2)] *)
Variable json_dumps : channel -> str.

(** The lines of a dumped channel, each moved right by two blanks. *)
Definition indented (dumped : str) : str :=
  join [LF] (map (fun line : str => py "  " ++ line) (splitlines dumped)).

(** What the loop of [save_playlist_json] writes for the channels from
    position [idx] on. *)
Fixpoint json_items (channels : list channel) (idx total : nat) : str :=
  match channels with
  | [] => []
  | ch :: rest =>
      indented (json_dumps ch)
        ++ (if S idx <? total then py "," ++ [LF] else [LF])
        ++ json_items rest (S idx) total
  end.

Definition playlist_json_text (channels : list channel) : str :=
  py "[" ++ [LF] ++ json_items channels 0 (length channels) ++ py "]" ++ [LF].

(** [save_playlist_json(safe_name, username, channels)] *)
Definition save_playlist_json (safe_name username : str) (channels : list channel)
  : M (option str) :=
  ensure_dirs >>
  let path := path_join OUTPUT_DIR
                (safe_name ++ py "_" ++ username ++ py "_playlist.json") in
  try_except_Exception
    (write_file path (playlist_json_text channels) >> mret (Some path))
    (fun _ => mret None).

(** The file [fetch_and_save_playlist] writes the playlist of a record to. *)
Definition playlist_path (safe_name username : str) : str :=
  path_join OUTPUT_DIR (safe_name ++ py "_" ++ username ++ py "_playlist.m3u").

(** [fetch_and_save_playlist(idx)] of main.py. *)
Definition fetch_and_save_playlist (idx : nat) : M unit :=
  servers <- load_servers ;;
  match servers !! idx with
  | None => mraise (Exn IndexError "list index out of range")
  | Some s =>
      match s !! py "server_url" with
      | Some (JStr server_url) =>
          res <- fetch_playlist_robust server_url (formatted s "username")
                   (formatted s "password") "m3u_plus" DEFAULT_TIMEOUT ;;
          match res with
          | PlaylistFailed => mret tt
          | PlaylistOk endpoint client body =>
              match s !! py "name" with
              | Some (JStr _) | None =>
                  let name := match s !! py "name" with
                              | Some (JStr n) => n
                              | _ => py "server"
                              end in
                  let safe_name := replace_char " " "_" name in
                  write_file (playlist_path safe_name (formatted s "username")) body >>
                  let channels := parse_m3u_to_json body in
                  (if bool_decide (channels = []) then mret None
                   else save_playlist_json safe_name (formatted s "username") channels) >>
                  t <- now ;;
                  let s := <[py "last_check" := JInt (Z.of_N t)]> s in
                  let s := <[py "last_endpoint" := JStr endpoint]> s in
                  let s := <[py "last_client" := JStr client]> s in
                  save_servers (<[idx := s]> servers)
              | Some _ => mraise (Exn AttributeError "replace")
              end
          end
      | _ => mraise (Exn AttributeError "strip")
      end
  end.


End Program.

(* ===================================================================== *)
(** ** The two files *)
(* ===================================================================== *)

(** One client call: the request is logged, then answered by the client. *)
Definition client_call (name endpoint : str) (answer : result response) : M response :=
  fun w =>
    (answer,
     {| requests_log := requests_log w ++ [(name, endpoint)]; files := files w;
        clock_reads := clock_reads w; servers_file := servers_file w |}).

Module Main.

Definition DATA_DIR : str := py "xtream_data32".

(** [generate_endpoints] of main.py, lines 124-163. *)
Definition generate_endpoints (base_server : str) : list str :=
  let s := strip base_server in
  let s := rstrip "/" s in
  let '(host, schemes) :=
    if startswith "http://" s || startswith "https://" s then
      match split1 "://" s with
      | [proto; rest] =>
          (rest, [proto; if bool_decide (proto = py "http") then py "https" else py "http"])
      | _ => ([], [])  (* unpacking would raise; the prefix test excludes it *)
      end
    else (s, [py "http"; py "https"]) in
  let ports := if port_detected host then [[]] else common_ports in
  let candidates :=
    flat_map (fun scheme : str =>
      map (fun p : str => rstrip "/" (scheme ++ py "://" ++ host ++ p)) ports) schemes in
  uniq_loop candidates.

(** [request_with_client(endpoint, timeout, stream)] of main.py, lines
    178-197. *)
Definition request_with_client (E : env) (endpoint : str) (timeout : Z)
    (stream : bool) : M ((response + exn) * str) :=
  r <- (if has_cloudscraper E then
          try_except_Exception
            (r <- client_call "cloudscraper" endpoint
                    (scraper_get E endpoint timeout stream) ;;
             mret (Some (inl r, py "cloudscraper")))
            (fun _ => mret None)
        else mret None) ;;
  match r with
  | Some rc => mret rc
  | None =>
      try_except_Exception
        (r <- client_call "requests" endpoint
                (requests_get E endpoint timeout stream) ;;
         mret (inl r, py "requests"))
        (fun e => mret (inr e, py "requests"))
  end.

Definition save_debug_response (E : env) := save_debug_response E DATA_DIR.

Definition fetch_player_api_robust (E : env) :=
  fetch_player_api_robust E DATA_DIR generate_endpoints (request_with_client E).

Definition fetch_playlist_robust (E : env) :=
  fetch_playlist_robust E DATA_DIR generate_endpoints (request_with_client E).

Definition create_m3u_from_channels (E : env) := create_m3u_from_channels E.

Definition refresh_server (E : env) :=
  refresh_server E DATA_DIR generate_endpoints (request_with_client E).

Definition add_server (E : env) := add_server E DATA_DIR.

Definition edit_server (E : env) := edit_server E DATA_DIR.

Definition delete_server (E : env) := delete_server E DATA_DIR.

Definition refresh_all_servers (E : env) :=
  refresh_all_servers E DATA_DIR generate_endpoints (request_with_client E).

Definition fetch_and_save_playlist (E : env) :=
  fetch_and_save_playlist E DATA_DIR generate_endpoints (request_with_client E).

End Main.

Module Xtream.

Definition DATA_DIR : str := py "xtream_data".

(** [generate_endpoints] of xtream.py, lines 91-131. *)
Definition generate_endpoints (base_server : str) : list str :=
  let s := strip base_server in
  let s := rstrip "/" s in
  let '(host, schemes) :=
    if startswith "http://" s || startswith "https://" s then
      match split1 "://" s with
      | [proto; rest] =>
          (rest, [proto; if bool_decide (proto = py "http") then py "https" else py "http"])
      | _ => ([], [])
      end
    else (s, [py "http"; py "https"]) in
  let ports := if port_detected host then [[]] else common_ports in
  let candidates :=
    flat_map (fun scheme : str =>
      map (fun p : str => rstrip "/" (scheme ++ py "://" ++ host ++ p)) ports) schemes in
  uniq_loop candidates.

(** [request_with_client(endpoint, timeout)] of xtream.py, lines 146-164:
    no [stream] argument, the clients are called without it. *)
Definition request_with_client (E : env) (endpoint : str) (timeout : Z)
  : M ((response + exn) * str) :=
  r <- (if has_cloudscraper E then
          try_except_Exception
            (r <- client_call "cloudscraper" endpoint
                    (scraper_get E endpoint timeout false) ;;
             mret (Some (inl r, py "cloudscraper")))
            (fun _ => mret None)
        else mret None) ;;
  match r with
  | Some rc => mret rc
  | None =>
      try_except_Exception
        (r <- client_call "requests" endpoint
                (requests_get E endpoint timeout false) ;;
         mret (inl r, py "requests"))
        (fun e => mret (inr e, py "requests"))
  end.

Definition fetch_player_api_robust (E : env) :=
  fetch_player_api_robust E DATA_DIR generate_endpoints
    (fun endpoint timeout _ => request_with_client E endpoint timeout).

Definition refresh_server (E : env) :=
  refresh_server E DATA_DIR generate_endpoints
    (fun endpoint timeout _ => request_with_client E endpoint timeout).

Definition edit_server (E : env) := edit_server E DATA_DIR.

Definition delete_server (E : env) := delete_server E DATA_DIR.

(** The loop of [fetch_playlist_robust] of xtream.py, lines 212-238: the
    body is [resp.text], nothing is saved for a status other than 200, and
    the save of a body without the marker is not guarded. *)
Fixpoint playlist_loop (E : env) (username password m3u_type : str) (timeout : Z)
    (endpoints : list str) : M playlist_result :=
  match endpoints with
  | [] => mret PlaylistFailed
  | base :: rest =>
      let pl_url := base ++ py "/get.php?username=" ++ username
                         ++ py "&password=" ++ password
                         ++ py "&type=" ++ m3u_type in
      rc <- request_with_client E pl_url timeout ;;
      match rc.1 with
      | inr _ => playlist_loop E username password m3u_type timeout rest
      | inl resp =>
          if negb (status_code resp =? 200)%Z then
            playlist_loop E username password m3u_type timeout rest
          else
            let body := text resp in
            if contains "#EXTM3U" (upper body)
            then mret (PlaylistOk pl_url rc.2 body)
            else
              save_debug_response E DATA_DIR "playlist_nonm3u" pl_url body >>
              playlist_loop E username password m3u_type timeout rest
      end
  end.

Definition fetch_playlist_robust (E : env)
    (server_url username password m3u_type : str) (timeout : Z)
  : M playlist_result :=
  playlist_loop E username password m3u_type timeout (generate_endpoints server_url).

(** [fetch_and_save_playlist(idx)] of xtream.py, lines 401-424: the playlist
    is written, not parsed. *)
Definition fetch_and_save_playlist (E : env) (idx : nat) : M unit :=
  servers <- load_servers E DATA_DIR ;;
  match servers !! idx with
  | None => mraise (Exn IndexError "list index out of range")
  | Some s =>
      match s !! py "server_url" with
      | Some (JStr server_url) =>
          res <- fetch_playlist_robust E server_url (formatted E s "username")
                   (formatted E s "password") "m3u_plus" DEFAULT_TIMEOUT ;;
          match res with
          | PlaylistFailed => mret tt
          | PlaylistOk endpoint client body =>
              match s !! py "name" with
              | Some (JStr _) | None =>
                  let name := match s !! py "name" with
                              | Some (JStr n) => n
                              | _ => py "server"
                              end in
                  let safe_name := replace_char " " "_" name in
                  write_file E (playlist_path DATA_DIR safe_name (formatted E s "username"))
                    body >>
                  t <- now E ;;
                  let s := <[py "last_check" := JInt (Z.of_N t)]> s in
                  let s := <[py "last_endpoint" := JStr endpoint]> s in
                  let s := <[py "last_client" := JStr client]> s in
                  save_servers E DATA_DIR (<[idx := s]> servers)
              | Some _ => mraise (Exn AttributeError "replace")
              end
          end
      | _ => mraise (Exn AttributeError "strip")
      end
  end.

End Xtream.

Arguments debug_content : simpl never.
Arguments debug_path : simpl never.

(* ===================================================================== *)
(** ** Vocabulary of the statements about the probe engine *)
(* ===================================================================== *)

(** The world before anything happened. *)
Definition w0 : world :=
  {| requests_log := []; files := ∅; clock_reads := 0; servers_file := None |}.

(** The world after more requests were sent. *)
Definition with_requests (w : world) (sent : list (str * str)) : world :=
  {| requests_log := requests_log w ++ sent; files := files w;
     clock_reads := clock_reads w; servers_file := servers_file w |}.

(** The world after [ensure_dirs]: [servers.json] exists. *)
Definition after_ensure (w : world) : world :=
  {| requests_log := requests_log w; files := files w;
     clock_reads := clock_reads w;
     servers_file := Some (default [] (servers_file w)) |}.

(** The world after a debug file was saved. *)
Definition with_debug_file (E : env) (data_dir server_name endpoint body : str)
    (w : world) : world :=
  {| requests_log := requests_log w;
     files := <[debug_path data_dir (clock E (clock_reads w)) server_name
                := debug_content endpoint body]> (files w);
     clock_reads := S (clock_reads w);
     servers_file := Some (default [] (servers_file w)) |}.

(** What [request_with_client] of main.py answers for a URL, and the
    requests it sends for it; neither depends on the world. *)
Definition answer (E : env) (endpoint : str) (timeout : Z) (stream : bool)
  : result ((response + exn) * str) :=
  (Main.request_with_client E endpoint timeout stream w0).1.

Definition calls (E : env) (endpoint : str) (timeout : Z) (stream : bool)
  : list (str * str) :=
  requests_log (Main.request_with_client E endpoint timeout stream w0).2.

(** The result of a request is a response of the client named, or the
    exception [requests] raised, tagged [requests]; nothing is raised. *)
Definition captured (E : env) (endpoint : str) (timeout : Z) (stream : bool)
    (out : result ((response + exn) * str)) : Prop :=
  match out with
  | Ret (inl r, client) =>
      (client = py "cloudscraper" /\ has_cloudscraper E = true
       /\ scraper_get E endpoint timeout stream = Ret r)
      \/ (client = py "requests" /\ requests_get E endpoint timeout stream = Ret r)
  | Ret (inr e, client) =>
      client = py "requests" /\ requests_get E endpoint timeout stream = Raise e
  | Raise _ => False
  end.

(** Every exception the two clients raise is an [Exception], as connection,
    timeout, TLS and DNS failures are. *)
Definition clients_raise_exceptions (E : env) : Prop :=
  forall url timeout stream e,
    scraper_get E url timeout stream = Raise e
    \/ requests_get E url timeout stream = Raise e ->
    is_Exception e = true.

(** The URLs the two probes build from a candidate. *)
Definition api_url (base username password : str) : str :=
  base ++ py "/player_api.php?username=" ++ username ++ py "&password=" ++ password.

Definition playlist_url (base username password m3u_type : str) : str :=
  base ++ py "/get.php?username=" ++ username ++ py "&password=" ++ password
       ++ py "&type=" ++ m3u_type.

(** A debug file for the endpoint exists. *)
Definition diagnosed (w : world) (endpoint : str) : Prop :=
  exists path content,
    files w !! path = Some content
    /\ startswith (py "Endpoint: " ++ endpoint ++ [LF; LF]) content = true.

(** The disk accepts every write. *)
Definition disk_accepts (E : env) : Prop := forall path, disk_ok E path = true.

(** *** Concrete environments *)

Definition no_json : result json := Raise (Exn ValueError (py "Expecting value")).

Definition not_found : response :=
  {| status_code := 404%Z; text := py "Not Found"; json_of := no_json;
     encoding := None; iter_content := Ret [py "Not Found"] |}.

Definition account_json : json :=
  JObj [(py "user_info", JObj [(py "status", JStr (py "Active"))]);
        (py "server_info", JObj [(py "port", JStr (py "8080"))])].

Definition account : response :=
  {| status_code := 200%Z; text := py "{...}"; json_of := Ret account_json;
     encoding := None; iter_content := Ret [py "{...}"] |}.

Definition html_page : response :=
  {| status_code := 200%Z; text := py "<html>"; json_of := no_json;
     encoding := None; iter_content := Ret [py "<html>"] |}.

(** No cloudscraper; the first candidate of [h] refuses the connection, the
    second answers 404, every other URL answers the account JSON.  All
    requests fall into the same second. *)
Definition env_abc : env :=
  {| has_cloudscraper := false;
     scraper_get := fun _ _ _ => Raise (Exn ConnectionError []);
     requests_get := fun u _ _ =>
       if bool_decide (u = api_url "http://h" "u" "p")
       then Raise (Exn ConnectionError (py "refused"))
       else if bool_decide (u = api_url "http://h:80" "u" "p")
            then Ret not_found else Ret account;
     clock := fun _ => 1700000000%N;
     disk_ok := fun _ => true;
     failed_write := fun _ => None;
     decode := fun _ raw => Ret raw;
     format_value := fun _ => py "None" |}.

(** Every URL answers an HTML page with status 200; all requests fall into
    the same second. *)
Definition env_html : env :=
  {| has_cloudscraper := false;
     scraper_get := fun _ _ _ => Raise (Exn ConnectionError []);
     requests_get := fun _ _ _ => Ret html_page;
     clock := fun _ => 1700000000%N;
     disk_ok := fun _ => true;
     failed_write := fun _ => None;
     decode := fun _ raw => Ret raw;
     format_value := fun _ => py "None" |}.

(** As [env_html], with a clock that advances by one second per reading. *)
Definition env_html_slow : env :=
  {| has_cloudscraper := false;
     scraper_get := fun _ _ _ => Raise (Exn ConnectionError []);
     requests_get := fun _ _ _ => Ret html_page;
     clock := fun n => (1700000000 + N.of_nat n)%N;
     disk_ok := fun _ => true;
     failed_write := fun _ => None;
     decode := fun _ raw => Ret raw;
     format_value := fun _ => py "None" |}.

(** Cloudscraper is installed and fails on TLS, [requests] times out. *)
Definition env_failing : env :=
  {| has_cloudscraper := true;
     scraper_get := fun _ _ _ => Raise (Exn SSLError (py "handshake"));
     requests_get := fun _ _ _ => Raise (Exn Timeout (py "timed out"));
     clock := fun _ => 1700000000%N;
     disk_ok := fun _ => true;
     failed_write := fun _ => None;
     decode := fun _ raw => Ret raw;
     format_value := fun _ => py "None" |}.

(** The user interrupts the request. *)
Definition env_interrupted : env :=
  {| has_cloudscraper := false;
     scraper_get := fun _ _ _ => Raise (Exn ConnectionError []);
     requests_get := fun _ _ _ => Raise (Exn KeyboardInterrupt []);
     clock := fun _ => 1700000000%N;
     disk_ok := fun _ => true;
     failed_write := fun _ => None;
     decode := fun _ raw => Ret raw;
     format_value := fun _ => py "None" |}.

(** *** The probes of main.py, step by step *)

(** The decoded body a playlist URL answers with (empty when it has none). *)
Definition playlist_body (E : env) (url : str) (timeout : Z) : str :=
  match answer E url timeout true with
  | Ret (inl r, _) =>
      match stream_text E r with
      | Ret body => body
      | Raise _ => []
      end
  | _ => []
  end.

(** A candidate that answers 200 with a body lacking the marker. *)
Definition nonm3u_candidate (E : env) (username password m3u_type : str)
    (timeout : Z) (base : str) : Prop :=
  exists r client body,
    answer E (playlist_url base username password m3u_type) timeout true
      = Ret (inl r, client)
    /\ status_code r = 200%Z
    /\ stream_text E r = Ret body
    /\ contains "#EXTM3U" (upper body) = false.

(** The world after such a candidate was tried: its requests were sent and
    its body was saved. *)
Definition nonm3u_step (E : env) (username password m3u_type : str)
    (timeout : Z) (w : world) (base : str) : world :=
  let url := playlist_url base username password m3u_type in
  with_debug_file E Main.DATA_DIR "playlist_nonm3u" url
    (playlist_body E url timeout)
    (with_requests w (calls E url timeout true)).

(** *** The server store *)

(** The record [refresh_server] writes back after a failed fetch that ended
    in the world [w1]. *)
Definition marked_failed (E : env) (w1 : world) (s : server) : server :=
  <[py "last_check" := JInt (Z.of_N (clock E (clock_reads w1)))]>
    (<[py "last_client" := JNull]> (<[py "last_endpoint" := JNull]> s)).

(** What a failed refresh of record [idx] leaves behind: the call returns,
    the store is saved with the record marked and every other record as it
    was, and in the record only [last_endpoint], [last_client] and
    [last_check] have changed. *)
Definition failure_recorded (E : env) (idx : nat) (servers : list server)
    (s : server) (w1 : world) (out : result unit * world) : Prop :=
  out.1 = Ret tt
  /\ (exists saved,
        servers_file out.2 = Some saved
        /\ length saved = length servers
        /\ saved !! idx = Some (marked_failed E w1 s)
        /\ (forall j, j <> idx -> saved !! j = servers !! j))
  /\ marked_failed E w1 s !! py "last_endpoint" = Some JNull
  /\ marked_failed E w1 s !! py "last_client" = Some JNull
  /\ marked_failed E w1 s !! py "last_check"
     = Some (JInt (Z.of_N (clock E (clock_reads w1))))
  /\ (forall key, key <> py "last_endpoint" -> key <> py "last_client" ->
        key <> py "last_check" -> marked_failed E w1 s !! key = s !! key)
  /\ files out.2 = files w1
  /\ requests_log out.2 = requests_log w1.

(** A saved server that was reached before. *)
Definition server_h : server :=
  <[py "name" := JStr (py "home")]>
  (<[py "server_url" := JStr (py "h")]>
  (<[py "username" := JStr (py "u")]>
  (<[py "password" := JStr (py "p")]>
  (<[py "created_at" := JInt 1690000000%Z]>
  (<[py "last_check" := JInt 1690000100%Z]>
  (<[py "last_endpoint" := JStr (py "http://h:8080/player_api.php?username=u&password=p")]>
  (<[py "last_client" := JStr (py "requests")]>
  (<[py "user_info" := JObj [(py "status", JStr (py "Active"))]]>
  (<[py "server_info" := JObj []]> ∅))))))))).

Definition server_other : server :=
  <[py "name" := JStr (py "other")]> (<[py "server_url" := JStr (py "o")]> ∅).

Definition world_two_servers : world :=
  {| requests_log := []; files := ∅; clock_reads := 0;
     servers_file := Some [server_other; server_h] |}.

(* ===================================================================== *)
(** ** Vocabulary of the further properties *)
(* ===================================================================== *)

(** *** Addresses *)

(** The candidates of [generate_endpoints] before the de-duplication loop:
    the given scheme and the other one, each with the port variants (or
    with none, when the host is found to carry a port). *)
Definition all_candidates (base_server : str) : list str :=
  let s := trimmed base_server in
  let host := host_portion s in
  let ports := if port_detected host then [[]] else common_ports in
  flat_map (fun scheme : str =>
    map (fun p : str => rstrip "/" (scheme ++ py "://" ++ host ++ p)) ports)
    [given_scheme s; other_scheme (given_scheme s)].

(** The seven port variants of a host under one scheme. *)
Definition with_ports (scheme host : str) : list str :=
  map (fun p : str => scheme ++ py "://" ++ host ++ p) common_ports.

(** *** Playlists *)

(** A channel as the parser builds it: all five keys are present; the
    duration is made of digits and minus signs; the attribute keys are
    pairwise different, not empty and of the key class; no attribute value
    has a double quote, a comma or a line break; the title has no blank at
    either end; the URL is empty or a URL line; and the raw line is a
    stripped [#EXTINF] line. *)
Definition channel_wf (ch : channel) : Prop :=
  exists d a t u ln,
    ch = Channel (Some t) (Some d) (Some a) (Some u) (Some ln)
    /\ Forall (fun c => is_dur_char c = true) d
    /\ Forall attr_wf a /\ NoDup (map fst a)
    /\ strip t = t /\ no_linebreak t
    /\ (u = [] \/ good_url u)
    /\ strip ln = ln /\ is_extinf ln = true /\ no_linebreak ln.

(** The [#EXTINF] lines of a text. *)
Definition extinf_lines (text : str) : list str :=
  List.filter is_extinf (splitlines text).

(** A line the parser never looks at: blank, or a comment that is not an
    [#EXTINF] line. *)
Definition ignorable (l : str) : bool :=
  bool_decide (strip l = []) || (startswith "#" (strip l) && negb (is_extinf l)).

(** The lines of a text the parser looks at. *)
Definition significant_lines (text : str) : list str :=
  List.filter (fun l => negb (ignorable l)) (splitlines text).

(** The scenario playlist with a blank line and comments added. *)
Definition scenario_text_commented : str :=
  py "#EXTM3U" ++ newline ++ py "# my list" ++ newline
  ++ py "#EXTINF:-1 tvg-id=" ++ [dquote] ++ py "1" ++ [dquote]
  ++ py " group-title=" ++ [dquote] ++ py "News" ++ [dquote]
  ++ py ",Channel A" ++ newline
  ++ newline ++ py "#EXTVLCOPT:x" ++ newline
  ++ py "http://x/a.ts" ++ newline.

(** The channel has a URL line. *)
Definition has_url (ch : channel) : Prop :=
  exists u, url ch = Some u /\ good_url u.

(** *** Requests and debug files *)

(** [requests] is asked: cloudscraper is not installed, or it raised an
    [Exception]. *)
Definition fell_back (E : env) (endpoint : str) (timeout : Z) (stream : bool) : bool :=
  if has_cloudscraper E then
    match scraper_get E endpoint timeout stream with
    | Ret _ => false
    | Raise e => is_Exception e
    end
  else true.

(** The requests one call of [request_with_client] sends. *)
Definition requests_sent (E : env) (endpoint : str) (timeout : Z) (stream : bool)
  : list (str * str) :=
  (if has_cloudscraper E then [(py "cloudscraper", endpoint)] else [])
  ++ (if fell_back E endpoint timeout stream then [(py "requests", endpoint)] else []).

(** The first line of a debug file and the blank line after it. *)
Definition debug_header (endpoint : str) : str :=
  py "Endpoint: " ++ endpoint ++ [LF; LF].

(** The store file can be written. *)
Definition store_writable (E : env) (data_dir : str) : Prop :=
  disk_ok E (SERVERS_FILE data_dir) = true.

(** *** The authentication fetch, candidate by candidate *)

(** The entry the loop appends to [tried] for a candidate. *)
Definition api_attempt (E : env) (username password : str) (timeout : Z)
    (base : str) : option (str * (response + exn) * str) :=
  match answer E (api_url base username password) timeout false with
  | Ret (rc, client) => Some (api_url base username password, rc, client)
  | Raise _ => None
  end.

(** The candidate answers with status 200 and a body that is JSON: the
    client that got the answer, and the payload. *)
Definition api_success (E : env) (username password : str) (timeout : Z)
    (base : str) : option (str * json) :=
  match answer E (api_url base username password) timeout false with
  | Ret (inl r, client) =>
      if (status_code r =? 200)%Z then
        match json_of r with
        | Ret data => Some (client, data)
        | Raise _ => None
        end
      else None
  | _ => None
  end.

(** The first candidate that succeeds. *)
Fixpoint first_api_success (E : env) (username password : str) (timeout : Z)
    (endpoints : list str) : option (str * str * json) :=
  match endpoints with
  | [] => None
  | base :: rest =>
      match api_success E username password timeout base with
      | Some (client, data) => Some (base, client, data)
      | None => first_api_success E username password timeout rest
      end
  end.

(** The candidates up to and including the first that succeeds. *)
Fixpoint api_asked (E : env) (username password : str) (timeout : Z)
    (endpoints : list str) : list str :=
  match endpoints with
  | [] => []
  | base :: rest =>
      match api_success E username password timeout base with
      | Some _ => [base]
      | None => base :: api_asked E username password timeout rest
      end
  end.

(** First success wins: the payload of the first candidate that succeeds,
    or the failure with one attempt per candidate. *)
Definition first_success_wins (E : env) (username password : str) (timeout : Z)
    (endpoints : list str) : player_result :=
  match first_api_success E username password timeout endpoints with
  | Some (base, client, data) =>
      PlayerOk (api_url base username password) client data
  | None => PlayerFailed (omap (api_attempt E username password timeout) endpoints)
  end.

(** A body that is not JSON makes [resp.json()] raise an [Exception] (a
    [ValueError]), whatever the client. *)
Definition json_errors_are_exceptions (E : env) : Prop :=
  forall url timeout stream r e,
    scraper_get E url timeout stream = Ret r
    \/ requests_get E url timeout stream = Ret r ->
    json_of r = Raise e -> is_Exception e = true.

(** *** The playlist fetch, candidate by candidate *)

(** The candidate answers with status 200 and a streamed body that holds
    the marker: the client that got the answer, and the body. *)
Definition playlist_success (E : env) (username password m3u_type : str)
    (timeout : Z) (base : str) : option (str * str) :=
  match answer E (playlist_url base username password m3u_type) timeout true with
  | Ret (inl r, client) =>
      if (status_code r =? 200)%Z then
        match stream_text E r with
        | Ret body =>
            if contains "#EXTM3U" (upper body) then Some (client, body) else None
        | Raise _ => None
        end
      else None
  | _ => None
  end.

Fixpoint first_playlist_success (E : env) (username password m3u_type : str)
    (timeout : Z) (endpoints : list str) : option (str * str * str) :=
  match endpoints with
  | [] => None
  | base :: rest =>
      match playlist_success E username password m3u_type timeout base with
      | Some (client, body) => Some (base, client, body)
      | None => first_playlist_success E username password m3u_type timeout rest
      end
  end.

(** The candidates up to and including the first that succeeds. *)
Fixpoint playlist_asked (E : env) (username password m3u_type : str)
    (timeout : Z) (endpoints : list str) : list str :=
  match endpoints with
  | [] => []
  | base :: rest =>
      match playlist_success E username password m3u_type timeout base with
      | Some _ => [base]
      | None => base :: playlist_asked E username password m3u_type timeout rest
      end
  end.

(** The playlist of the first candidate that succeeds, or the failure. *)
Definition first_playlist_wins (E : env) (username password m3u_type : str)
    (timeout : Z) (endpoints : list str) : playlist_result :=
  match first_playlist_success E username password m3u_type timeout endpoints with
  | Some (base, client, body) =>
      PlaylistOk (playlist_url base username password m3u_type) client body
  | None => PlaylistFailed
  end.

(** The body of a playlist result holds the marker. *)
Definition marked (res : playlist_result) : Prop :=
  match res with
  | PlaylistOk _ _ body => contains "#EXTM3U" (upper body) = true
  | PlaylistFailed => True
  end.

(** What interrupts the streaming or the decoding of a body is an
    [Exception]. *)
Definition stream_errors_are_exceptions (E : env) : Prop :=
  forall url timeout stream r e,
    scraper_get E url timeout stream = Ret r
    \/ requests_get E url timeout stream = Ret r ->
    stream_text E r = Raise e -> is_Exception e = true.

(** A disk that refuses every write. *)
Definition env_read_only (E : env) : env :=
  {| has_cloudscraper := has_cloudscraper E;
     scraper_get := scraper_get E;
     requests_get := requests_get E;
     clock := clock E;
     disk_ok := fun _ => false;
     failed_write := failed_write E;
     decode := decode E;
     format_value := format_value E |}.

(** A disk that runs full: every file can be opened, which empties it, and
    nothing can be written to it. *)
Definition env_disk_full (E : env) : env :=
  {| has_cloudscraper := has_cloudscraper E;
     scraper_get := scraper_get E;
     requests_get := requests_get E;
     clock := clock E;
     disk_ok := fun _ => false;
     failed_write := fun _ => Some [];
     decode := decode E;
     format_value := format_value E |}.

(** *** The server store *)

(** The answer to a yes/no question is yes: [y] in either letter case,
    blanks around it allowed. *)
Definition says_yes (entered : str) : bool :=
  bool_decide (lower (strip entered) = py "y").

(** [servers.json] holds the list [servers]. *)
Definition stored (w : world) (servers : list server) : Prop :=
  servers_file w = Some servers.

(** The world with its store replaced. *)
Definition with_store (w : world) (servers : list server) : world :=
  {| requests_log := requests_log w; files := files w;
     clock_reads := clock_reads w; servers_file := Some servers |}.

(** The four keys [edit_server] writes. *)
Definition edited_keys : list str :=
  [py "name"; py "server_url"; py "username"; py "password"].

(** The five keys a refresh writes. *)
Definition refreshed_keys : list str :=
  [py "user_info"; py "server_info"; py "last_endpoint"; py "last_client";
   py "last_check"].

(** Two records agree on every key outside [keys]. *)
Definition same_outside (keys : list str) (s s' : server) : Prop :=
  forall key, key ∉ keys -> s' !! key = s !! key.

(** The exception of [servers[idx]] for an [idx] beyond the list. *)
Definition index_error : exn := Exn IndexError "list index out of range".

(** The record [edit_server] writes back for the answers given. *)
Definition edited (s : server) (name_in url_in user_in pwd_prompt pass_in : str)
  : server :=
  <[py "password" :=
      if says_yes pwd_prompt then entered_or pass_in (s !! py "password")
      else default JNull (s !! py "password")]>
  (<[py "username" := entered_or user_in (s !! py "username")]>
  (<[py "server_url" := entered_or url_in (s !! py "server_url")]>
  (<[py "name" := entered_or name_in (s !! py "name")]> s))).

(** An answer left blank. *)
Definition blank (entered : str) : Prop := strip entered = [].

(** The record [refresh_server] writes back after a fetch that succeeded
    with the JSON object [o] and ended in the world [w1]. *)
Definition marked_ok (E : env) (w1 : world) (s : server) (endpoint client : str)
    (o : list (str * json)) : server :=
  <[py "last_check" := JInt (Z.of_N (clock E (clock_reads w1)))]>
  (<[py "last_client" := JStr client]>
  (<[py "last_endpoint" := JStr endpoint]>
  (<[py "server_info" := or_empty_obj (obj_get o "server_info")]>
  (<[py "user_info" := or_empty_obj (obj_get o "user_info")]> s)))).

(** What a successful refresh of record [idx] leaves behind: the call
    returns, the store is saved with the record updated and every other
    record as it was, and in the record only the five keys of a refresh have
    changed. *)
Definition success_recorded (E : env) (idx : nat) (servers : list server)
    (s : server) (endpoint client : str) (o : list (str * json))
    (w1 : world) (out : result unit * world) : Prop :=
  out.1 = Ret tt
  /\ (exists saved,
        stored out.2 saved
        /\ length saved = length servers
        /\ saved !! idx = Some (marked_ok E w1 s endpoint client o)
        /\ (forall j, j <> idx -> saved !! j = servers !! j))
  /\ marked_ok E w1 s endpoint client o !! py "user_info"
     = Some (or_empty_obj (obj_get o "user_info"))
  /\ marked_ok E w1 s endpoint client o !! py "server_info"
     = Some (or_empty_obj (obj_get o "server_info"))
  /\ marked_ok E w1 s endpoint client o !! py "last_endpoint" = Some (JStr endpoint)
  /\ marked_ok E w1 s endpoint client o !! py "last_client" = Some (JStr client)
  /\ marked_ok E w1 s endpoint client o !! py "last_check"
     = Some (JInt (Z.of_N (clock E (clock_reads w1))))
  /\ same_outside refreshed_keys s (marked_ok E w1 s endpoint client o)
  /\ files out.2 = files w1
  /\ requests_log out.2 = requests_log w1.

(** A server that answers every request with the account. *)
Definition env_account : env :=
  {| has_cloudscraper := false;
     scraper_get := fun _ _ _ => Raise (Exn ConnectionError []);
     requests_get := fun _ _ _ => Ret account;
     clock := fun _ => 1700000000%N;
     disk_ok := fun _ => true;
     failed_write := fun _ => None;
     decode := fun _ raw => Ret raw;
     format_value := fun _ => py "None" |}.

(** *** Saving a playlist *)

(** The label [fetch_and_save_playlist] takes from a record: its name, or
    [server] when it has none; a name that is not a text has no label. *)
Definition label_of (s : server) : option str :=
  match s !! py "name" with
  | Some (JStr n) => Some n
  | None => Some (py "server")
  | Some _ => None
  end.

(** The three keys a playlist fetch writes. *)
Definition fetched_keys : list str :=
  [py "last_check"; py "last_endpoint"; py "last_client"].

(** The record [fetch_and_save_playlist] writes back after a fetch that
    ended in the world [w1]. *)
Definition marked_fetched (E : env) (w1 : world) (s : server) (endpoint client : str)
  : server :=
  <[py "last_client" := JStr client]>
  (<[py "last_endpoint" := JStr endpoint]>
  (<[py "last_check" := JInt (Z.of_N (clock E (clock_reads w1)))]> s)).

(** The file the parsed channels of a record are written to. *)
Definition playlist_json_path (data_dir safe_name username : str) : str :=
  path_join (OUTPUT_DIR data_dir)
    (safe_name ++ py "_" ++ username ++ py "_playlist.json").

(** A server that answers every request with a playlist of one channel. *)
Definition playlist_response : response :=
  {| status_code := 200%Z; text := scenario_text; json_of := no_json;
     encoding := None; iter_content := Ret [scenario_text] |}.

Definition env_playlist : env :=
  {| has_cloudscraper := false;
     scraper_get := fun _ _ _ => Raise (Exn ConnectionError []);
     requests_get := fun _ _ _ => Ret playlist_response;
     clock := fun _ => 1700000000%N;
     disk_ok := fun _ => true;
     failed_write := fun _ => None;
     decode := fun _ raw => Ret raw;
     format_value := fun _ => py "None" |}.

(** *** The playlist fetch of xtream.py, candidate by candidate *)

(** The candidate answers with status 200 and a text that holds the
    marker. *)
Definition text_success (E : env) (username password m3u_type : str)
    (timeout : Z) (base : str) : option (str * str) :=
  match answer E (playlist_url base username password m3u_type) timeout false with
  | Ret (inl r, client) =>
      if (status_code r =? 200)%Z && contains "#EXTM3U" (upper (text r))
      then Some (client, text r) else None
  | _ => None
  end.

Fixpoint first_text_success (E : env) (username password m3u_type : str)
    (timeout : Z) (endpoints : list str) : option (str * str * str) :=
  match endpoints with
  | [] => None
  | base :: rest =>
      match text_success E username password m3u_type timeout base with
      | Some (client, body) => Some (base, client, body)
      | None => first_text_success E username password m3u_type timeout rest
      end
  end.

Definition first_text_wins (E : env) (username password m3u_type : str)
    (timeout : Z) (endpoints : list str) : playlist_result :=
  match first_text_success E username password m3u_type timeout endpoints with
  | Some (base, client, body) =>
      PlaylistOk (playlist_url base username password m3u_type) client body
  | None => PlaylistFailed
  end.

(** The candidate answers with a status other than 200, or not at all. *)
Definition no_body (E : env) (username password m3u_type : str)
    (timeout : Z) (base : str) : Prop :=
  match answer E (playlist_url base username password m3u_type) timeout false with
  | Ret (inl r, _) => status_code r <> 200%Z
  | Ret (inr _, _) => True
  | Raise _ => False
  end.

(** Every URL answers 404. *)
Definition env_not_found : env :=
  {| has_cloudscraper := false;
     scraper_get := fun _ _ _ => Raise (Exn ConnectionError []);
     requests_get := fun _ _ _ => Ret not_found;
     clock := fun _ => 1700000000%N;
     disk_ok := fun _ => true;
     failed_write := fun _ => None;
     decode := fun _ raw => Ret raw;
     format_value := fun _ => py "None" |}.
(* ===================================================================== *)
(** ** Python strings: lemmas *)
(* ===================================================================== *)

Lemma startswith_app (p s : str) : startswith p (p ++ s) = true.
Proof.
  induction p as [|a p IH]; simpl; [done|].
  by rewrite bool_decide_eq_true_2.
Qed.

Lemma startswith_spec (p s : str) :
  startswith p s = true <-> exists r, s = p ++ r.
Proof.
  split.
  - revert s. induction p as [|a p IH]; intros s H; simpl in *.
    + by exists s.
    + destruct s as [|b s]; [done|].
      apply andb_true_iff in H as [Hab H].
      apply bool_decide_eq_true_1 in Hab as ->.
      destruct (IH _ H) as [r ->]. by exists r.
  - intros [r ->]. apply startswith_app.
Qed.

Lemma startswith_drop (p s : str) :
  startswith p s = true -> s = p ++ drop (length p) s.
Proof.
  intros [r ->]%startswith_spec. by rewrite drop_app_length.
Qed.

Lemma rstrip_by_nil_inv (p : ascii -> bool) (s : str) :
  rstrip_by p s = [] -> Forall (fun c => p c = true) s.
Proof.
  induction s as [|c r IH]; simpl; [constructor|].
  destruct (rstrip_by p r) eqn:E; [|done].
  destruct (p c) eqn:Hc; [|done].
  intros _. constructor; auto.
Qed.

(** What [rstrip] returns is empty or ends in a character it keeps. *)
Lemma rstrip_by_last (p : ascii -> bool) (s : str) (c : ascii) :
  last (rstrip_by p s) = Some c -> p c = false.
Proof.
  revert c. induction s as [|a r IH]; intros c; simpl; [done|].
  destruct (rstrip_by p r) as [|b r'] eqn:E.
  - destruct (p a) eqn:Ha; [done|]. simpl. by intros [= <-].
  - change (last (a :: b :: r')) with (last (b :: r')). apply IH.
Qed.

(** A text that ends in a kept character is left alone. *)
Lemma rstrip_by_keep (p : ascii -> bool) (s : str) (c : ascii) :
  p c = false -> rstrip_by p (s ++ [c]) = s ++ [c].
Proof.
  intros Hc. induction s as [|a r IH]; simpl.
  - by rewrite Hc.
  - rewrite IH. by destruct r.
Qed.

Lemma rstrip_by_fixed (p : ascii -> bool) (s : str) :
  (forall c, last s = Some c -> p c = false) -> rstrip_by p s = s.
Proof.
  destruct s as [|a s] using rev_ind; [done|].
  intros H. apply rstrip_by_keep, H. by rewrite last_snoc.
Qed.

Lemma rstrip_by_idem (p : ascii -> bool) (s : str) :
  rstrip_by p (rstrip_by p s) = rstrip_by p s.
Proof. apply rstrip_by_fixed, rstrip_by_last. Qed.

Lemma last_app_nonempty (s t : str) : t <> [] -> last (s ++ t) = last t.
Proof.
  intros Ht. destruct t as [|c t] using rev_ind; [done|].
  by rewrite app_assoc, !last_snoc.
Qed.

Lemma char_in_slash (c : ascii) : char_in "/" c = false <-> c <> "/"%char.
Proof.
  unfold char_in. rewrite bool_decide_eq_false. simpl.
  rewrite list_elem_of_singleton. done.
Qed.

Lemma rstrip_slash_fixed (s : str) :
  last s <> Some "/"%char -> rstrip "/" s = s.
Proof.
  intros H. apply rstrip_by_fixed. intros c Hc. apply char_in_slash.
  intros ->. done.
Qed.

Lemma rstrip_slash_last (s : str) : last (rstrip "/" s) <> Some "/"%char.
Proof.
  intros H. apply rstrip_by_last in H. by apply char_in_slash in H.
Qed.

Lemma contains_nonempty (sub s : str) :
  sub <> [] -> contains sub s = true -> s <> [].
Proof. intros Hs H ->. destruct sub; [done|]. simpl in H. done. Qed.
(* ===================================================================== *)
(** ** Endpoint generator: properties *)
(* ===================================================================== *)

Example ge1 : map string_of_list_ascii (Main.generate_endpoints " example.com/ ") =
  ["http://example.com"; "http://example.com:80"; "http://example.com:8080";
   "http://example.com:8000"; "http://example.com:8081"; "http://example.com:8443";
   "http://example.com:443"; "https://example.com"; "https://example.com:80";
   "https://example.com:8080"; "https://example.com:8000"; "https://example.com:8081";
   "https://example.com:8443"; "https://example.com:443"]%string.
Proof. vm_compute. reflexivity. Qed.

Example ge2 : map string_of_list_ascii (Main.generate_endpoints "https://h:8080/") =
  ["https://h:8080"; "http://h:8080"]%string.
Proof. vm_compute. reflexivity. Qed.

Example ge3 : map string_of_list_ascii (Main.generate_endpoints []) =
  ["http:"; "http://:80"; "http://:8080"; "http://:8000"; "http://:8081";
   "http://:8443"; "http://:443"; "https:"; "https://:80"; "https://:8080";
   "https://:8000"; "https://:8081"; "https://:8443"; "https://:443"]%string.
Proof. vm_compute. reflexivity. Qed.

(** The de-duplication loop keeps a list without repetitions as it is. *)
Lemma uniq_loop_acc (l acc : list str) (seen : gset str) :
  (forall x, x ∈ seen <-> x ∈ acc) ->
  NoDup l -> (forall x, x ∈ l -> x ∉ acc) ->
  (foldl uniq_step (seen, acc) l).2 = acc ++ l.
Proof.
  revert acc seen. induction l as [|u l IH]; intros acc seen Hs Hnd Hd; simpl.
  - by rewrite app_nil_r.
  - apply NoDup_cons in Hnd as [Hu Hnd].
    unfold uniq_step at 2. simpl.
    rewrite bool_decide_eq_false_2; last first.
    { rewrite Hs. apply Hd. left. }
    rewrite IH; [by rewrite <- app_assoc | | done |].
    + intros x. rewrite elem_of_union, elem_of_singleton, elem_of_app,
        list_elem_of_singleton, Hs. tauto.
    + intros x Hx. rewrite elem_of_app, list_elem_of_singleton.
      intros [Hacc | ->]; [|done]. eapply Hd; [right; exact Hx | done].
Qed.

Lemma uniq_loop_NoDup (l : list str) : NoDup l -> uniq_loop l = l.
Proof.
  intros H. unfold uniq_loop. rewrite uniq_loop_acc; try done.
  - intros x. rewrite elem_of_empty. split; [done|]. by intros ?%elem_of_nil.
  - intros x _ ?%elem_of_nil. done.
Qed.

(** *** The generator in terms of the trimmed address *)

Lemma find_sep_http (rest : str) :
  find_sep "://" (py "http://" ++ rest) = Some (py "http", rest).
Proof. reflexivity. Qed.

Lemma find_sep_https (rest : str) :
  find_sep "://" (py "https://" ++ rest) = Some (py "https", rest).
Proof. reflexivity. Qed.

Lemma generate_endpoints_unfold (addr : str) :
  Main.generate_endpoints addr =
  let s := trimmed addr in
  let host := host_portion s in
  let ports := if port_detected host then [[]] else common_ports in
  uniq_loop
    (flat_map (fun scheme : str =>
       map (fun p : str => rstrip "/" (scheme ++ py "://" ++ host ++ p)) ports)
       [given_scheme s; other_scheme (given_scheme s)]).
Proof.
  unfold Main.generate_endpoints. fold (trimmed addr).
  generalize (trimmed addr). intros s. cbv zeta.
  unfold host_portion, given_scheme.
  destruct (startswith "http://" s) eqn:H1.
  - apply startswith_drop in H1.
    assert (Hs : find_sep "://" s = Some (py "http", drop 7 s))
      by (rewrite H1 at 1; apply find_sep_http).
    unfold split1. rewrite Hs. reflexivity.
  - destruct (startswith "https://" s) eqn:H2; [|reflexivity].
    apply startswith_drop in H2.
    assert (Hs : find_sep "://" s = Some (py "https", drop 8 s))
      by (rewrite H2 at 1; apply find_sep_https).
    unfold split1. rewrite Hs. reflexivity.
Qed.

Lemma last_drop_nonempty (n : nat) (s : str) :
  drop n s <> [] -> last (drop n s) = last s.
Proof.
  intros H. rewrite <- (take_drop n s) at 2. by rewrite last_app_nonempty.
Qed.

Lemma host_portion_last (s : str) :
  host_portion s <> [] -> last (host_portion s) = last s.
Proof.
  unfold host_portion.
  destruct (startswith "http://" s); [apply last_drop_nonempty|].
  destruct (startswith "https://" s); [apply last_drop_nonempty|done].
Qed.

Lemma candidate_fixed (scheme host p : str) :
  host <> [] -> last host <> Some "/"%char -> last p <> Some "/"%char ->
  rstrip "/" (scheme ++ py "://" ++ host ++ p) = scheme ++ py "://" ++ host ++ p.
Proof.
  intros Hh Hl Hp. apply rstrip_slash_fixed.
  rewrite !app_assoc.
  destruct (decide (p = [])) as [->|Hne].
  - rewrite app_nil_r, last_app_nonempty; done.
  - rewrite last_app_nonempty; done.
Qed.

Lemma scheme_variants_differ (s host p q : str) :
  given_scheme s ++ py "://" ++ host ++ p <>
  other_scheme (given_scheme s) ++ py "://" ++ host ++ q.
Proof.
  unfold given_scheme, other_scheme.
  destruct (startswith "http://" s); [done|].
  destruct (startswith "https://" s); done.
Qed.

Lemma common_ports_NoDup : NoDup common_ports.
Proof. apply (bool_decide_unpack _). vm_compute. exact I. Qed.

Lemma common_ports_last (p : str) : p ∈ common_ports -> last p <> Some "/"%char.
Proof.
  unfold common_ports. rewrite !elem_of_cons, elem_of_nil.
  intros H. repeat (destruct H as [->|H]; [done|]). done.
Qed.

Lemma cross_NoDup (host : str) : NoDup (cross host).
Proof.
  unfold cross. cbn [flat_map]. rewrite app_nil_r. apply NoDup_app. split; [|split].
  - apply NoDup_fmap_2; [|apply common_ports_NoDup]. intros p q Hpq.
    by simplify_list_eq.
  - intros x [p [-> _]]%list_elem_of_fmap [q [Hq _]]%list_elem_of_fmap. done.
  - apply NoDup_fmap_2; [|apply common_ports_NoDup]. intros p q Hpq.
    by simplify_list_eq.
Qed.

Lemma cross_length (host : str) : length (cross host) = 14.
Proof. reflexivity. Qed.

Lemma cross_fixed (host : str) :
  host <> [] -> last host <> Some "/"%char ->
  map (rstrip "/") (cross host) = cross host.
Proof.
  intros Hh Hl. unfold cross. cbn [flat_map]. rewrite app_nil_r, map_app, !map_map.
  f_equal; apply map_ext_in; intros p Hp%list_elem_of_In%common_ports_last;
    apply (candidate_fixed _ host p); done.
Qed.

Lemma candidates_as_map (host : str) (a b : str) :
  flat_map (fun scheme : str =>
    map (fun p : str => rstrip "/" (scheme ++ py "://" ++ host ++ p)) common_ports)
    [a; b] =
  map (rstrip "/")
    (flat_map (fun scheme : str =>
       map (fun p : str => scheme ++ py "://" ++ host ++ p) common_ports) [a; b]).
Proof. cbn [flat_map]. by rewrite !app_nil_r, map_app, !map_map. Qed.

Lemma cross_empty_NoDup : NoDup (map (rstrip "/") (cross [])).
Proof. apply (bool_decide_unpack _). vm_compute. exact I. Qed.

Lemma no_scheme_host (s : str) :
  has_http_scheme s = false ->
  host_portion s = s /\ given_scheme s = py "http".
Proof.
  unfold has_http_scheme, host_portion, given_scheme.
  intros [-> ->]%orb_false_iff. done.
Qed.

(** C5 (as amended): an address whose trimmed form does not begin with
    [http://] or [https://], and in which the generator's port test finds no
    port (no colon, or a leading bracket), yields exactly the 14 candidates of
    both schemes crossed with the seven port variants, in that order, without
    duplicates and without trailing slashes. *)
Theorem generate_endpoints_fourteen (addr : str) :
  has_http_scheme (trimmed addr) = false ->
  port_detected (trimmed addr) = false ->
  Main.generate_endpoints addr = map (rstrip "/") (cross (trimmed addr))
  /\ (trimmed addr <> [] -> Main.generate_endpoints addr = cross (trimmed addr))
  /\ length (Main.generate_endpoints addr) = 14
  /\ NoDup (Main.generate_endpoints addr)
  /\ Forall (fun u => ends_with_slash u = false) (Main.generate_endpoints addr).
Proof.
  intros Hscheme Hport.
  assert (Hfixed : trimmed addr <> [] ->
            map (rstrip "/") (cross (trimmed addr)) = cross (trimmed addr)).
  { intros Hne. apply cross_fixed; [done|]. apply rstrip_slash_last. }
  assert (Hnd : NoDup (map (rstrip "/") (cross (trimmed addr)))).
  { destruct (decide (trimmed addr = [])) as [->|Hne].
    - apply cross_empty_NoDup.
    - rewrite Hfixed by done. apply cross_NoDup. }
  assert (Hgen : Main.generate_endpoints addr =
                 map (rstrip "/") (cross (trimmed addr))).
  { rewrite generate_endpoints_unfold. cbv zeta.
    destruct (no_scheme_host _ Hscheme) as [-> ->]. rewrite Hport.
    change (other_scheme (py "http")) with (py "https").
    rewrite candidates_as_map. fold (cross (trimmed addr)).
    by apply uniq_loop_NoDup. }
  rewrite Hgen. split; [done|]. split; [exact Hfixed|].
  split; [by rewrite length_map|]. split; [done|].
  apply Forall_forall. intros u [x [-> _]]%list_elem_of_fmap.
  unfold ends_with_slash. apply bool_decide_eq_false_2, rstrip_slash_last.
Qed.

Lemma generate_endpoints_fourteen_witness :
  length (Main.generate_endpoints "example.com") = 14
  /\ NoDup (Main.generate_endpoints "example.com").
Proof.
  pose proof (generate_endpoints_fourteen "example.com" eq_refl eq_refl) as H.
  split; apply H.
Defined.

(** C5 as the specification words it fails on an address that carries a
    colon which is not a port: the user-info form has neither a scheme nor a
    port, and the generator answers with two candidates. *)
Lemma generate_endpoints_fourteen_counterexample :
  explicit_scheme "user:pw@example.com" = false
  /\ explicit_port "user:pw@example.com" = false
  /\ Main.generate_endpoints "user:pw@example.com" =
       [py "http://user:pw@example.com"; py "https://user:pw@example.com"]
  /\ length (Main.generate_endpoints "user:pw@example.com") <> 14.
Proof. repeat split; try reflexivity. vm_compute. discriminate. Qed.

(** C6 (as amended): when the host portion contains a colon and does not
    begin with a bracket, the generator returns exactly two candidates, the
    given scheme and the other one against that host, with no port appended. *)
Theorem generate_endpoints_two (addr : str) :
  port_detected (host_portion (trimmed addr)) = true ->
  Main.generate_endpoints addr =
    [given_scheme (trimmed addr) ++ py "://" ++ host_portion (trimmed addr);
     other_scheme (given_scheme (trimmed addr)) ++ py "://"
       ++ host_portion (trimmed addr)]
  /\ length (Main.generate_endpoints addr) = 2.
Proof.
  intros Hport. rewrite generate_endpoints_unfold. cbv zeta. rewrite Hport.
  cbn [flat_map map]. rewrite !app_nil_r.
  assert (Hne : host_portion (trimmed addr) <> []).
  { apply andb_true_iff in Hport as [Hc _].
    by apply (contains_nonempty ":"). }
  assert (Hl : last (host_portion (trimmed addr)) <> Some "/"%char).
  { rewrite host_portion_last by done. apply rstrip_slash_last. }
  pose proof (candidate_fixed (given_scheme (trimmed addr)) _ [] Hne Hl) as H1.
  pose proof (candidate_fixed (other_scheme (given_scheme (trimmed addr))) _ []
                Hne Hl) as H2.
  rewrite !app_nil_r in H1, H2. rewrite H1, H2 by done.
  rewrite uniq_loop_NoDup; [done|].
  apply NoDup_cons. split; [|apply NoDup_singleton].
  rewrite list_elem_of_singleton.
  pose proof (scheme_variants_differ (trimmed addr)
                (host_portion (trimmed addr)) [] []) as Hd.
  by rewrite !app_nil_r in Hd.
Qed.

Lemma generate_endpoints_two_witness :
  Main.generate_endpoints "https://example.com:8080/" =
    [py "https://example.com:8080"; py "http://example.com:8080"].
Proof.
  exact (proj1 (generate_endpoints_two "https://example.com:8080/" eq_refl)).
Defined.

(** C6 as the specification words it fails on a bracketed host: the address
    has an explicit port, the bracket guard of the port test skips it, and the
    seven port variants are appended to the host and its port. *)
Lemma generate_endpoints_two_counterexample :
  explicit_port "[::1]:8080" = true
  /\ length (Main.generate_endpoints "[::1]:8080") = 14
  /\ py "http://[::1]:8080:80" ∈ Main.generate_endpoints "[::1]:8080"
  /\ length (Main.generate_endpoints "[::1]:8080") <> 2.
Proof.
  split; [reflexivity|]. split; [reflexivity|]. split.
  - apply (bool_decide_unpack _). vm_compute. exact I.
  - vm_compute. discriminate.
Qed.

(** C9: the generators of main.py and xtream.py return the same candidate
    list for every address. *)
Theorem generate_endpoints_same (addr : str) :
  Main.generate_endpoints addr = Xtream.generate_endpoints addr.
Proof.
  unfold Main.generate_endpoints, Xtream.generate_endpoints. reflexivity.
Qed.
(* ===================================================================== *)
(** ** Playlist codec: the loops unfolded *)
(* ===================================================================== *)

Lemma findall_attrs_cons (c : ascii) (r : str) :
  findall_attrs (c :: r) =
  match attr_at (c :: r) with
  | Some (k, v, rest) => (k, v) :: findall_attrs rest
  | None => findall_attrs r
  end.
Proof.
  simp findall_attrs.
  destruct (inspect (attr_at (c :: r))) as [[[[k v] rest]|] e];
    simp findall_attrs; rewrite e; reflexivity.
Qed.

Lemma parse_loop_body (lines : list str) (i : nat) (channels : list channel) :
  parse_loop lines i channels =
  if i <? length lines then
    let ln := strip (nth i lines []) in
    if bool_decide (ln = []) then parse_loop lines (i + 1) channels
    else if startswith "#EXTINF" (upper ln) then
      parse_loop lines ((scan_url lines (i + 1)).2 + 1)
        (channels ++ [make_channel ln (scan_url lines (i + 1)).1])
    else parse_loop lines (i + 1) channels
  else channels.
Proof.
  simp parse_loop.
  destruct (inspect (i <? length lines)) as [[] e];
    simp parse_loop; rewrite e; reflexivity.
Qed.

Lemma scan_url_from_shift (rest : list str) (j : nat) :
  scan_url_from rest j = ((scan_url_from rest 0).1, (scan_url_from rest 0).2 + j).
Proof.
  revert j. induction rest as [|l rest IH]; intros j; simpl; [done|].
  destruct (_ || _); [|by f_equal].
  rewrite (IH (j + 1)), (IH 1). simpl. f_equal. lia.
Qed.

Lemma scan_url_from_bound (rest : list str) :
  (scan_url_from rest 0).2 <= length rest.
Proof.
  induction rest as [|l rest IH]; simpl; [lia|].
  destruct (_ || _); simpl; [|lia].
  rewrite scan_url_from_shift. simpl. lia.
Qed.

Lemma url_after_cons (l : str) (rest : list str) :
  url_after (l :: rest) = if passed_over l then url_after rest else strip l.
Proof.
  unfold url_after, passed_over. simpl. destruct (_ || _); [|done].
  by rewrite scan_url_from_shift.
Qed.

Lemma skip_url_cons (l : str) (rest : list str) :
  skip_url (l :: rest) = if passed_over l then skip_url rest else rest.
Proof.
  unfold skip_url, passed_over. simpl. destruct (_ || _); [|done].
  rewrite scan_url_from_shift. simpl.
  by replace ((scan_url_from rest 0).2 + 1 + 1) with (S ((scan_url_from rest 0).2 + 1)) by lia.
Qed.

Lemma skip_url_length (rest : list str) : length (skip_url rest) <= length rest.
Proof. unfold skip_url. rewrite length_drop. lia. Qed.

(** The outer loop only looks at [lines[i:]]. *)
Lemma parse_loop_shift (n : nat) (lines : list str) (i : nat) (acc : list channel) :
  length lines - i <= n ->
  parse_loop lines i acc = parse_loop (drop i lines) 0 acc.
Proof.
  revert lines i acc. induction n as [|n IH]; intros lines i acc Hn.
  - rewrite (parse_loop_body lines), (parse_loop_body (drop i lines)).
    rewrite length_drop.
    destruct (Nat.ltb_spec i (length lines)); [lia|].
    destruct (Nat.ltb_spec 0 (length lines - i)); [lia|done].
  - rewrite (parse_loop_body lines), (parse_loop_body (drop i lines)).
    rewrite length_drop.
    destruct (Nat.ltb_spec i (length lines)) as [Hi|Hi];
      destruct (Nat.ltb_spec 0 (length lines - i)); try lia; [|done].
    assert (Hnth : nth 0 (drop i lines) [] = nth i lines []).
    { rewrite !nth_lookup, lookup_drop. by rewrite Nat.add_0_r. }
    rewrite Hnth. cbv zeta.
    assert (Hnext : parse_loop lines (i + 1) acc
                    = parse_loop (drop i lines) (0 + 1) acc).
    { rewrite (IH lines (i + 1)) by lia.
      rewrite (IH (drop i lines) (0 + 1)) by (rewrite length_drop; lia).
      rewrite drop_drop. done. }
    destruct (bool_decide _); [exact Hnext|].
    destruct (startswith _ _); [|exact Hnext].
    unfold scan_url. rewrite drop_drop.
    rewrite (scan_url_from_shift _ (i + 1)), (scan_url_from_shift _ (0 + 1)).
    simpl fst. simpl snd.
    pose proof (scan_url_from_bound (drop (i + 1) lines)) as Hb.
    rewrite length_drop in Hb.
    rewrite (IH lines) by lia.
    rewrite (IH (drop i lines)) by (rewrite length_drop; lia).
    rewrite drop_drop. do 2 f_equal. lia.
Qed.

Lemma parse_loop_nil (acc : list channel) : parse_loop [] 0 acc = acc.
Proof. by rewrite parse_loop_body. Qed.

Lemma parse_loop_cons (l : str) (rest : list str) (acc : list channel) :
  parse_loop (l :: rest) 0 acc =
  if bool_decide (strip l = []) then parse_loop rest 0 acc
  else if is_extinf l then
    parse_loop (skip_url rest) 0 (acc ++ [make_channel (strip l) (url_after rest)])
  else parse_loop rest 0 acc.
Proof.
  rewrite parse_loop_body.
  change (0 <? length (l :: rest)) with true.
  change (nth 0 (l :: rest) []) with l. cbv iota zeta.
  assert (Hnext : parse_loop (l :: rest) (0 + 1) acc = parse_loop rest 0 acc).
  { by rewrite (parse_loop_shift (S (length rest))) by (simpl; lia). }
  destruct (bool_decide (strip l = [])); [exact Hnext|].
  unfold is_extinf. destruct (startswith _ (upper (strip l))); [|exact Hnext].
  unfold scan_url. change (drop (0 + 1) (l :: rest)) with rest.
  rewrite scan_url_from_shift. simpl fst. simpl snd.
  rewrite (parse_loop_shift (S (length rest))) by (simpl; lia).
  unfold skip_url, url_after.
  by replace ((scan_url_from rest 0).2 + 1 + 1)
    with (S ((scan_url_from rest 0).2 + 1)) by lia.
Qed.

Lemma parse_loop_acc (n : nat) (lines : list str) (acc : list channel) :
  length lines <= n -> parse_loop lines 0 acc = acc ++ parse_lines lines.
Proof.
  unfold parse_lines. revert lines acc.
  induction n as [|n IH]; intros [|l rest] acc Hn; simpl in Hn; try lia.
  - by rewrite !parse_loop_nil, app_nil_r.
  - by rewrite !parse_loop_nil, app_nil_r.
  - rewrite !(parse_loop_cons l).
    destruct (bool_decide _); [apply IH; lia|].
    destruct (is_extinf l); [|apply IH; lia].
    pose proof (skip_url_length rest).
    rewrite (IH _ (acc ++ _)) by lia. rewrite (IH _ ([] ++ _)) by lia.
    by rewrite <- app_assoc.
Qed.

(** The parser as a function of the remaining lines. *)
Lemma parse_lines_nil : parse_lines [] = [].
Proof. apply parse_loop_nil. Qed.

Lemma parse_lines_cons (l : str) (rest : list str) :
  parse_lines (l :: rest) =
  if bool_decide (strip l = []) then parse_lines rest
  else if is_extinf l then
    make_channel (strip l) (url_after rest) :: parse_lines (skip_url rest)
  else parse_lines rest.
Proof.
  unfold parse_lines at 1. rewrite parse_loop_cons.
  destruct (bool_decide _); [done|]. destruct (is_extinf l); [|done].
  by rewrite (parse_loop_acc (length (skip_url rest))).
Qed.
(* ===================================================================== *)
(** ** Stripping and line splitting *)
(* ===================================================================== *)

Lemma lstrip_by_Forall (P : ascii -> Prop) (p : ascii -> bool) (s : str) :
  Forall P s -> Forall P (lstrip_by p s).
Proof.
  induction 1 as [|c r Hc Hr IH]; simpl; [constructor|].
  destruct (p c); [done|by constructor].
Qed.

Lemma rstrip_by_Forall (P : ascii -> Prop) (p : ascii -> bool) (s : str) :
  Forall P s -> Forall P (rstrip_by p s).
Proof.
  induction 1 as [|c r Hc Hr IH]; simpl; [constructor|].
  destruct (rstrip_by p r); [destruct (p c); repeat constructor; done|].
  by constructor.
Qed.

Lemma strip_Forall (P : ascii -> Prop) (s : str) : Forall P s -> Forall P (strip s).
Proof. intros H. by apply rstrip_by_Forall, lstrip_by_Forall. Qed.

Lemma lstrip_by_head (p : ascii -> bool) (s : str) (c : ascii) (r : str) :
  lstrip_by p s = c :: r -> p c = false.
Proof.
  induction s as [|a s IH]; simpl; [done|].
  destruct (p a) eqn:Ha; [done|]. by intros [= <- _].
Qed.

Lemma lstrip_by_fixed (p : ascii -> bool) (c : ascii) (r : str) :
  p c = false -> lstrip_by p (c :: r) = c :: r.
Proof. intros H. simpl. by rewrite H. Qed.

Lemma rstrip_by_head (p : ascii -> bool) (c : ascii) (r : str) :
  p c = false -> exists r', rstrip_by p (c :: r) = c :: r'.
Proof.
  intros H. simpl. destruct (rstrip_by p r); [|by eexists].
  rewrite H. by eexists.
Qed.

Lemma strip_head (s : str) (c : ascii) (r : str) :
  strip s = c :: r -> is_space c = false.
Proof.
  unfold strip. destruct (lstrip_by is_space s) as [|a t] eqn:E; [done|].
  apply lstrip_by_head in E.
  destruct (rstrip_by_head is_space a t E) as [r' ->]. by intros [= <- _].
Qed.

Lemma strip_last (s : str) (c : ascii) :
  last (strip s) = Some c -> is_space c = false.
Proof. apply rstrip_by_last. Qed.

Lemma strip_fixed (s : str) :
  (forall c, head s = Some c -> is_space c = false) ->
  (forall c, last s = Some c -> is_space c = false) ->
  strip s = s.
Proof.
  intros Hh Hl. unfold strip. destruct s as [|a t]; [done|].
  rewrite lstrip_by_fixed by (by apply Hh). by apply rstrip_by_fixed.
Qed.

Lemma strip_idem (s : str) : strip (strip s) = strip s.
Proof.
  apply strip_fixed.
  - destruct (strip s) as [|c r] eqn:E; [done|]. intros c' [= <-].
    by apply strip_head in E.
  - apply strip_last.
Qed.

Lemma LF_linebreak : is_linebreak LF = true.
Proof. reflexivity. Qed.

Lemma no_linebreak_not_LF (s : str) : no_linebreak s -> LF ∉ s.
Proof.
  intros H Hin. unfold no_linebreak in H. rewrite Forall_forall in H.
  apply H in Hin. by rewrite LF_linebreak in Hin.
Qed.

Lemma rstrip_LF_fixed (s : str) : no_linebreak s -> rstrip [LF] s = s.
Proof.
  intros H. apply rstrip_by_fixed. intros c Hc.
  unfold char_in. apply bool_decide_eq_false_2. rewrite list_elem_of_singleton.
  intros ->. apply (no_linebreak_not_LF s H).
  apply last_Some_elem_of in Hc. done.
Qed.

(** *** [splitlines] *)

Lemma splitlines_from_line (cur l rest : str) :
  no_linebreak l ->
  splitlines_from cur (l ++ LF :: rest) = (cur ++ l) :: splitlines_from [] rest.
Proof.
  intros Hl. revert cur. induction Hl as [|c l Hc Hl IH]; intros cur; simpl.
  - rewrite app_nil_r. by destruct rest.
  - rewrite Hc, IH, <- app_assoc. done.
Qed.

Lemma splitlines_unlines (ls : list str) :
  Forall no_linebreak ls -> splitlines (unlines ls) = ls.
Proof.
  unfold splitlines, unlines.
  induction 1 as [|l ls Hl Hls IH]; cbn [map concat]; [done|].
  unfold newline at 1. rewrite <- app_assoc. cbn [app].
  rewrite splitlines_from_line by done. by rewrite IH.
Qed.

Lemma splitlines_from_no_linebreak (cur s : str) :
  no_linebreak cur -> Forall no_linebreak (splitlines_from cur s).
Proof.
  remember (length s) as n eqn:Hn. revert cur s Hn.
  induction (lt_wf n) as [n _ IH]. intros cur s -> Hcur.
  destruct s as [|c r]; simpl.
  - destruct cur; [apply Forall_nil_2|apply Forall_cons_2; [done|apply Forall_nil_2]].
  - destruct (is_linebreak c) eqn:Hc.
    + apply Forall_cons_2; [done|].
      destruct r as [|c2 r2]; [apply Forall_nil_2|].
      destruct (_ && _).
      * eapply (IH (length r2)); [simpl; lia|done|apply Forall_nil_2].
      * eapply (IH (length (c2 :: r2))); [simpl; lia|done|apply Forall_nil_2].
    + eapply (IH (length r)); [simpl; lia|done|].
      apply Forall_app. split; [done|].
      apply Forall_cons_2; [done|apply Forall_nil_2].
Qed.

Lemma splitlines_no_linebreak (s : str) : Forall no_linebreak (splitlines s).
Proof. apply splitlines_from_no_linebreak. constructor. Qed.

(** The lines the parser works on are the lines of [splitlines]. *)
Lemma parse_m3u_to_json_lines (text : str) :
  parse_m3u_to_json text = parse_lines (splitlines text).
Proof.
  unfold parse_m3u_to_json, parse_lines. f_equal.
  rewrite <- (map_id (splitlines text)) at 2. apply map_ext_in.
  intros l Hl. apply rstrip_LF_fixed.
  pose proof (splitlines_no_linebreak text) as H.
  rewrite Forall_forall in H. apply H. by apply list_elem_of_In.
Qed.

(** *** The text written by [create_m3u_from_channels] *)

Lemma m3u_text_of_unlines (channels : list channel) :
  m3u_text_of channels = unlines (py "#EXTM3U" :: flat_map channel_lines channels).
Proof.
  unfold m3u_text_of.
  assert (H : forall acc,
    foldl (fun fh ch => (fh ++ (build_extinf_line ch ++ newline))
                          ++ (or_empty (url ch) ++ newline)) acc channels
    = acc ++ unlines (flat_map channel_lines channels)).
  { induction channels as [|ch cs IH]; intros acc; simpl.
    - by rewrite app_nil_r.
    - rewrite IH. unfold unlines. simpl. by rewrite <- !app_assoc. }
  rewrite H. unfold unlines. simpl. by rewrite <- ?app_assoc.
Qed.
(* ===================================================================== *)
(** ** The regular expressions of the parser *)
(* ===================================================================== *)

Lemma take_by_Forall (p : ascii -> bool) (s : str) :
  Forall (fun c => p c = true) (take_by p s).
Proof.
  induction s as [|c r IH]; simpl; [constructor|].
  destruct (p c) eqn:Hc; by constructor.
Qed.

Lemma take_by_app (p : ascii -> bool) (d rest : str) :
  Forall (fun c => p c = true) d ->
  (forall c, head rest = Some c -> p c = false) ->
  take_by p (d ++ rest) = d.
Proof.
  intros Hd Hr. induction Hd as [|c d Hc Hd IH]; simpl.
  - destruct rest as [|c r]; [done|]. simpl. by rewrite (Hr c).
  - by rewrite Hc, IH.
Qed.

Lemma lstrip_by_app (p : ascii -> bool) (d rest : str) :
  Forall (fun c => p c = true) d ->
  (forall c, head rest = Some c -> p c = false) ->
  lstrip_by p (d ++ rest) = rest.
Proof.
  intros Hd Hr. induction Hd as [|c d Hc Hd IH]; simpl.
  - destruct rest as [|c r]; [done|]. simpl. by rewrite (Hr c).
  - by rewrite Hc, IH.
Qed.

Lemma take_lstrip_by (p : ascii -> bool) (s : str) :
  s = take_by p s ++ lstrip_by p s.
Proof.
  induction s as [|c r IH]; simpl; [done|].
  destruct (p c); simpl; [by rewrite <- IH|done].
Qed.

Lemma lstrip_by_elem (p : ascii -> bool) (s : str) (c : ascii) :
  c ∈ lstrip_by p s -> c ∈ s.
Proof.
  induction s as [|a r IH]; simpl; [done|].
  destruct (p a); [|done]. intros H. right. by apply IH.
Qed.

(** Stripping on the left stops inside [pre] when [pre] has a character
    that is kept. *)
Lemma lstrip_by_stops (p : ascii -> bool) (pre s : str) :
  (exists c, c ∈ pre /\ p c = false) ->
  exists x t, lstrip_by p (pre ++ s) = x :: t /\ x ∈ pre /\ p x = false.
Proof.
  induction pre as [|a pre IH]; intros [c [Hin Hc]].
  - by apply elem_of_nil in Hin.
  - simpl. destruct (p a) eqn:Ha.
    + apply elem_of_cons in Hin as [->|Hin]; [congruence|].
      destruct IH as (x & t & -> & Hx & Hpx); [by exists c|].
      exists x, t. split; [done|]. split; [by right|done].
    + exists a, (pre ++ s). split; [done|]. split; [left|done].
Qed.

(** *** Splitting at the first comma *)

Lemma find_sep_char (c : ascii) (a b : str) :
  c ∉ a -> find_sep [c] (a ++ c :: b) = Some (a, b).
Proof.
  induction a as [|x a IH]; intros Hc; simpl.
  - rewrite bool_decide_eq_true_2 by done. simpl. done.
  - apply not_elem_of_cons in Hc as [Hx Ha].
    rewrite bool_decide_eq_false_2 by done. simpl. by rewrite IH.
Qed.

Lemma find_sep_char_inv (c : ascii) (s a b : str) :
  find_sep [c] s = Some (a, b) -> s = a ++ c :: b /\ (c ∉ a).
Proof.
  revert a. induction s as [|x s IH]; intros a; simpl; [done|].
  destruct (bool_decide (c = x)) eqn:E; simpl.
  - apply bool_decide_eq_true_1 in E as <-. intros [= <- <-].
    split; [done|]. apply not_elem_of_nil.
  - apply bool_decide_eq_false_1 in E.
    destruct (find_sep [c] s) as [[a' b']|] eqn:F; [|done].
    intros [= <- <-]. destruct (IH _ eq_refl) as [-> Hc].
    split; [done|]. apply not_elem_of_cons. done.
Qed.

Lemma find_sep_char_none (c : ascii) (s : str) :
  find_sep [c] s = None -> c ∉ s.
Proof.
  induction s as [|x s IH]; simpl; [intros _; apply not_elem_of_nil|].
  destruct (bool_decide (c = x)) eqn:E; simpl; [done|].
  apply bool_decide_eq_false_1 in E.
  destruct (find_sep [c] s) as [[a' b']|]; [done|].
  intros _. apply not_elem_of_cons. auto.
Qed.

(** *** The quoted value *)

Lemma find_quote_app (v rest : str) :
  dquote ∉ v -> LF ∉ v -> find_quote (v ++ dquote :: rest) = Some (v, rest).
Proof.
  induction v as [|x v IH]; intros Hq Hn; cbn [app find_quote].
  - by rewrite bool_decide_eq_true_2.
  - apply not_elem_of_cons in Hq as [Hq1 Hq2].
    apply not_elem_of_cons in Hn as [Hn1 Hn2].
    rewrite !bool_decide_eq_false_2 by done. by rewrite IH.
Qed.

Lemma find_quote_inv (s v r : str) :
  find_quote s = Some (v, r) ->
  s = v ++ dquote :: r /\ (dquote ∉ v) /\ (LF ∉ v).
Proof.
  revert v. induction s as [|x s IH]; intros v; cbn [find_quote]; [done|].
  destruct (bool_decide (x = dquote)) eqn:E.
  - apply bool_decide_eq_true_1 in E as ->. intros [= <- <-].
    split; [done|]. split; apply not_elem_of_nil.
  - apply bool_decide_eq_false_1 in E.
    destruct (bool_decide (x = LF)) eqn:E2; [done|].
    apply bool_decide_eq_false_1 in E2.
    destruct (find_quote s) as [[v' r']|] eqn:F; [|done].
    intros [= <- <-]. destruct (IH _ eq_refl) as (-> & Hq & Hn).
    split; [done|]. split; apply not_elem_of_cons; auto.
Qed.

(** *** One attribute *)

Lemma attr_at_inv (s k v rest : str) :
  attr_at s = Some (k, v, rest) ->
  s = k ++ eq_char :: dquote :: v ++ dquote :: rest
  /\ k <> [] /\ Forall (fun c => is_key_char c = true) k
  /\ (dquote ∉ v) /\ (LF ∉ v).
Proof.
  unfold attr_at. intros H.
  pose proof (take_lstrip_by is_key_char s) as Hs.
  pose proof (take_by_Forall is_key_char s) as Hk.
  destruct (take_by is_key_char s) as [|k0 k1] eqn:Ek; [done|].
  destruct (lstrip_by is_key_char s) as [|c1 [|c2 r2]] eqn:El; [done..|].
  destruct (bool_decide (c1 = eq_char)) eqn:E1; [|done].
  destruct (bool_decide (c2 = dquote)) eqn:E2; [|done].
  apply bool_decide_eq_true_1 in E1 as ->.
  apply bool_decide_eq_true_1 in E2 as ->. simpl in H.
  destruct (find_quote r2) as [[v' r3]|] eqn:F; [|done].
  injection H as <- <- <-.
  apply find_quote_inv in F as (-> & Hq & Hn).
  repeat split; done.
Qed.

Lemma eq_not_key : is_key_char eq_char = false.
Proof. reflexivity. Qed.

Lemma attr_at_app (k v rest : str) :
  k <> [] -> Forall (fun c => is_key_char c = true) k ->
  dquote ∉ v -> LF ∉ v ->
  attr_at (k ++ eq_char :: dquote :: v ++ dquote :: rest) = Some (k, v, rest).
Proof.
  intros Hne Hk Hq Hn. unfold attr_at.
  rewrite take_by_app, lstrip_by_app; try done.
  - destruct k; [done|].
    rewrite !bool_decide_eq_true_2 by done. simpl.
    by rewrite find_quote_app.
  - by intros c [= <-].
  - by intros c [= <-].
Qed.

(** No match starts inside a prefix that has no equals sign and ends in a
    character outside the key class. *)
Lemma attr_at_prefix (pre s : str) :
  eq_char ∉ pre -> (exists c, c ∈ pre /\ is_key_char c = false) ->
  attr_at (pre ++ s) = None.
Proof.
  intros Heq Hex. unfold attr_at.
  destruct (lstrip_by_stops is_key_char pre s Hex) as (x & t & -> & Hx & Hpx).
  destruct (take_by is_key_char (pre ++ s)); [done|].
  destruct t as [|c2 r2]; [done|].
  rewrite (bool_decide_eq_false_2 (x = eq_char)); [done|].
  intros ->. done.
Qed.

Lemma attr_at_no_eq (s : str) : eq_char ∉ s -> attr_at s = None.
Proof.
  intros Heq. unfold attr_at.
  destruct (take_by is_key_char s); [done|].
  destruct (lstrip_by is_key_char s) as [|c1 [|c2 r2]] eqn:El; [done..|].
  rewrite (bool_decide_eq_false_2 (c1 = eq_char)); [done|].
  intros ->. apply Heq. apply (lstrip_by_elem is_key_char). rewrite El. left.
Qed.

(** *** All attributes *)

Lemma findall_attrs_nil : findall_attrs [] = [].
Proof. by simp findall_attrs. Qed.

Lemma findall_attrs_no_eq (s : str) : eq_char ∉ s -> findall_attrs s = [].
Proof.
  induction s as [|c r IH]; intros Heq; [apply findall_attrs_nil|].
  rewrite findall_attrs_cons, attr_at_no_eq by done.
  apply IH. by apply not_elem_of_cons in Heq as [_ ?].
Qed.

Lemma findall_attrs_prefix (pre s : str) :
  eq_char ∉ pre ->
  (forall c, last pre = Some c -> is_key_char c = false) ->
  findall_attrs (pre ++ s) = findall_attrs s.
Proof.
  induction pre as [|a pre IH]; intros Heq Hl; [done|].
  change ((a :: pre) ++ s) with (a :: (pre ++ s)).
  rewrite findall_attrs_cons.
  change (a :: (pre ++ s)) with ((a :: pre) ++ s).
  rewrite attr_at_prefix; [| done |].
  - apply IH; [by apply not_elem_of_cons in Heq as [_ ?]|].
    intros c Hc. apply Hl. destruct pre; [done|]. done.
  - destruct (last (a :: pre)) as [c|] eqn:E.
    + exists c. split; [by apply last_Some_elem_of|by apply Hl].
    + by apply last_None in E.
Qed.

Lemma findall_attrs_match (k v rest : str) :
  k <> [] -> Forall (fun c => is_key_char c = true) k ->
  dquote ∉ v -> LF ∉ v ->
  findall_attrs (k ++ eq_char :: dquote :: v ++ dquote :: rest)
  = (k, v) :: findall_attrs rest.
Proof.
  intros Hne Hk Hq Hn.
  pose proof (attr_at_app k v rest Hne Hk Hq Hn) as H.
  destruct k as [|k0 k1]; [done|].
  change ((k0 :: k1) ++ ?x) with (k0 :: (k1 ++ x)) in *.
  by rewrite findall_attrs_cons, H.
Qed.

Lemma findall_attrs_found (s : str) : Forall (attr_found s) (findall_attrs s).
Proof.
  remember (length s) as n eqn:Hn. revert s Hn.
  induction (lt_wf n) as [n _ IH]. intros s ->.
  destruct s as [|c r]; [rewrite findall_attrs_nil; constructor|].
  rewrite findall_attrs_cons.
  destruct (attr_at (c :: r)) as [[[k v] rest]|] eqn:E.
  - apply attr_at_inv in E as (Hs & Hne & Hk & Hq & Hnl).
    constructor.
    + repeat split; try done. simpl. intros x Hx. rewrite Hs.
      rewrite elem_of_app. right. do 2 right. rewrite elem_of_app. by left.
    + assert (Hlen : length rest < length (c :: r)).
      { rewrite Hs. rewrite length_app. simpl. rewrite length_app. simpl. lia. }
      pose proof (IH _ Hlen rest eq_refl) as Hrest.
      eapply Forall_impl; [exact Hrest|].
      intros [k' v'] (H1 & H2 & H3 & H4 & H5). repeat split; try done.
      simpl in *. intros x Hx. apply H5 in Hx. rewrite Hs.
      rewrite elem_of_app. right. do 2 right. rewrite elem_of_app. right. by right.
  - assert (Hlen : length r < length (c :: r)) by (simpl; lia).
    pose proof (IH _ Hlen r eq_refl) as Hrest.
    eapply Forall_impl; [exact Hrest|].
    intros [k' v'] (H1 & H2 & H3 & H4 & H5). repeat split; try done.
    simpl in *. intros x Hx. right. by apply H5.
Qed.
(* ===================================================================== *)
(** ** Dictionaries in insertion order *)
(* ===================================================================== *)

Lemma dict_set_fresh (d : dict) (k v : str) :
  k ∉ map fst d -> dict_set d k v = d ++ [(k, v)].
Proof.
  induction d as [|[k' v'] d IH]; simpl; [done|].
  intros [Hk Hd]%not_elem_of_cons.
  rewrite bool_decide_eq_false_2 by done. by rewrite IH.
Qed.

Lemma dict_set_keys_NoDup (d : dict) (k v : str) :
  NoDup (map fst d) -> NoDup (map fst (dict_set d k v)).
Proof.
  intros Hd. destruct (decide (k ∈ map fst d)) as [Hin|Hout].
  - assert (H : map fst (dict_set d k v) = map fst d); [|by rewrite H].
    clear Hd. induction d as [|[k' v'] d IH]; simpl in *.
    + by apply elem_of_nil in Hin.
    + destruct (bool_decide (k' = k)) eqn:E; [done|].
      apply bool_decide_eq_false_1 in E. simpl. f_equal. apply IH.
      apply elem_of_cons in Hin as [->|Hin]; done.
  - rewrite dict_set_fresh by done. rewrite map_app. simpl.
    apply NoDup_app. split; [done|]. split; [|apply NoDup_singleton].
    intros x Hx ->%list_elem_of_singleton. done.
Qed.

Lemma dict_set_elem (d : dict) (k v : str) (kv : str * str) :
  kv ∈ dict_set d k v -> kv ∈ d \/ kv = (k, v).
Proof.
  induction d as [|[k' v'] d IH]; simpl.
  - intros ->%list_elem_of_singleton. by right.
  - destruct (bool_decide (k' = k)) eqn:E.
    + apply bool_decide_eq_true_1 in E as ->.
      intros [->|H]%elem_of_cons; [by right|]. left. by right.
    + intros [->|H]%elem_of_cons; [left; left|].
      destruct (IH H) as [?|?]; [left; by right|by right].
Qed.

Lemma dict_fold_NoDup (l : list (str * str)) (acc : dict) :
  NoDup (map fst acc) ->
  NoDup (map fst (foldl (fun d kv => dict_set d kv.1 kv.2) acc l)).
Proof.
  revert acc. induction l as [|kv l IH]; intros acc H; simpl; [done|].
  apply IH. by apply dict_set_keys_NoDup.
Qed.

Lemma dict_fold_elem (l : list (str * str)) (acc : dict) (kv : str * str) :
  kv ∈ foldl (fun d kv => dict_set d kv.1 kv.2) acc l -> kv ∈ acc \/ kv ∈ l.
Proof.
  revert acc. induction l as [|[k v] l IH]; intros acc; simpl; [by left|].
  intros H. destruct (IH _ H) as [H1|H1]; [|right; by right].
  destruct (dict_set_elem _ _ _ _ H1) as [H2|H2]; [by left|].
  rewrite H2. right. left.
Qed.

Lemma dict_fold_fresh (l : list (str * str)) (acc : dict) :
  NoDup (map fst (acc ++ l)) ->
  foldl (fun d kv => dict_set d kv.1 kv.2) acc l = acc ++ l.
Proof.
  revert acc. induction l as [|[k v] l IH]; intros acc H; simpl.
  - by rewrite app_nil_r.
  - rewrite map_app in H. simpl in H.
    rewrite dict_set_fresh.
    + rewrite IH; [by rewrite <- app_assoc|].
      rewrite <- app_assoc. simpl. by rewrite map_app.
    + apply NoDup_app in H as (_ & H & _). intros Hin. apply (H k Hin). left.
Qed.

Lemma dict_of_pairs_NoDup (l : list (str * str)) : NoDup (map fst (dict_of_pairs l)).
Proof. apply dict_fold_NoDup. constructor. Qed.

Lemma dict_of_pairs_elem (l : list (str * str)) (kv : str * str) :
  kv ∈ dict_of_pairs l -> kv ∈ l.
Proof.
  intros H. destruct (dict_fold_elem _ _ _ H) as [H1|H1]; [|done].
  by apply elem_of_nil in H1.
Qed.

(** [dict(pairs)] of pairs with distinct keys is the pairs themselves. *)
Lemma dict_of_pairs_id (l : list (str * str)) :
  NoDup (map fst l) -> dict_of_pairs l = l.
Proof. intros H. unfold dict_of_pairs. by rewrite dict_fold_fresh. Qed.
(* ===================================================================== *)
(** ** The line written by [build_extinf_line], parsed again *)
(* ===================================================================== *)

Lemma dur_char_facts (c : ascii) :
  is_dur_char c = true ->
  c <> eq_char /\ c <> comma /\ is_linebreak c = false.
Proof.
  destruct c as [[] [] [] [] [] [] [] []]; intros H;
    try discriminate H; repeat split; done.
Qed.

Lemma key_char_facts (c : ascii) :
  is_key_char c = true ->
  c <> eq_char /\ c <> comma /\ c <> dquote /\ is_linebreak c = false.
Proof.
  destruct c as [[] [] [] [] [] [] [] []]; intros H;
    try discriminate H; repeat split; done.
Qed.

Lemma replace_char_id (a b : ascii) (s : str) : a ∉ s -> replace_char a b s = s.
Proof.
  induction s as [|c s IH]; intros H; simpl; [done|].
  apply not_elem_of_cons in H as [Hc Hs].
  rewrite bool_decide_eq_false_2 by done. f_equal. by apply IH.
Qed.

Lemma join_Forall (P : ascii -> Prop) (sep : str) (parts : list str) :
  Forall P sep -> Forall (Forall P) parts -> Forall P (join sep parts).
Proof.
  intros Hsep. induction 1 as [|p ps Hp Hps IH]; simpl; [constructor|].
  destruct ps; [done|]. apply Forall_app. split; [done|].
  apply Forall_app. split; done.
Qed.

Lemma attr_text_wf (kv : str * str) :
  attr_wf kv -> attr_text kv = kv.1 ++ eq_char :: dquote :: kv.2 ++ [dquote].
Proof.
  intros (_ & _ & Hq & _). unfold attr_text. by rewrite replace_char_id.
Qed.

(** A property of characters that holds for the fixed characters of the
    header holds for the whole header when it holds for the duration, the
    keys and the values. *)
Lemma header_text_Forall (P : ascii -> Prop) (d : str) (a : dict) :
  Forall P (py "#EXTINF: =") -> P dquote ->
  Forall P d -> Forall attr_wf a ->
  Forall (fun kv : str * str => Forall P kv.1 /\ Forall P kv.2) a ->
  Forall P (header_text d a).
Proof.
  intros Hfix Hq Hd Hwf Ha.
  change (py "#EXTINF: =") with (py "#EXTINF:" ++ py " " ++ [eq_char]) in Hfix.
  apply Forall_app in Hfix as [Hpre Hfix].
  apply Forall_app in Hfix as [Hsp He].
  apply Forall_cons_1 in He as [He _].
  unfold header_text. destruct a as [|kv a']; [by apply Forall_app|].
  apply Forall_app. split; [done|]. apply Forall_app. split; [done|].
  apply Forall_app. split; [done|].
  apply join_Forall; [done|]. apply Forall_fmap.
  apply Forall_forall. intros x Hx.
  rewrite Forall_forall in Hwf, Ha.
  destruct (Ha x Hx) as [H1 H2]. simpl. rewrite attr_text_wf by auto.
  apply Forall_app. split; [done|]. apply Forall_cons_2; [done|].
  apply Forall_cons_2; [done|]. apply Forall_app. split; [done|].
  by apply Forall_cons_2.
Qed.

Lemma Forall_not_elem (c : ascii) (s : str) : Forall (fun x => x <> c) s <-> c ∉ s.
Proof.
  rewrite Forall_forall. split.
  - intros H Hin. by apply (H c Hin).
  - intros H x Hx ->. done.
Qed.

Lemma header_text_no_comma (d : str) (a : dict) :
  Forall (fun c => is_dur_char c = true) d -> Forall attr_wf a ->
  comma ∉ header_text d a.
Proof.
  intros Hd Ha. apply Forall_not_elem. apply header_text_Forall; try done.
  - repeat (apply Forall_cons_2; [done|]). constructor.
  - eapply Forall_impl; [exact Hd|]. intros c Hc. by apply dur_char_facts.
  - eapply Forall_impl; [exact Ha|]. intros kv (_ & Hk & _ & Hc & _). split.
    + eapply Forall_impl; [exact Hk|]. intros c Hc'. by apply key_char_facts.
    + by apply Forall_not_elem.
Qed.

Lemma header_text_no_linebreak (d : str) (a : dict) :
  Forall (fun c => is_dur_char c = true) d -> Forall attr_wf a ->
  no_linebreak (header_text d a).
Proof.
  intros Hd Ha. apply header_text_Forall; try done.
  - repeat (apply Forall_cons_2; [done|]). constructor.
  - eapply Forall_impl; [exact Hd|]. intros c Hc. by apply dur_char_facts.
  - eapply Forall_impl; [exact Ha|]. intros kv (_ & Hk & _ & _ & Hl). split.
    + eapply Forall_impl; [exact Hk|]. intros c Hc'. by apply key_char_facts.
    + done.
Qed.

(** *** The attributes come back *)

Lemma join_cons (sep p : str) (ps : list str) :
  ps <> [] -> join sep (p :: ps) = p ++ sep ++ join sep ps.
Proof. by destruct ps. Qed.

Lemma findall_attrs_join (a : dict) :
  Forall attr_wf a -> findall_attrs (join " " (map attr_text a)) = a.
Proof.
  induction 1 as [|kv a Hkv Ha IH]; [apply findall_attrs_nil|].
  pose proof Hkv as (Hne & Hk & Hq & _ & Hl).
  assert (Hn : LF ∉ kv.2) by (by apply no_linebreak_not_LF).
  rewrite map_cons.
  destruct (decide (a = [])) as [->|Hne'].
  - cbn [map join]. rewrite attr_text_wf by done.
    rewrite findall_attrs_match by done.
    rewrite findall_attrs_nil. by destruct kv.
  - rewrite join_cons by (by destruct a).
    rewrite attr_text_wf by done.
    rewrite <- !app_assoc. cbn [app]. rewrite <- !app_assoc. cbn [app].
    rewrite findall_attrs_match by done.
    change (" "%char :: ?x) with (py " " ++ x).
    rewrite (findall_attrs_prefix (py " ")).
    + rewrite IH. by destruct kv.
    + by intros [?|?%elem_of_nil]%elem_of_cons.
    + by intros c [= <-].
Qed.

Lemma findall_attrs_header (d : str) (a : dict) :
  Forall (fun c => is_dur_char c = true) d -> Forall attr_wf a ->
  findall_attrs (header_text d a) = a.
Proof.
  intros Hd Ha.
  assert (Heq : eq_char ∉ py "#EXTINF:" ++ d).
  { rewrite elem_of_app. intros [H|H].
    - vm_compute in H. by repeat (apply elem_of_cons in H as [H|H]; [done|]);
        apply elem_of_nil in H.
    - rewrite Forall_forall in Hd. by apply Hd, dur_char_facts in H as [? _]. }
  unfold header_text. destruct a as [|kv a'].
  - by apply findall_attrs_no_eq.
  - rewrite (app_assoc _ d), (app_assoc _ (py " ")).
    rewrite findall_attrs_prefix.
    + by apply findall_attrs_join.
    + rewrite elem_of_app. intros [H|[?|?%elem_of_nil]%elem_of_cons]; done.
    + rewrite last_app_nonempty by done. by intros c [= <-].
Qed.

(** *** The duration comes back *)

Lemma match_duration_header (d : str) (a : dict) :
  Forall (fun c => is_dur_char c = true) d ->
  match_duration (header_text d a) = d.
Proof.
  intros Hd. unfold match_duration, header_text.
  destruct a as [|kv a']; cbn [app py list_ascii_of_string take drop upper map].
  - change (startswith _ _) with true. cbv iota.
    rewrite <- (app_nil_r d) at 1. by apply take_by_app.
  - change (startswith _ _) with true. cbv iota.
    apply take_by_app; [done|]. by intros c [= <-].
Qed.
(* ===================================================================== *)
(** ** Parsing what was written *)
(* ===================================================================== *)

Lemma attr_text_nonempty (kv : str * str) : attr_text kv <> [].
Proof. unfold attr_text. destruct kv as [[|c k] v]; done. Qed.

Lemma join_attr_nonempty (kv : str * str) (a : dict) :
  join " " (map attr_text (kv :: a)) <> [].
Proof.
  pose proof (attr_text_nonempty kv) as H. cbn [map join].
  destruct (map attr_text a); [done|].
  destruct (attr_text kv); done.
Qed.

Lemma build_extinf_line_text (t d : str) (a : dict) (u r : option str) :
  build_extinf_line (Channel (Some t) (Some d) (Some a) u r)
  = header_text d a ++ comma :: t.
Proof.
  unfold build_extinf_line. cbn [default title duration attrs].
  change (map _ a) with (map attr_text a). cbv zeta.
  destruct a as [|kv a'].
  - cbn [map join header_text]. rewrite bool_decide_eq_true_2 by done.
    cbn [negb]. by rewrite <- app_assoc.
  - rewrite bool_decide_eq_false_2 by apply join_attr_nonempty.
    cbn [negb header_text]. by rewrite <- !app_assoc.
Qed.

Lemma split_extinf_text (h t : str) :
  comma ∉ h -> split_extinf (h ++ comma :: t) = (h, strip t).
Proof.
  intros Hc. unfold split_extinf, split1.
  change (py ",") with [comma]. by rewrite find_sep_char.
Qed.

(** The line of a channel with a parsed duration, parsed attributes and a
    stripped title gives the same duration, attributes and title back. *)
Lemma make_channel_text (d : str) (a : dict) (t u : str) :
  Forall (fun c => is_dur_char c = true) d ->
  Forall attr_wf a -> NoDup (map fst a) -> strip t = t ->
  make_channel (header_text d a ++ comma :: t) u
  = Channel (Some t) (Some d) (Some a) (Some u)
            (Some (header_text d a ++ comma :: t)).
Proof.
  intros Hd Ha Hnd Ht. unfold make_channel.
  rewrite split_extinf_text by (by apply header_text_no_comma).
  rewrite match_duration_header, findall_attrs_header, dict_of_pairs_id, Ht;
    done.
Qed.

Lemma header_text_prefix (d : str) (a : dict) :
  exists x, header_text d a = py "#EXTINF:" ++ x.
Proof. unfold header_text. destruct a; eauto. Qed.

Lemma extinf_line_strip (d : str) (a : dict) (t : str) :
  strip t = t ->
  strip (header_text d a ++ comma :: t) = header_text d a ++ comma :: t.
Proof.
  intros Ht. apply strip_fixed.
  - destruct (header_text_prefix d a) as [x ->]. by intros c [= <-].
  - intros c. rewrite last_app_nonempty by done.
    destruct t as [|t0 t1]; [by intros [= <-]|].
    change (last (comma :: t0 :: t1)) with (last (t0 :: t1)).
    rewrite <- Ht. apply strip_last.
Qed.

Lemma extinf_line_is_extinf (d : str) (a : dict) (t : str) :
  strip t = t -> is_extinf (header_text d a ++ comma :: t) = true.
Proof.
  intros Ht. unfold is_extinf. rewrite extinf_line_strip by done.
  destruct (header_text_prefix d a) as [x ->]. reflexivity.
Qed.

Lemma extinf_line_no_linebreak (d : str) (a : dict) (t : str) :
  Forall (fun c => is_dur_char c = true) d -> Forall attr_wf a ->
  no_linebreak t ->
  no_linebreak (header_text d a ++ comma :: t).
Proof.
  intros Hd Ha Ht. apply Forall_app. split.
  - by apply header_text_no_linebreak.
  - by apply Forall_cons_2.
Qed.

(** *** What the parser builds from a line *)

Lemma match_duration_chars (h : str) :
  Forall (fun c => is_dur_char c = true) (match_duration h).
Proof.
  unfold match_duration. destruct (startswith _ _); [|constructor].
  apply take_by_Forall.
Qed.

Lemma header_attrs_wf (h : str) :
  comma ∉ h -> no_linebreak h ->
  Forall attr_wf (dict_of_pairs (findall_attrs h)).
Proof.
  intros Hc Hl. apply Forall_forall. intros kv Hkv.
  apply dict_of_pairs_elem in Hkv.
  pose proof (findall_attrs_found h) as Hf. rewrite Forall_forall in Hf.
  destruct (Hf kv Hkv) as (H1 & H2 & H3 & H4 & H5).
  split; [done|]. split; [done|]. split; [done|]. split.
  - intros Hin. by apply Hc, H5.
  - apply Forall_forall. intros c Hin. unfold no_linebreak in Hl.
    rewrite Forall_forall in Hl. by apply Hl, H5.
Qed.

Lemma make_channel_shape (ln u : str) :
  no_linebreak ln ->
  exists d a t,
    make_channel ln u = Channel (Some t) (Some d) (Some a) (Some u) (Some ln)
    /\ Forall (fun c => is_dur_char c = true) d
    /\ Forall attr_wf a /\ NoDup (map fst a)
    /\ strip t = t /\ no_linebreak t.
Proof.
  intros Hl. unfold make_channel, split_extinf, split1.
  change (py ",") with [comma].
  destruct (find_sep [comma] ln) as [[h t0]|] eqn:F.
  - apply find_sep_char_inv in F as [-> Hc].
    apply Forall_app in Hl as [Hh Ht0]. apply Forall_cons_1 in Ht0 as [_ Ht0].
    cbn [length Nat.eqb nth].
    exists (match_duration h), (dict_of_pairs (findall_attrs h)), (strip t0).
    split; [done|]. split; [apply match_duration_chars|].
    split; [by apply header_attrs_wf|]. split; [apply dict_of_pairs_NoDup|].
    split; [apply strip_idem|by apply strip_Forall].
  - apply find_sep_char_none in F. cbn [length Nat.eqb nth].
    exists (match_duration ln), (dict_of_pairs (findall_attrs ln)), [].
    split; [done|]. split; [apply match_duration_chars|].
    split; [by apply header_attrs_wf|]. split; [apply dict_of_pairs_NoDup|].
    split; [done|constructor].
Qed.

(** Writing a parsed channel and parsing its line again changes
    [raw_extinf] only. *)
Lemma reparsed_make_channel (ln u : str) :
  no_linebreak ln ->
  exists d a t,
    make_channel ln u = Channel (Some t) (Some d) (Some a) (Some u) (Some ln)
    /\ build_extinf_line (make_channel ln u) = header_text d a ++ comma :: t
    /\ reparsed (make_channel ln u)
       = Channel (Some t) (Some d) (Some a) (Some u)
                 (Some (header_text d a ++ comma :: t))
    /\ strip (header_text d a ++ comma :: t) = header_text d a ++ comma :: t
    /\ is_extinf (header_text d a ++ comma :: t) = true
    /\ no_linebreak (header_text d a ++ comma :: t).
Proof.
  intros Hl.
  destruct (make_channel_shape ln u Hl) as (d & a & t & E & Hd & Ha & Hnd & Ht & Htl).
  exists d, a, t. unfold reparsed. rewrite E.
  rewrite build_extinf_line_text. cbn [url or_empty default].
  split; [done|]. split; [done|]. split; [by apply make_channel_text|].
  split; [by apply extinf_line_strip|].
  split; [by apply extinf_line_is_extinf|by apply extinf_line_no_linebreak].
Qed.

Lemma fields_reparsed (ln u : str) :
  no_linebreak ln -> fields (reparsed (make_channel ln u)) = fields (make_channel ln u).
Proof.
  intros Hl.
  destruct (reparsed_make_channel ln u Hl) as (d & a & t & E & _ & -> & _).
  by rewrite E.
Qed.
(* ===================================================================== *)
(** ** The round trip *)
(* ===================================================================== *)

Lemma passed_over_false (l : str) :
  passed_over l = false -> strip l <> [] /\ startswith "#" (strip l) = false.
Proof.
  unfold passed_over. intros [H1 H2]%orb_false_iff.
  by apply bool_decide_eq_false_1 in H1.
Qed.

Lemma good_url_passed_over (u : str) : good_url u -> passed_over u = false.
Proof.
  intros (Hs & Hne & Hh & _). unfold passed_over. rewrite Hs, Hh.
  by rewrite bool_decide_eq_false_2.
Qed.

(** The inner loop ends with a URL line, or at the end of the input with
    the empty string. *)
Lemma url_after_cases (rest : list str) :
  Forall no_linebreak rest ->
  (url_after rest = [] /\ skip_url rest = []) \/ good_url (url_after rest).
Proof.
  induction 1 as [|l rest Hl Hrest IH]; [by left|].
  rewrite url_after_cons, skip_url_cons.
  destruct (passed_over l) eqn:E; [exact IH|].
  right. apply passed_over_false in E as [Hne Hh].
  split; [apply strip_idem|]. split; [done|]. split; [done|].
  by apply strip_Forall.
Qed.

Lemma skip_url_Forall (P : str -> Prop) (rest : list str) :
  Forall P rest -> Forall P (skip_url rest).
Proof. apply Forall_drop. Qed.

Lemma parse_lines_output (lines : list str) :
  Forall no_linebreak lines -> parser_output (parse_lines lines).
Proof.
  remember (length lines) as n eqn:Hn. revert lines Hn.
  induction (lt_wf n) as [n _ IH]. intros lines -> Hl.
  destruct lines as [|l rest]; [rewrite parse_lines_nil; constructor|].
  apply Forall_cons_1 in Hl as [Hl Hrest].
  assert (Hnext : parser_output (parse_lines rest)).
  { apply (IH (length rest)); [simpl; lia|done..]. }
  rewrite parse_lines_cons.
  destruct (bool_decide (strip l = [])); [done|].
  destruct (is_extinf l); [|done].
  assert (Hln : no_linebreak (strip l)) by (by apply strip_Forall).
  destruct (url_after_cases rest Hrest) as [[-> ->]|Hgood].
  - rewrite parse_lines_nil. by constructor.
  - constructor; [done..|].
    apply (IH (length (skip_url rest))); [|done|by apply skip_url_Forall].
    pose proof (skip_url_length rest). simpl. lia.
Qed.

Lemma or_empty_Some (x : str) : or_empty (Some x) = x.
Proof. reflexivity. Qed.

Lemma parser_output_lines (cs : list channel) :
  parser_output cs -> Forall no_linebreak (flat_map channel_lines cs).
Proof.
  induction 1 as [|ln Hl|ln u cs Hl Hu Hcs IH]; [constructor|..].
  - destruct (reparsed_make_channel ln [] Hl) as (d & a & t & E & Hb & _ & _ & _ & H).
    cbn [flat_map]. rewrite app_nil_r. unfold channel_lines. rewrite Hb, E.
    cbn [url]. rewrite or_empty_Some.
    repeat apply Forall_cons_2; try done. constructor.
  - destruct (reparsed_make_channel ln u Hl) as (d & a & t & E & Hb & _ & _ & _ & H).
    cbn [flat_map]. apply Forall_app. split; [|exact IH].
    unfold channel_lines. rewrite Hb, E. cbn [url]. rewrite or_empty_Some.
    destruct Hu as (_ & _ & _ & Hu).
    repeat apply Forall_cons_2; try done.
Qed.

(** Parsing the lines written for the parser's own output parses every
    channel's two lines into that channel, reparsed. *)
Lemma parse_lines_written (cs : list channel) :
  parser_output cs -> parse_lines (flat_map channel_lines cs) = map reparsed cs.
Proof.
  induction 1 as [|ln Hl|ln u cs Hl Hu Hcs IH]; [apply parse_lines_nil|..].
  - destruct (reparsed_make_channel ln [] Hl)
      as (d & a & t & E & Hb & _ & Hs & He & _).
    cbn [flat_map map]. rewrite app_nil_r.
    unfold channel_lines, reparsed. rewrite Hb, E.
    cbn [url]. rewrite or_empty_Some.
    rewrite parse_lines_cons, Hs, He.
    rewrite bool_decide_eq_false_2 by (by destruct (header_text d a)).
    rewrite url_after_cons, skip_url_cons.
    change (passed_over []) with true. cbv iota.
    change (url_after []) with ([] : str).
    change (skip_url []) with ([] : list str).
    by rewrite parse_lines_nil.
  - destruct (reparsed_make_channel ln u Hl)
      as (d & a & t & E & Hb & _ & Hs & He & _).
    cbn [flat_map map]. unfold channel_lines at 1. unfold reparsed at 1.
    rewrite Hb, E. cbn [url]. rewrite or_empty_Some. cbn [app].
    rewrite parse_lines_cons, Hs, He.
    rewrite bool_decide_eq_false_2 by (by destruct (header_text d a)).
    rewrite url_after_cons, skip_url_cons, (good_url_passed_over u Hu).
    destruct Hu as (-> & _). by rewrite IH.
Qed.

Lemma parse_lines_header_line (rest : list str) :
  parse_lines (py "#EXTM3U" :: rest) = parse_lines rest.
Proof. by rewrite parse_lines_cons. Qed.

Lemma fields_written (cs : list channel) :
  parser_output cs -> map fields (map reparsed cs) = map fields cs.
Proof.
  induction 1 as [|ln Hl|ln u cs Hl Hu Hcs IH]; [done|..]; cbn [map].
  - by rewrite fields_reparsed.
  - by rewrite fields_reparsed, IH.
Qed.

(** C1: for every M3U text, writing the channels that [parse_m3u_to_json]
    returns with [create_m3u_from_channels] (through [build_extinf_line]) and
    parsing the written text again gives channels with the same duration,
    title, url and attrs, in the same order. *)
Theorem parse_serialize_roundtrip (text : str) :
  map fields (parse_m3u_to_json (m3u_text_of (parse_m3u_to_json text)))
  = map fields (parse_m3u_to_json text).
Proof.
  assert (Hout : parser_output (parse_m3u_to_json text)).
  { rewrite parse_m3u_to_json_lines. apply parse_lines_output,
      splitlines_no_linebreak. }
  rewrite (parse_m3u_to_json_lines (m3u_text_of _)).
  rewrite m3u_text_of_unlines, splitlines_unlines.
  - rewrite parse_lines_header_line, parse_lines_written by done.
    by apply fields_written.
  - apply Forall_cons_2; [|by apply parser_output_lines].
    repeat (apply Forall_cons_2; [done|]). constructor.
Qed.

(** The text of the round trip is the text [create_m3u_from_channels] leaves
    in the file it writes. *)
Lemma create_m3u_from_channels_writes (E : env) (channels : list channel)
    (out_path : str) (w : world) :
  disk_ok E out_path = true ->
  (Main.create_m3u_from_channels E channels out_path w).1 = Ret true
  /\ files (Main.create_m3u_from_channels E channels out_path w).2 !! out_path
     = Some (m3u_text_of channels).
Proof.
  intros Hd. unfold Main.create_m3u_from_channels, create_m3u_from_channels,
    try_except_Exception, mbind, write_file, mret. rewrite Hd. cbn.
  split; [done|]. apply lookup_insert_eq.
Qed.
(* ===================================================================== *)
(** ** The URL of a channel *)
(* ===================================================================== *)

Example parse_scenario :
  map fields (parse_m3u_to_json scenario_text)
  = [(Some (py "-1"), Some (py "Channel A"), Some (py "http://x/a.ts"),
      Some [(py "tvg-id", py "1"); (py "group-title", py "News")])].
Proof. vm_compute. reflexivity. Qed.

Example parse_scenario_rebuilt :
  parse_m3u_to_json (m3u_text_of (parse_m3u_to_json scenario_text))
  = parse_m3u_to_json scenario_text.
Proof. vm_compute. reflexivity. Qed.

Lemma url_after_first_url (rest : list str) : url_after rest = first_url rest.
Proof.
  unfold first_url. induction rest as [|l rest IH]; [done|].
  rewrite url_after_cons. cbn [map List.filter].
  unfold passed_over, url_line at 1.
  destruct (_ || _); cbn [negb]; [exact IH|done].
Qed.

Lemma make_channel_url (ln u : str) : url (make_channel ln u) = Some u.
Proof. unfold make_channel. by destruct (split_extinf ln). Qed.

Lemma make_channel_raw (ln u : str) : raw_extinf (make_channel ln u) = Some ln.
Proof. unfold make_channel. by destruct (split_extinf ln). Qed.

Lemma skip_url_drop (i : nat) (lines : list str) :
  exists k, skip_url (drop (S i) lines) = drop (S i + k) lines /\ 0 < k.
Proof.
  unfold skip_url. exists ((scan_url_from (drop (S i) lines) 0).2 + 1).
  rewrite drop_drop. split; [done|lia].
Qed.

Lemma upper_char_hash (c : ascii) : upper_char c = "#"%char -> c = "#"%char.
Proof.
  destruct c as [[] [] [] [] [] [] [] []]; vm_compute; congruence.
Qed.

(** An [#EXTINF] line starts with [#]: the inner loop passes it over. *)
Lemma is_extinf_passed_over (l : str) : is_extinf l = true -> passed_over l = true.
Proof.
  unfold is_extinf, passed_over. destruct (strip l) as [|c r]; [done|].
  cbn [upper map startswith]. intros H.
  apply andb_true_iff in H as [H _]. apply bool_decide_eq_true in H.
  symmetry in H. apply upper_char_hash in H. subst c.
  apply orb_true_iff. by right.
Qed.

(** The inner loop stops at the first line it does not pass over. *)
Lemma scan_url_from_stops (rest : list str) :
  (forall m l, m < (scan_url_from rest 0).2 -> rest !! m = Some l ->
               passed_over l = true)
  /\ (forall l, rest !! (scan_url_from rest 0).2 = Some l -> passed_over l = false).
Proof.
  induction rest as [|l0 rest [IH1 IH2]]; [done|].
  cbn [scan_url_from]. fold (passed_over l0).
  destruct (passed_over l0) eqn:Ep.
  - rewrite scan_url_from_shift. cbn [snd]. split.
    + intros [|m] l Hm Hl; [by injection Hl as <-|].
      apply (IH1 m); [lia|done].
    + intros l Hl. apply IH2.
      by replace ((scan_url_from rest 0).2 + (0 + 1)) with (S (scan_url_from rest 0).2)
        in Hl by lia.
  - cbn [snd]. split; [intros; lia|]. intros l [= <-]. done.
Qed.

(** Every channel the outer loop builds from [lines[i:]] was begun by an
    [#EXTINF] line at some index from [i] on, the indices increase, and its
    URL is the first URL line after that index; an [#EXTINF] line from [i] on
    begins a channel unless the search for the URL of a channel passed it
    over. *)
Lemma parse_lines_starts (n : nat) (lines : list str) (i : nat) :
  length lines - i <= n ->
  exists starts : list nat,
    Forall2 (fun s ch => begun_at lines s ch
                         /\ url ch = Some (first_url (drop (S s) lines)))
            starts (parse_lines (drop i lines))
    /\ Forall (fun s => i <= s) starts
    /\ StronglySorted lt starts
    /\ (forall j l, i <= j -> lines !! j = Some l -> is_extinf l = true ->
          ((j ∈ starts) /\ forall s, s ∈ starts -> ~ searched_past lines s j)
          \/ ((j ∉ starts) /\ exists s, s ∈ starts /\ searched_past lines s j)).
Proof.
  revert i. induction n as [|n IH]; intros i Hn.
  - rewrite drop_ge by lia. rewrite parse_lines_nil. exists [].
    split; [constructor|]. split; [constructor|]. split; [constructor|].
    intros j l Hj Hl. apply lookup_lt_Some in Hl. lia.
  - destruct (lines !! i) as [l|] eqn:El.
    2:{ apply lookup_ge_None in El. rewrite drop_ge by lia.
        rewrite parse_lines_nil. exists [].
        split; [constructor|]. split; [constructor|]. split; [constructor|].
        intros j l Hj Hl. apply lookup_lt_Some in Hl. lia. }
    pose proof (lookup_lt_Some _ _ _ El) as Hi.
    rewrite (drop_S _ _ _ El), parse_lines_cons.
    assert (Hnext : is_extinf l = false -> exists starts : list nat,
      Forall2 (fun s ch => begun_at lines s ch
                           /\ url ch = Some (first_url (drop (S s) lines)))
              starts (parse_lines (drop (S i) lines))
      /\ Forall (fun s => i <= s) starts /\ StronglySorted lt starts
      /\ (forall j l, i <= j -> lines !! j = Some l -> is_extinf l = true ->
            ((j ∈ starts) /\ forall s, s ∈ starts -> ~ searched_past lines s j)
            \/ ((j ∉ starts) /\ exists s, s ∈ starts /\ searched_past lines s j))).
    { intros Hno. destruct (IH (S i)) as (st & H1 & H2 & H3 & H4); [lia|].
      exists st. split; [done|]. split.
      { eapply Forall_impl; [exact H2|]. simpl. lia. }
      split; [done|]. intros j l' Hj Hl' Hx.
      destruct (decide (j = i)) as [->|Hne]; [congruence|].
      apply (H4 j l'); [lia|done|done]. }
    destruct (bool_decide (strip l = [])) eqn:Eb.
    { apply Hnext. unfold is_extinf.
      apply bool_decide_eq_true in Eb. by rewrite Eb. }
    destruct (is_extinf l) eqn:Ex; [|by apply Hnext].
    clear Hnext. unfold skip_url. rewrite drop_drop.
    set (k := (scan_url_from (drop (S i) lines) 0).2).
    destruct (scan_url_from_stops (drop (S i) lines)) as [Hpass Hstop].
    fold k in Hpass, Hstop.
    destruct (IH (S i + (k + 1))) as (st & H1 & H2 & H3 & H4); [lia|].
    assert (Hi_st : forall s, s ∈ st -> S i + (k + 1) <= s).
    { intros s Hs. by apply (proj1 (Forall_forall _ _) H2). }
    exists (i :: st). split; [|split; [|split]].
    + constructor; [|done]. split.
      * exists l. by rewrite make_channel_raw.
      * by rewrite make_channel_url, url_after_first_url.
    + constructor; [lia|]. eapply Forall_impl; [exact H2|]. simpl. lia.
    + constructor; [done|]. eapply Forall_impl; [exact H2|]. simpl. lia.
    + intros j l' Hj Hl' Hx.
      destruct (decide (j = i)) as [->|Hne].
      { left. split; [apply elem_of_cons; by left|].
        intros s Hs [Hlt _]. apply elem_of_cons in Hs as [->|Hs]; [lia|].
        apply Hi_st in Hs. lia. }
      destruct (decide (j <= i + k)) as [Hle|Hgt].
      { right. split.
        - intros Hin. apply elem_of_cons in Hin as [->|Hin]; [done|].
          apply Hi_st in Hin. lia.
        - exists i. split; [apply elem_of_cons; by left|]. split; [lia|].
          intros m lm Hm Hlm. apply (Hpass (m - S i)); [lia|].
          rewrite lookup_drop. by replace (S i + (m - S i)) with m by lia. }
      destruct (decide (j = S i + k)) as [->|Hne'].
      { exfalso. apply is_extinf_passed_over in Hx.
        rewrite (Hstop l') in Hx; [done|].
        by rewrite lookup_drop. }
      assert (Hurl : exists lu, lines !! (S i + k) = Some lu).
      { apply lookup_lt_is_Some. apply lookup_lt_Some in Hl'. lia. }
      destruct Hurl as [lu Hlu].
      assert (Hnot : ~ searched_past lines i j).
      { intros [_ Hall]. specialize (Hall (S i + k) lu ltac:(lia) Hlu).
        rewrite (Hstop lu) in Hall; [done|]. by rewrite lookup_drop. }
      destruct (H4 j l') as [[Hin Hnone]|[Hout Hsome]]; [lia|done|done| |].
      * left. split; [apply elem_of_cons; by right|].
        intros s Hs. apply elem_of_cons in Hs as [->|Hs]; [done|by apply Hnone].
      * right. split.
        -- intros Hin. apply elem_of_cons in Hin as [->|Hin]; [lia|done].
        -- destruct Hsome as (s & Hs & Hps). exists s.
           split; [apply elem_of_cons; by right|done].
Qed.

(** C2 (as amended): every channel of [parse_m3u_to_json] was begun by an
    [#EXTINF] line of the input, in input order, and its URL is the first line
    after that line which, stripped, is neither blank nor starts with [#], or
    the empty string when no such line follows before the end of the input.
    Later [#EXTINF] lines are passed over like any other [#] line: an
    [#EXTINF] line that lies between the line that begins a record and that
    record's URL line begins no record of its own, and every other [#EXTINF]
    line begins one, so that the parser resumes after the URL line. *)
Theorem parse_url_is_next_url_line (text : str) :
  exists starts : list nat,
    Forall2 (fun s ch => begun_at (splitlines text) s ch
                         /\ url ch = Some (first_url (drop (S s) (splitlines text))))
            starts (parse_m3u_to_json text)
    /\ StronglySorted lt starts
    /\ begin_records (splitlines text) starts.
Proof.
  destruct (parse_lines_starts (length (splitlines text)) (splitlines text) 0)
    as (st & H1 & _ & H3 & H4); [lia|].
  exists st. rewrite parse_m3u_to_json_lines. rewrite drop_0 in H1.
  split; [done|]. split; [done|].
  intros j l Hl Hx. apply (H4 j l); [lia|done|done].
Qed.

(** With two [#EXTINF] lines before the first URL line, the first line alone
    begins a record: neither both lines nor no line at all do. *)
Example begin_records_two_extinf :
  begin_records (splitlines two_extinf_text) [0]
  /\ ~ begin_records (splitlines two_extinf_text) [0; 1]
  /\ ~ begin_records (splitlines two_extinf_text) [].
Proof.
  assert (Hl : splitlines two_extinf_text
               = [py "#EXTINF:-1,A"; py "#EXTINF:-1,B"; py "http://b"]).
  { vm_compute. reflexivity. }
  rewrite Hl. clear Hl.
  assert (H01 : searched_past
                  [py "#EXTINF:-1,A"; py "#EXTINF:-1,B"; py "http://b"] 0 1).
  { split; [lia|]. intros m l Hm Hlm. assert (m = 1) as -> by lia.
    injection Hlm as <-. vm_compute. reflexivity. }
  split; [|split].
  - intros [|[|[|j]]] l Hlj Hx; try done.
    + left. split; [apply elem_of_cons; by left|].
      intros s Hs [Hlt _]. lia.
    + right. split.
      * intros Hin. apply elem_of_cons in Hin as [?|Hin]; [done|].
        by apply elem_of_nil in Hin.
      * exists 0. split; [apply elem_of_cons; by left|done].
    + injection Hlj as <-. vm_compute in Hx. done.
  - intros H. destruct (H 1 (py "#EXTINF:-1,B") eq_refl) as [[_ Hn]|[Hout _]].
    + vm_compute. reflexivity.
    + apply (Hn 0); [apply elem_of_cons; by left|done].
    + apply Hout. apply elem_of_cons. right. apply elem_of_cons. by left.
  - intros H. destruct (H 0 (py "#EXTINF:-1,A") eq_refl) as [[Hin _]|[_ (s & Hs & _)]].
    + vm_compute. reflexivity.
    + by apply elem_of_nil in Hin.
    + by apply elem_of_nil in Hs.
Qed.

(** C2 as the specification words it fails when a second [#EXTINF] line
    comes before any URL line: the specification gives the first channel the
    empty URL, the parser gives it the URL behind the second [#EXTINF] line,
    and no channel is begun by that second line. *)
Lemma parse_url_is_next_url_line_counterexample :
  splitlines two_extinf_text
    = [py "#EXTINF:-1,A"; py "#EXTINF:-1,B"; py "http://b"]
  /\ first_url (before_next_extinf (drop 1 (splitlines two_extinf_text))) = []
  /\ parse_m3u_to_json two_extinf_text
     = [Channel (Some (py "A")) (Some (py "-1")) (Some []) (Some (py "http://b"))
                (Some (py "#EXTINF:-1,A"))].
Proof. repeat split; vm_compute; reflexivity. Qed.

(* ===================================================================== *)
(** ** The filter *)
(* ===================================================================== *)

Lemma filter_loop_acc (p : channel -> bool) (channels out : list channel) :
  foldl (fun out ch => if p ch then out ++ [ch] else out) out channels
  = out ++ List.filter p channels.
Proof.
  revert out. induction channels as [|ch cs IH]; intros out; simpl.
  - by rewrite app_nil_r.
  - rewrite IH. destruct (p ch); [by rewrite <- app_assoc|done].
Qed.

(** C8 (as amended): an empty keyword returns the channels as they are; any
    other keyword is stripped of surrounding whitespace first, and the result
    is the channels, in order, whose selected field contains the stripped
    keyword, letter case ignored. *)
Theorem filter_channels_spec (channels : list channel) (field keyword : str) :
  filter_channels channels field keyword
  = if bool_decide (keyword = []) then channels
    else List.filter (field_contains field (strip keyword)) channels.
Proof.
  unfold filter_channels. destruct (bool_decide (keyword = [])); [done|].
  cbv zeta. rewrite <- (app_nil_l (List.filter _ _)).
  rewrite <- filter_loop_acc. f_equal.
  unfold field_contains, selected_field.
  destruct (bool_decide (field = py "title")); [done|].
  destruct (bool_decide (field = py "group")); done.
Qed.

(** C8 as the specification words it fails for a keyword of whitespace: the
    keyword is not empty and no title contains it, yet every channel is
    returned, because the keyword is stripped before it is searched. *)
Lemma filter_channels_spec_counterexample :
  py " " <> []
  /\ field_contains "title" " " channel_abc = false
  /\ List.filter (field_contains "title" " ") [channel_abc] = []
  /\ filter_channels [channel_abc] "title" " " = [channel_abc].
Proof. repeat split; try done. Qed.
(* ===================================================================== *)
(** ** HTTP strategy selector *)
(* ===================================================================== *)

Lemma network_failure_is_Exception (e : exn) :
  network_failure e = true -> is_Exception e = true.
Proof. unfold network_failure, is_Exception. by destruct (exn_class_of e). Qed.

(** The answer and the requests sent do not depend on the world. *)
Lemma request_with_client_run (E : env) (endpoint : str) (timeout : Z)
    (stream : bool) (w : world) :
  Main.request_with_client E endpoint timeout stream w
  = (answer E endpoint timeout stream,
     with_requests w (calls E endpoint timeout stream)).
Proof.
  unfold answer, calls, Main.request_with_client, with_requests, mbind,
    try_except_Exception, client_call, mret.
  destruct w as [lg fs cr sf]. cbn.
  destruct (has_cloudscraper E); cbn.
  - destruct (scraper_get E endpoint timeout stream) as [r|e]; cbn; [done|].
    destruct (is_Exception e); cbn; [|done].
    destruct (requests_get E endpoint timeout stream) as [r|e2]; cbn.
    + by rewrite <- app_assoc.
    + destruct (is_Exception e2); cbn; by rewrite <- app_assoc.
  - destruct (requests_get E endpoint timeout stream) as [r|e2]; cbn; [done|].
    by destruct (is_Exception e2).
Qed.

Lemma calls_url (E : env) (endpoint : str) (timeout : Z) (stream : bool) :
  Forall (fun c => c.2 = endpoint) (calls E endpoint timeout stream).
Proof.
  unfold calls, Main.request_with_client, mbind, try_except_Exception,
    client_call, mret. cbn.
  destruct (has_cloudscraper E); cbn.
  - destruct (scraper_get E endpoint timeout stream) as [r|e]; cbn;
      [by repeat constructor|].
    destruct (is_Exception e); cbn; [|by repeat constructor].
    destruct (requests_get E endpoint timeout stream) as [r|e2]; cbn;
      [by repeat constructor|].
    destruct (is_Exception e2); by repeat constructor.
  - destruct (requests_get E endpoint timeout stream) as [r|e2]; cbn;
      [by repeat constructor|].
    destruct (is_Exception e2); by repeat constructor.
Qed.

Lemma main_request_captured (E : env) (endpoint : str) (timeout : Z)
    (stream : bool) (w : world) :
  clients_raise_exceptions E ->
  captured E endpoint timeout stream
    (Main.request_with_client E endpoint timeout stream w).1.
Proof.
  intros HE. unfold Main.request_with_client, mbind, try_except_Exception,
    client_call, mret. cbn.
  destruct (has_cloudscraper E) eqn:Hcs; cbn.
  - destruct (scraper_get E endpoint timeout stream) as [r|e] eqn:Hs; cbn.
    + left. done.
    + rewrite (HE endpoint timeout stream e) by (by left). cbn.
      destruct (requests_get E endpoint timeout stream) as [r|e2] eqn:Hr; cbn.
      * right. done.
      * rewrite (HE endpoint timeout stream e2) by (by right). done.
  - destruct (requests_get E endpoint timeout stream) as [r|e2] eqn:Hr; cbn.
    + right. done.
    + rewrite (HE endpoint timeout stream e2) by (by right). done.
Qed.

Lemma xtream_request_captured (E : env) (endpoint : str) (timeout : Z)
    (w : world) :
  clients_raise_exceptions E ->
  captured E endpoint timeout false
    (Xtream.request_with_client E endpoint timeout w).1.
Proof.
  intros HE. unfold Xtream.request_with_client, mbind, try_except_Exception,
    client_call, mret. cbn.
  destruct (has_cloudscraper E) eqn:Hcs; cbn.
  - destruct (scraper_get E endpoint timeout false) as [r|e] eqn:Hs; cbn.
    + left. done.
    + rewrite (HE endpoint timeout false e) by (by left). cbn.
      destruct (requests_get E endpoint timeout false) as [r|e2] eqn:Hr; cbn.
      * right. done.
      * rewrite (HE endpoint timeout false e2) by (by right). done.
  - destruct (requests_get E endpoint timeout false) as [r|e2] eqn:Hr; cbn.
    + right. done.
    + rewrite (HE endpoint timeout false e2) by (by right). done.
Qed.

(** C7: when the failures of the two clients are exceptions of class
    [Exception] (connection, timeout, TLS and DNS failures are),
    [request_with_client] of main.py and of xtream.py never raises: it returns
    the response with the name of the client that got it, or the exception
    [requests] raised together with the name [requests]. *)
Theorem request_with_client_never_raises (E : env) (endpoint : str)
    (timeout : Z) (stream : bool) (w : world) :
  clients_raise_exceptions E ->
  captured E endpoint timeout stream
    (Main.request_with_client E endpoint timeout stream w).1
  /\ captured E endpoint timeout false
       (Xtream.request_with_client E endpoint timeout w).1.
Proof.
  intros HE. split.
  - by apply main_request_captured.
  - by apply xtream_request_captured.
Qed.

Lemma request_with_client_never_raises_witness :
  clients_raise_exceptions env_failing
  /\ captured env_failing "http://h" 20%Z true
       (Main.request_with_client env_failing "http://h" 20%Z true w0).1
  /\ captured env_failing "http://h" 20%Z false
       (Xtream.request_with_client env_failing "http://h" 20%Z w0).1.
Proof.
  assert (H : clients_raise_exceptions env_failing).
  { intros url timeout stream e [H|H]; injection H as <-; reflexivity. }
  split; [exact H|].
  exact (request_with_client_never_raises env_failing "http://h" 20%Z true w0 H).
Defined.

Example request_with_client_failing :
  (Main.request_with_client env_failing "http://h" 20%Z true w0).1
  = Ret (inr (Exn Timeout (py "timed out")), py "requests").
Proof. reflexivity. Qed.

(** An exception outside [Exception] is not caught. *)
Example request_with_client_interrupted :
  (Main.request_with_client env_interrupted "http://h" 20%Z false w0).1
  = Raise (Exn KeyboardInterrupt []).
Proof. reflexivity. Qed.
(* ===================================================================== *)
(** ** The world, step by step *)
(* ===================================================================== *)

Lemma ensure_dirs_run (E : env) (D : str) (w : world) :
  disk_accepts E -> ensure_dirs E D w = (Ret tt, after_ensure w).
Proof.
  intros Hd. unfold ensure_dirs, write_servers, after_ensure.
  destruct w as [lg fs cr [sf|]]; cbn; [done|]. by rewrite Hd.
Qed.

Lemma save_debug_response_run (E : env) (D name endpoint body : str) (w : world) :
  disk_accepts E ->
  save_debug_response E D name endpoint body w
  = (Ret (Some (debug_path D (clock E (clock_reads w)) name)),
     with_debug_file E D name endpoint body w).
Proof.
  intros Hd. unfold save_debug_response, mbind.
  rewrite ensure_dirs_run by done.
  unfold now, try_except_Exception, write_file, mbind, mret, with_debug_file,
    after_ensure. cbn. by rewrite Hd.
Qed.

(** *** The de-duplication loop never returns a repetition *)

Lemma uniq_fold_NoDup (l acc : list str) (seen : gset str) :
  (forall x, x ∈ seen <-> x ∈ acc) -> NoDup acc ->
  NoDup (foldl uniq_step (seen, acc) l).2.
Proof.
  revert acc seen. induction l as [|u l IH]; intros acc seen Hs Hnd; [done|].
  cbn [foldl]. unfold uniq_step at 2. cbn [fst snd].
  destruct (bool_decide (u ∈ seen)) eqn:Hu; [by apply IH|].
  apply bool_decide_eq_false_1 in Hu. apply IH.
  - intros x. rewrite elem_of_union, elem_of_singleton, elem_of_app,
      list_elem_of_singleton, Hs. tauto.
  - apply NoDup_app. split; [done|]. split; [|apply NoDup_singleton].
    intros x Hx ->%list_elem_of_singleton. apply Hu. by apply Hs.
Qed.

Lemma generate_endpoints_NoDup (addr : str) : NoDup (Main.generate_endpoints addr).
Proof.
  rewrite generate_endpoints_unfold. cbv zeta. apply uniq_fold_NoDup.
  - intros x. rewrite elem_of_empty. split; [done|]. by intros ?%elem_of_nil.
  - constructor.
Qed.

Lemma api_url_inj (b1 b2 username password : str) :
  api_url b1 username password = api_url b2 username password -> b1 = b2.
Proof. unfold api_url. by intros ?%app_inv_tail. Qed.

(* ===================================================================== *)
(** ** Probe engine: authentication fetch *)
(* ===================================================================== *)

Section PlayerApi.

Variable E : env.
Variables username password : str.
Variable timeout : Z.
Hypothesis Hdisk : disk_accepts E.

Local Abbreviation loop :=
  (player_api_loop E Main.DATA_DIR (Main.request_with_client E)
     username password timeout).

(** A transport error moves on to the next candidate; nothing is saved. *)
Lemma player_api_step_error (base : str) (rest : list str)
    (tried : list (str * (response + exn) * str)) (w : world)
    (e : exn) (client : str) :
  answer E (api_url base username password) timeout false = Ret (inr e, client) ->
  loop (base :: rest) tried w
  = loop rest (tried ++ [(api_url base username password, inr e, client)])
      (with_requests w (calls E (api_url base username password) timeout false)).
Proof.
  intros Ha. cbn [player_api_loop].
  change (base ++ _ ++ username ++ _ ++ password)
    with (api_url base username password).
  unfold mbind at 1. rewrite request_with_client_run, Ha. reflexivity.
Qed.

(** A status other than 200 saves the body and moves on. *)
Lemma player_api_step_status (base : str) (rest : list str)
    (tried : list (str * (response + exn) * str)) (w : world)
    (r : response) (client : str) :
  answer E (api_url base username password) timeout false = Ret (inl r, client) ->
  status_code r <> 200%Z ->
  loop (base :: rest) tried w
  = loop rest (tried ++ [(api_url base username password, inl r, client)])
      (with_debug_file E Main.DATA_DIR "player_api_non200" (api_url base username password) (text r)
         (with_requests w (calls E (api_url base username password) timeout false))).
Proof.
  intros Ha Hs. cbn [player_api_loop].
  change (base ++ _ ++ username ++ _ ++ password)
    with (api_url base username password).
  unfold mbind at 1. rewrite request_with_client_run, Ha. cbn [fst snd].
  apply Z.eqb_neq in Hs. rewrite Hs. cbn [negb].
  unfold mbind at 1, try_except, mbind at 1.
  rewrite save_debug_response_run by done. reflexivity.
Qed.

(** Status 200 with valid JSON succeeds at once. *)
Lemma player_api_step_success (base : str) (rest : list str)
    (tried : list (str * (response + exn) * str)) (w : world)
    (r : response) (client : str) (data : json) :
  answer E (api_url base username password) timeout false = Ret (inl r, client) ->
  status_code r = 200%Z -> json_of r = Ret data ->
  loop (base :: rest) tried w
  = (Ret (PlayerOk (api_url base username password) client data), with_requests w (calls E (api_url base username password) timeout false)).
Proof.
  intros Ha Hs Hj. cbn [player_api_loop].
  change (base ++ _ ++ username ++ _ ++ password)
    with (api_url base username password).
  unfold mbind at 1. rewrite request_with_client_run, Ha. cbn [fst snd].
  rewrite Hs. cbn [Z.eqb Pos.eqb negb].
  unfold mbind, try_except_Exception, lift, mret. by rewrite Hj.
Qed.

(** The scenario of three candidates: error, another status, success. *)
Lemma player_api_scenario (A B C : str) (rest : list str) (w : world)
    (eA : exn) (clA : str) (rB : response) (clB : str)
    (rC : response) (clC : str) (data : json) :
  answer E (api_url A username password) timeout false = Ret (inr eA, clA) ->
  answer E (api_url B username password) timeout false = Ret (inl rB, clB) ->
  status_code rB <> 200%Z ->
  answer E (api_url C username password) timeout false = Ret (inl rC, clC) ->
  status_code rC = 200%Z -> json_of rC = Ret data ->
  loop (A :: B :: C :: rest) [] w
  = (Ret (PlayerOk (api_url C username password) clC data),
     {| requests_log := requests_log w ++ calls E (api_url A username password) timeout false ++ calls E (api_url B username password) timeout false ++ calls E (api_url C username password) timeout false;
        files := <[debug_path Main.DATA_DIR (clock E (clock_reads w))
                     "player_api_non200"
                   := debug_content (api_url B username password) (text rB)]> (files w);
        clock_reads := S (clock_reads w);
        servers_file := Some (default [] (servers_file w)) |}).
Proof.
  intros HA HB HsB HC HsC Hj.
  rewrite (player_api_step_error A _ _ _ eA clA HA).
  rewrite (player_api_step_status B _ _ _ rB clB HB HsB).
  rewrite (player_api_step_success C _ _ _ rC clC data HC HsC Hj).
  unfold with_requests, with_debug_file. cbn. by rewrite <- !app_assoc.
Qed.

End PlayerApi.

(** C3 (as amended): when the first candidate fails at the transport level,
    the second answers 404 and the third answers 200 with valid JSON, the
    fetch succeeds with the third candidate's URL, client and payload; exactly
    one debug file is written, for the second candidate; the first candidate's
    failure is kept only in the list of attempts, which a success does not
    return; and no later candidate is requested. *)
Theorem fetch_player_api_first_success (E : env)
    (addr username password : str) (timeout : Z) (w : world)
    (A B C : str) (rest : list str)
    (eA : exn) (clA : str) (rB : response) (clB : str)
    (rC : response) (clC : str) (data : json) :
  disk_accepts E ->
  Main.generate_endpoints addr = A :: B :: C :: rest ->
  answer E (api_url A username password) timeout false = Ret (inr eA, clA) ->
  answer E (api_url B username password) timeout false = Ret (inl rB, clB) ->
  status_code rB = 404%Z ->
  answer E (api_url C username password) timeout false = Ret (inl rC, clC) ->
  status_code rC = 200%Z -> json_of rC = Ret data ->
  let out := Main.fetch_player_api_robust E addr username password timeout w in
  out.1 = Ret (PlayerOk (api_url C username password) clC data)
  /\ files out.2
     = <[debug_path Main.DATA_DIR (clock E (clock_reads w)) "player_api_non200"
         := debug_content (api_url B username password) (text rB)]> (files w)
  /\ requests_log out.2
     = requests_log w
         ++ calls E (api_url A username password) timeout false
         ++ calls E (api_url B username password) timeout false
         ++ calls E (api_url C username password) timeout false
  /\ (forall D c, D ∈ rest ->
        c ∈ drop (length (requests_log w)) (requests_log out.2) ->
        c.2 <> api_url D username password).
Proof.
  intros Hdisk Hgen HA HB HsB HC HsC Hj out.
  assert (Hout : out = (Ret (PlayerOk (api_url C username password) clC data),
     {| requests_log := requests_log w
          ++ calls E (api_url A username password) timeout false
          ++ calls E (api_url B username password) timeout false
          ++ calls E (api_url C username password) timeout false;
        files := <[debug_path Main.DATA_DIR (clock E (clock_reads w))
                     "player_api_non200"
                   := debug_content (api_url B username password) (text rB)]>
                   (files w);
        clock_reads := S (clock_reads w);
        servers_file := Some (default [] (servers_file w)) |})).
  { subst out. unfold Main.fetch_player_api_robust, fetch_player_api_robust.
    rewrite Hgen.
    apply (player_api_scenario E username password timeout Hdisk A B C rest w
             eA clA rB clB rC clC data); try done.
    rewrite HsB. done. }
  rewrite Hout. cbn [fst snd requests_log files].
  split; [done|]. split; [done|]. split; [done|].
  intros D c HD Hc Heq. rewrite drop_app_length in Hc.
  pose proof (generate_endpoints_NoDup addr) as Hnd. rewrite Hgen in Hnd.
  assert (Hne : D <> A /\ D <> B /\ D <> C).
  { apply NoDup_cons in Hnd as [HA' Hnd]. apply NoDup_cons in Hnd as [HB' Hnd].
    apply NoDup_cons in Hnd as [HC' _].
    repeat split; intros ->.
    - apply HA'. rewrite !elem_of_cons. tauto.
    - apply HB'. rewrite !elem_of_cons. tauto.
    - by apply HC'. }
  destruct Hne as (H1 & H2 & H3).
  rewrite !elem_of_app in Hc.
  destruct Hc as [Hc|[Hc|Hc]];
    apply list_elem_of_In in Hc;
    [pose proof (calls_url E (api_url A username password) timeout false) as Hf
    |pose proof (calls_url E (api_url B username password) timeout false) as Hf
    |pose proof (calls_url E (api_url C username password) timeout false) as Hf];
    rewrite List.Forall_forall in Hf; apply Hf in Hc;
    rewrite Hc in Heq; apply api_url_inj in Heq; congruence.
Qed.

Lemma fetch_player_api_first_success_witness :
  let out := Main.fetch_player_api_robust env_abc "h" "u" "p" 20%Z w0 in
  out.1 = Ret (PlayerOk (api_url "http://h:8080" "u" "p") (py "requests")
                 account_json)
  /\ files out.2
     = <[debug_path Main.DATA_DIR (clock env_abc (clock_reads w0))
           "player_api_non200"
         := debug_content (api_url "http://h:80" "u" "p") (text not_found)]>
         (files w0)
  /\ requests_log out.2
     = requests_log w0
         ++ calls env_abc (api_url "http://h" "u" "p") 20%Z false
         ++ calls env_abc (api_url "http://h:80" "u" "p") 20%Z false
         ++ calls env_abc (api_url "http://h:8080" "u" "p") 20%Z false
  /\ (forall D c, D ∈ drop 3 (Main.generate_endpoints "h") ->
        c ∈ drop (length (requests_log w0)) (requests_log out.2) ->
        c.2 <> api_url D "u" "p").
Proof.
  apply (fetch_player_api_first_success env_abc "h" "u" "p" 20%Z w0
           "http://h" "http://h:80" "http://h:8080"
           (drop 3 (Main.generate_endpoints "h"))
           (Exn ConnectionError (py "refused")) (py "requests")
           not_found (py "requests") account (py "requests") account_json);
    try reflexivity.
  intros path. reflexivity.
Defined.

(** C3 as the specification words it fails for the first candidate: after a
    transport error nothing is written; the only debug file is the one of the
    candidate that answered 404. *)
Lemma fetch_player_api_first_success_counterexample :
  let out := Main.fetch_player_api_robust env_abc "h" "u" "p" 20%Z w0 in
  take 3 (Main.generate_endpoints "h")
    = [py "http://h"; py "http://h:80"; py "http://h:8080"]
  /\ answer env_abc (api_url "http://h" "u" "p") 20%Z false
     = Ret (inr (Exn ConnectionError (py "refused")), py "requests")
  /\ answer env_abc (api_url "http://h:80" "u" "p") 20%Z false
     = Ret (inl not_found, py "requests")
  /\ answer env_abc (api_url "http://h:8080" "u" "p") 20%Z false
     = Ret (inl account, py "requests")
  /\ out.1 = Ret (PlayerOk (api_url "http://h:8080" "u" "p") (py "requests")
                    account_json)
  /\ diagnosed out.2 (api_url "http://h:80" "u" "p")
  /\ ~ diagnosed out.2 (api_url "http://h" "u" "p").
Proof.
  intros out.
  assert (Hfiles : files out.2
    = <[debug_path Main.DATA_DIR 1700000000%N "player_api_non200"
        := debug_content (api_url "http://h:80" "u" "p") (text not_found)]> ∅).
  { subst out. unfold Main.fetch_player_api_robust, fetch_player_api_robust.
    assert (Hgen : Main.generate_endpoints "h"
                   = py "http://h" :: py "http://h:80" :: py "http://h:8080"
                       :: drop 3 (Main.generate_endpoints "h"))
      by (vm_compute; reflexivity).
    rewrite Hgen.
    rewrite (player_api_scenario env_abc "u" "p" 20%Z (fun _ => eq_refl)
               "http://h" "http://h:80" "http://h:8080" _ w0
               (Exn ConnectionError (py "refused")) (py "requests")
               not_found (py "requests") account (py "requests") account_json);
      done. }
  split; [reflexivity|]. split; [reflexivity|]. split; [reflexivity|].
  split; [reflexivity|]. split; [reflexivity|]. split.
  - eexists _, _. split.
    + rewrite Hfiles. apply lookup_insert_eq.
    + vm_compute. reflexivity.
  - intros (path & content & Hl & Hs). rewrite Hfiles in Hl.
    apply lookup_insert_Some in Hl as [[_ <-]|[_ Hl]].
    + vm_compute in Hs. discriminate Hs.
    + by rewrite lookup_empty in Hl.
Qed.
(* ===================================================================== *)
(** ** Probe engine: playlist fetch *)
(* ===================================================================== *)

(** *** Debug file names *)

Lemma pretty_N_go_chars (P : ascii -> Prop) (x : N) (s : string) :
  (forall d, P (pretty_N_char d)) ->
  Forall P (py s) -> Forall P (py (pretty_N_go x s)).
Proof.
  intros Hd. revert s. induction (N.lt_wf_0 x) as [x _ IH]. intros s Hs.
  destruct (decide (x = 0%N)) as [->|Hx].
  - by rewrite pretty_N_go_0.
  - rewrite pretty_N_go_step by lia. apply IH.
    + apply N.div_lt; lia.
    + cbn. constructor; [apply Hd|exact Hs].
Qed.

Lemma decimal_no_space (n : N) : " "%char ∉ decimal n.
Proof.
  apply Forall_not_elem. unfold decimal, pretty, pretty_N.
  destruct (decide (n = 0%N)); [repeat constructor; done|].
  apply pretty_N_go_chars; [|constructor].
  intros d. unfold pretty_N_char. repeat case_match; done.
Qed.

Lemma py_inj (s t : string) : py s = py t -> s = t.
Proof.
  intros H. rewrite <- (string_of_list_ascii_of_string s),
    <- (string_of_list_ascii_of_string t). unfold py in H. by rewrite H.
Qed.

Lemma decimal_inj (m n : N) : decimal m = decimal n -> m = n.
Proof. intros H%py_inj. by apply (inj pretty). Qed.

(** Two readings of the clock give the same debug file name for a label
    only when they are the same second. *)
Lemma debug_path_inj (D name : str) (t1 t2 : N) :
  debug_path D t1 name = debug_path D t2 name -> t1 = t2.
Proof.
  unfold debug_path. intros H. apply app_inv_head in H.
  apply app_inv_head in H. unfold replace_char in H.
  rewrite !map_app in H. apply app_inv_tail in H.
  fold (replace_char " " "_" (decimal t1)) in H.
  fold (replace_char " " "_" (decimal t2)) in H.
  rewrite !replace_char_id in H by apply decimal_no_space.
  by apply decimal_inj.
Qed.

(** *** The loop *)

Section Playlist.

Variable E : env.
Variables username password m3u_type : str.
Variable timeout : Z.
Hypothesis Hdisk : disk_accepts E.

Local Abbreviation loop :=
  (playlist_loop E Main.DATA_DIR (Main.request_with_client E)
     username password m3u_type timeout).

(** A status-200 body without the marker is saved, and the loop moves on. *)
Lemma playlist_step_nonm3u (base : str) (rest : list str) (w : world) :
  nonm3u_candidate E username password m3u_type timeout base ->
  loop (base :: rest) w
  = loop rest (nonm3u_step E username password m3u_type timeout w base).
Proof.
  intros (r & client & body & Ha & Hs & Hb & Hm).
  cbn [playlist_loop].
  change (base ++ _ ++ username ++ _ ++ password ++ _ ++ m3u_type)
    with (playlist_url base username password m3u_type).
  unfold mbind at 1. rewrite request_with_client_run, Ha. cbn [fst snd].
  rewrite Hs. cbn [Z.eqb Pos.eqb negb].
  unfold mbind at 1, try_except_Exception, mbind at 1, lift.
  rewrite Hb, Hm. unfold mbind at 1.
  rewrite save_debug_response_run by done.
  unfold mret. unfold nonm3u_step, playlist_body. by rewrite Ha, Hb.
Qed.

Lemma playlist_all_nonm3u (endpoints : list str) (w : world) :
  Forall (nonm3u_candidate E username password m3u_type timeout) endpoints ->
  loop endpoints w
  = (Ret PlaylistFailed,
     foldl (nonm3u_step E username password m3u_type timeout) w endpoints).
Proof.
  intros H. revert w. induction H as [|base rest Hb Hrest IH]; intros w.
  - reflexivity.
  - rewrite playlist_step_nonm3u by done. apply IH.
Qed.

Lemma nonm3u_fold_clock (endpoints : list str) (w : world) :
  clock_reads (foldl (nonm3u_step E username password m3u_type timeout) w endpoints)
  = clock_reads w + length endpoints.
Proof.
  revert w. induction endpoints as [|base rest IH]; intros w; cbn [foldl length].
  - lia.
  - rewrite IH. unfold nonm3u_step, with_debug_file, with_requests. cbn. lia.
Qed.

(** Saves in different seconds, to names not yet in use, add one file each. *)
Lemma nonm3u_fold_size (endpoints : list str) (w : world) :
  NoDup (map (clock E) (seq (clock_reads w) (length endpoints))) ->
  (forall k, k < length endpoints ->
     files w !! debug_path Main.DATA_DIR (clock E (clock_reads w + k))
                  "playlist_nonm3u" = None) ->
  size (files (foldl (nonm3u_step E username password m3u_type timeout) w endpoints))
  = size (files w) + length endpoints.
Proof.
  revert w. induction endpoints as [|base rest IH]; intros w Hnd Hfresh;
    cbn [foldl length].
  - lia.
  - cbn [length seq map] in Hnd. apply NoDup_cons in Hnd as [Hhd Hnd].
    rewrite IH.
    + unfold nonm3u_step, with_debug_file, with_requests. cbn [files clock_reads].
      rewrite map_size_insert_None; [lia|].
      specialize (Hfresh 0). rewrite Nat.add_0_r in Hfresh. apply Hfresh.
      cbn. lia.
    + exact Hnd.
    + intros k Hk.
      unfold nonm3u_step, with_debug_file, with_requests. cbn [files clock_reads].
      rewrite lookup_insert_ne.
      * replace (S (clock_reads w) + k) with (clock_reads w + S k) by lia.
        apply Hfresh. cbn. lia.
      * intros Heq%debug_path_inj. apply Hhd.
        rewrite Heq. apply list_elem_of_fmap. exists (S (clock_reads w) + k).
        split; [done|]. apply elem_of_seq. lia.
Qed.

End Playlist.

(** C4 (as amended): when every candidate answers 200 with a decoded body
    that lacks the marker (matched without regard to case), the fetch fails,
    and for every candidate in turn the body was written to the debug file
    named by the second of the write and the label [playlist_nonm3u]; writes
    in the same second replace one another, and when the writes fall into
    different seconds and meet no existing file, one file per candidate is
    added. *)
Theorem fetch_playlist_all_nonm3u (E : env)
    (addr username password m3u_type : str) (timeout : Z) (w : world) :
  disk_accepts E ->
  Forall (nonm3u_candidate E username password m3u_type timeout)
         (Main.generate_endpoints addr) ->
  let n := length (Main.generate_endpoints addr) in
  let out := Main.fetch_playlist_robust E addr username password m3u_type
               timeout w in
  out.1 = Ret PlaylistFailed
  /\ out.2 = foldl (nonm3u_step E username password m3u_type timeout) w
               (Main.generate_endpoints addr)
  /\ clock_reads out.2 = clock_reads w + n
  /\ (NoDup (map (clock E) (seq (clock_reads w) n)) ->
      (forall k, k < n ->
         files w !! debug_path Main.DATA_DIR (clock E (clock_reads w + k))
                      "playlist_nonm3u" = None) ->
      size (files out.2) = size (files w) + n).
Proof.
  intros Hdisk Hall n out.
  assert (Hout : out = (Ret PlaylistFailed,
            foldl (nonm3u_step E username password m3u_type timeout) w
              (Main.generate_endpoints addr))).
  { subst out. unfold Main.fetch_playlist_robust, fetch_playlist_robust.
    by apply playlist_all_nonm3u. }
  rewrite Hout. cbn [fst snd]. split; [done|]. split; [done|]. split.
  - apply nonm3u_fold_clock.
  - intros Hnd Hfresh. by apply nonm3u_fold_size.
Qed.

Lemma fetch_playlist_all_nonm3u_witness :
  let out := Main.fetch_playlist_robust env_html_slow "h" "u" "p" "m3u_plus"
               20%Z w0 in
  out.1 = Ret PlaylistFailed /\ size (files out.2) = 14.
Proof.
  intros out.
  assert (Hdisk : disk_accepts env_html_slow) by (intros path; reflexivity).
  assert (Hall : Forall (nonm3u_candidate env_html_slow "u" "p" "m3u_plus" 20%Z)
                   (Main.generate_endpoints "h")).
  { apply Forall_forall. intros base _.
    exists html_page, (py "requests"), (py "<html>"). repeat split; reflexivity. }
  destruct (fetch_playlist_all_nonm3u env_html_slow "h" "u" "p" "m3u_plus" 20%Z
              w0 Hdisk Hall) as (H1 & _ & _ & H4).
  split; [exact H1|].
  apply H4.
  - apply (bool_decide_unpack _). vm_compute. exact I.
  - intros k _. apply lookup_empty.
Defined.

(** C4 as the specification words it fails when the candidates answer within
    one second: all fourteen bodies go to the same file name, and one debug
    file exists at the end, not one per candidate. *)
Lemma fetch_playlist_all_nonm3u_counterexample :
  let out := Main.fetch_playlist_robust env_html "h" "u" "p" "m3u_plus" 20%Z w0 in
  Forall (nonm3u_candidate env_html "u" "p" "m3u_plus" 20%Z)
         (Main.generate_endpoints "h")
  /\ length (Main.generate_endpoints "h") = 14
  /\ out.1 = Ret PlaylistFailed
  /\ length (requests_log out.2) = 14
  /\ size (files out.2) = 1.
Proof.
  intros out. split.
  - apply Forall_forall. intros base _.
    exists html_page, (py "requests"), (py "<html>"). repeat split; reflexivity.
  - repeat split; vm_compute; reflexivity.
Qed.
(* ===================================================================== *)
(** ** Refreshing a saved server *)
(* ===================================================================== *)

Section Refresh.

Variable E : env.
Variable D : str.
Variable gen : str -> list str.
Variable req : str -> Z -> bool -> M ((response + exn) * str).

Lemma load_servers_run (w : world) (servers : list server) :
  servers_file w = Some servers -> load_servers E D w = (Ret servers, w).
Proof.
  intros H. unfold load_servers, mbind, ensure_dirs. rewrite H. cbn.
  by rewrite H.
Qed.

Lemma save_servers_run (w : world) (servers : list server) :
  disk_ok E (SERVERS_FILE D) = true ->
  save_servers E D servers w
  = (Ret tt,
     {| requests_log := requests_log w; files := files w;
        clock_reads := clock_reads w; servers_file := Some servers |}).
Proof.
  intros Hd. unfold save_servers, mbind, ensure_dirs, write_servers.
  destruct (servers_file w); cbn; by rewrite ?Hd.
Qed.

Lemma marked_failed_frame (w1 : world) (s : server) (key : str) :
  key <> py "last_endpoint" -> key <> py "last_client" ->
  key <> py "last_check" -> marked_failed E w1 s !! key = s !! key.
Proof.
  intros H1 H2 H3. unfold marked_failed.
  by rewrite !lookup_insert_ne.
Qed.

(** The failure branch of [refresh_server]. *)
Lemma refresh_server_failed (idx : nat) (w : world) (servers : list server)
    (s : server) (server_url : str)
    (tried : list (str * (response + exn) * str)) :
  disk_ok E (SERVERS_FILE D) = true ->
  servers_file w = Some servers ->
  servers !! idx = Some s ->
  s !! py "server_url" = Some (JStr server_url) ->
  (fetch_player_api_robust E D gen req server_url (formatted E s "username")
     (formatted E s "password") DEFAULT_TIMEOUT w).1
  = Ret (PlayerFailed tried) ->
  failure_recorded E idx servers s
    (fetch_player_api_robust E D gen req server_url (formatted E s "username")
       (formatted E s "password") DEFAULT_TIMEOUT w).2
    (refresh_server E D gen req idx w).
Proof.
  intros Hd Hfile Hidx Hurl Hfetch.
  unfold refresh_server. unfold mbind at 1.
  rewrite (load_servers_run w servers Hfile), Hidx, Hurl.
  unfold mbind at 1.
  destruct (fetch_player_api_robust E D gen req server_url _ _ _ w)
    as [res w1] eqn:Ef.
  cbn [fst snd] in Hfetch |- *. subst res.
  unfold mbind, now. rewrite save_servers_run by done.
  fold (marked_failed E w1 s).
  unfold failure_recorded. cbn [fst snd servers_file files requests_log].
  split; [done|]. split.
  { eexists. split; [done|]. split; [apply length_insert|]. split.
    - apply list_lookup_insert_eq. by eapply lookup_lt_Some.
    - intros j Hj. by apply list_lookup_insert_ne. }
  unfold marked_failed at 1 2 3.
  split; [by rewrite !lookup_insert_ne, lookup_insert_eq by done|].
  split; [by rewrite lookup_insert_ne, lookup_insert_eq by done|].
  split; [by rewrite lookup_insert_eq|].
  split; [apply marked_failed_frame|done].
Qed.

End Refresh.

(** C10: when [fetch_player_api_robust] reports failure during
    [refresh_server] (main.py and xtream.py alike), the selected record gets
    [last_endpoint = None], [last_client = None] and [last_check] = the time
    read after the fetch; every other field of the record and every other
    record of the store are unchanged, and the store is saved. *)
Theorem refresh_server_failure_frame (E : env) (idx : nat) (w : world)
    (servers : list server) (s : server) (server_url : str) :
  servers_file w = Some servers ->
  servers !! idx = Some s ->
  s !! py "server_url" = Some (JStr server_url) ->
  (forall tried,
     disk_ok E (SERVERS_FILE Main.DATA_DIR) = true ->
     (Main.fetch_player_api_robust E server_url (formatted E s "username")
        (formatted E s "password") DEFAULT_TIMEOUT w).1
     = Ret (PlayerFailed tried) ->
     failure_recorded E idx servers s
       (Main.fetch_player_api_robust E server_url (formatted E s "username")
          (formatted E s "password") DEFAULT_TIMEOUT w).2
       (Main.refresh_server E idx w))
  /\ (forall tried,
        disk_ok E (SERVERS_FILE Xtream.DATA_DIR) = true ->
        (Xtream.fetch_player_api_robust E server_url (formatted E s "username")
           (formatted E s "password") DEFAULT_TIMEOUT w).1
        = Ret (PlayerFailed tried) ->
        failure_recorded E idx servers s
          (Xtream.fetch_player_api_robust E server_url (formatted E s "username")
             (formatted E s "password") DEFAULT_TIMEOUT w).2
          (Xtream.refresh_server E idx w)).
Proof.
  intros Hfile Hidx Hurl. split; intros tried Hd Hfetch.
  - by apply (refresh_server_failed E Main.DATA_DIR Main.generate_endpoints
                (Main.request_with_client E) idx w servers s server_url tried).
  - by apply (refresh_server_failed E Xtream.DATA_DIR Xtream.generate_endpoints
                (fun endpoint timeout _ => Xtream.request_with_client E endpoint timeout)
                idx w servers s server_url tried).
Qed.

Lemma refresh_server_failure_frame_witness :
  failure_recorded env_failing 1 [server_other; server_h] server_h
    (Main.fetch_player_api_robust env_failing "h" "u" "p" DEFAULT_TIMEOUT
       world_two_servers).2
    (Main.refresh_server env_failing 1 world_two_servers).
Proof.
  eapply (proj1 (refresh_server_failure_frame env_failing 1 world_two_servers
                   [server_other; server_h] server_h "h"
                   eq_refl eq_refl eq_refl)).
  - reflexivity.
  - vm_compute. reflexivity.
Defined.

(** The second record is marked, the first one is as it was. *)
Example refresh_server_two_servers :
  let out := Main.refresh_server env_failing 1 world_two_servers in
  out.1 = Ret tt
  /\ (default [] (servers_file out.2) !! 0) = Some server_other
  /\ (default [] (servers_file out.2) !! 1 ≫= (.!! py "last_endpoint"))
     = Some JNull
  /\ (default [] (servers_file out.2) !! 1 ≫= (.!! py "created_at"))
     = Some (JInt 1690000000%Z)
  /\ length (requests_log out.2) = 28.
Proof. repeat split; vm_compute; reflexivity. Qed.
(* ===================================================================== *)
(** ** Endpoint generator: every address *)
(* ===================================================================== *)

Lemma trimmed_last (addr : str) : last (trimmed addr) <> Some "/"%char.
Proof. apply rstrip_slash_last. Qed.

(** An address with a scheme prefix has a host: the trimmed text cannot end
    with the slashes of the prefix. *)
Lemma scheme_host_nonempty (s : str) :
  last s <> Some "/"%char -> has_http_scheme s = true -> host_portion s <> [].
Proof.
  intros Hl Hs Hh. unfold has_http_scheme in Hs. unfold host_portion in Hh.
  destruct (startswith "http://" s) eqn:H1.
  - apply startswith_drop in H1.
    change (length (py "http://")) with 7 in H1.
    rewrite Hh, app_nil_r in H1. by subst s.
  - destruct (startswith "https://" s) eqn:H2; [|done].
    apply startswith_drop in H2.
    change (length (py "https://")) with 8 in H2.
    rewrite Hh, app_nil_r in H2. by subst s.
Qed.

Lemma with_ports_NoDup (scheme host : str) : NoDup (with_ports scheme host).
Proof.
  apply NoDup_fmap_2; [|apply common_ports_NoDup]. intros p q Hpq.
  by simplify_list_eq.
Qed.

Lemma with_ports_fixed (scheme host : str) :
  host <> [] -> last host <> Some "/"%char ->
  map (fun p : str => rstrip "/" (scheme ++ py "://" ++ host ++ p)) common_ports
  = with_ports scheme host.
Proof.
  intros Hh Hl. unfold with_ports.
  apply map_ext_in; intros p Hp%list_elem_of_In%common_ports_last.
  by apply candidate_fixed.
Qed.

(** The candidates of a host without a detected port. *)
Lemma all_candidates_ports (addr : str) :
  host_portion (trimmed addr) <> [] ->
  port_detected (host_portion (trimmed addr)) = false ->
  all_candidates addr
  = with_ports (given_scheme (trimmed addr)) (host_portion (trimmed addr))
    ++ with_ports (other_scheme (given_scheme (trimmed addr)))
         (host_portion (trimmed addr)).
Proof.
  intros Hne Hport. unfold all_candidates. cbv zeta. rewrite Hport.
  cbn [flat_map]. rewrite app_nil_r.
  assert (Hl : last (host_portion (trimmed addr)) <> Some "/"%char).
  { rewrite host_portion_last by done. apply trimmed_last. }
  by rewrite !with_ports_fixed.
Qed.

Lemma all_candidates_port (addr : str) :
  port_detected (host_portion (trimmed addr)) = true ->
  all_candidates addr
  = [given_scheme (trimmed addr) ++ py "://" ++ host_portion (trimmed addr);
     other_scheme (given_scheme (trimmed addr)) ++ py "://"
       ++ host_portion (trimmed addr)].
Proof.
  intros Hport. unfold all_candidates. cbv zeta. rewrite Hport.
  cbn [flat_map map]. rewrite !app_nil_r.
  assert (Hne : host_portion (trimmed addr) <> []).
  { apply andb_true_iff in Hport as [Hc _]. by apply (contains_nonempty ":"). }
  assert (Hl : last (host_portion (trimmed addr)) <> Some "/"%char).
  { rewrite host_portion_last by done. apply trimmed_last. }
  pose proof (candidate_fixed (given_scheme (trimmed addr)) _ [] Hne Hl) as H1.
  pose proof (candidate_fixed (other_scheme (given_scheme (trimmed addr))) _ []
                Hne Hl) as H2.
  rewrite !app_nil_r in H1, H2. by rewrite H1, H2.
Qed.

Lemma all_candidates_NoDup (addr : str) : NoDup (all_candidates addr).
Proof.
  destruct (port_detected (host_portion (trimmed addr))) eqn:Hport.
  - rewrite all_candidates_port by done.
    apply NoDup_cons. split; [|apply NoDup_singleton].
    rewrite list_elem_of_singleton.
    pose proof (scheme_variants_differ (trimmed addr)
                  (host_portion (trimmed addr)) [] []) as Hd.
    by rewrite !app_nil_r in Hd.
  - destruct (decide (host_portion (trimmed addr) = [])) as [Hh|Hne].
    + assert (Hs : has_http_scheme (trimmed addr) = false).
      { destruct (has_http_scheme (trimmed addr)) eqn:Hs; [|done].
        by destruct (scheme_host_nonempty _ (trimmed_last addr) Hs). }
      destruct (no_scheme_host _ Hs) as [Hhost Hg].
      unfold all_candidates. cbv zeta. rewrite Hport, Hg, Hh.
      change (other_scheme (py "http")) with (py "https").
      rewrite candidates_as_map. apply cross_empty_NoDup.
    + rewrite all_candidates_ports by done.
      apply NoDup_app. split; [apply with_ports_NoDup|].
      split; [|apply with_ports_NoDup].
      intros x [p [-> _]]%list_elem_of_fmap [q [Hq _]]%list_elem_of_fmap.
      by apply scheme_variants_differ in Hq.
Qed.

Lemma all_candidates_length (addr : str) :
  length (all_candidates addr)
  = if port_detected (host_portion (trimmed addr)) then 2 else 14.
Proof.
  unfold all_candidates. cbv zeta.
  by destruct (port_detected (host_portion (trimmed addr))).
Qed.

Lemma generate_endpoints_all (addr : str) :
  Main.generate_endpoints addr = all_candidates addr.
Proof.
  rewrite generate_endpoints_unfold. cbv zeta. fold (all_candidates addr).
  apply uniq_loop_NoDup, all_candidates_NoDup.
Qed.

(** X1: for every address, the de-duplication loop of [generate_endpoints]
    removes nothing: the result is the full list of candidates, 2 of them
    when the host is found to carry a port and 14 otherwise, pairwise
    different and none ending with a slash.  In particular the list is never
    empty, not even for the empty address. *)
Theorem generate_endpoints_complete (addr : str) :
  Main.generate_endpoints addr = all_candidates addr
  /\ length (Main.generate_endpoints addr)
     = (if port_detected (host_portion (trimmed addr)) then 2 else 14)
  /\ NoDup (Main.generate_endpoints addr)
  /\ Forall (fun u => ends_with_slash u = false) (Main.generate_endpoints addr).
Proof.
  rewrite generate_endpoints_all. split; [done|].
  split; [apply all_candidates_length|]. split; [apply all_candidates_NoDup|].
  unfold all_candidates. cbv zeta. apply Forall_forall. intros u Hu.
  apply list_elem_of_In, in_flat_map in Hu as (scheme & _ & Hu).
  apply in_map_iff in Hu as (p & <- & _).
  unfold ends_with_slash. apply bool_decide_eq_false_2, rstrip_slash_last.
Qed.

(** X2: an address that begins with [http://] or [https://] and whose host
    carries no port yields the seven port variants under the scheme given,
    followed by the seven under the other scheme. *)
Theorem generate_endpoints_given_scheme_first (addr : str) :
  has_http_scheme (trimmed addr) = true ->
  port_detected (host_portion (trimmed addr)) = false ->
  Main.generate_endpoints addr
  = with_ports (given_scheme (trimmed addr)) (host_portion (trimmed addr))
    ++ with_ports (other_scheme (given_scheme (trimmed addr)))
         (host_portion (trimmed addr)).
Proof.
  intros Hs Hport. rewrite generate_endpoints_all.
  apply all_candidates_ports; [|done].
  by apply scheme_host_nonempty; [apply trimmed_last|].
Qed.

Lemma generate_endpoints_given_scheme_first_witness :
  Main.generate_endpoints " https://example.com/ "
  = with_ports "https" "example.com" ++ with_ports "http" "example.com".
Proof.
  exact (generate_endpoints_given_scheme_first " https://example.com/ "
           eq_refl eq_refl).
Defined.

Lemma trimmed_fixed (x : str) :
  strip x = x -> last x <> Some "/"%char -> trimmed x = x.
Proof.
  intros Hs Hl. unfold trimmed. rewrite Hs. by apply rstrip_slash_fixed.
Qed.

Lemma strip_prefix_fixed (pre x : str) (c : ascii) (r : str) :
  pre = c :: r -> is_space c = false -> x <> [] -> strip x = x ->
  strip (pre ++ x) = pre ++ x.
Proof.
  intros -> Hc Hne Hx. apply strip_fixed.
  - cbn. by intros ? [= <-].
  - intros d Hd. rewrite last_app_nonempty in Hd by done.
    apply (strip_last x). by rewrite Hx.
Qed.

(** X3: for a non-empty address without surrounding blanks, without a
    trailing slash and without a scheme, writing [http://] in front
    of it changes nothing, and writing [https://] in front of it yields the
    same candidates with the https ones first. *)
Theorem generate_endpoints_scheme_prefix (x : str) :
  strip x = x -> last x <> Some "/"%char -> x <> [] ->
  has_http_scheme x = false ->
  Main.generate_endpoints (py "http://" ++ x) = Main.generate_endpoints x
  /\ Main.generate_endpoints (py "https://" ++ x)
     ≡ₚ Main.generate_endpoints x.
Proof.
  intros Hs Hl Hne Hsch.
  assert (Ht : trimmed x = x) by (by apply trimmed_fixed).
  assert (T1 : trimmed (py "http://" ++ x) = py "http://" ++ x).
  { apply trimmed_fixed.
    - by apply (strip_prefix_fixed _ x "h"%char (py "ttp://")).
    - by rewrite last_app_nonempty. }
  assert (T2 : trimmed (py "https://" ++ x) = py "https://" ++ x).
  { apply trimmed_fixed.
    - by apply (strip_prefix_fixed _ x "h"%char (py "ttps://")).
    - by rewrite last_app_nonempty. }
  destruct (no_scheme_host _ Hsch) as [Hhost Hg].
  rewrite !generate_endpoints_all. unfold all_candidates. cbv zeta.
  rewrite T1, T2, Ht, Hhost, Hg.
  change (host_portion (py "http://" ++ x)) with x.
  change (given_scheme (py "http://" ++ x)) with (py "http").
  change (given_scheme (py "https://" ++ x)) with (py "https").
  replace (host_portion (py "https://" ++ x)) with x by reflexivity.
  split; [done|].
  change (other_scheme (py "https")) with (py "http").
  change (other_scheme (py "http")) with (py "https").
  cbn [flat_map]. rewrite !app_nil_r. apply Permutation_app_comm.
Qed.

Lemma generate_endpoints_scheme_prefix_witness :
  Main.generate_endpoints "http://example.com" = Main.generate_endpoints "example.com"
  /\ Main.generate_endpoints "https://example.com"
     ≡ₚ Main.generate_endpoints "example.com".
Proof.
  apply (generate_endpoints_scheme_prefix "example.com"); try reflexivity;
    discriminate.
Defined.
(* ===================================================================== *)
(** ** Playlist codec: what the parser returns, and writing it again *)
(* ===================================================================== *)

Lemma is_extinf_strip (l : str) : is_extinf (strip l) = is_extinf l.
Proof. unfold is_extinf. by rewrite strip_idem. Qed.

Lemma parse_lines_wf (lines : list str) :
  Forall no_linebreak lines -> Forall channel_wf (parse_lines lines).
Proof.
  remember (length lines) as n eqn:Hn. revert lines Hn.
  induction (lt_wf n) as [n _ IH]. intros lines -> Hl.
  destruct lines as [|l rest]; [rewrite parse_lines_nil; constructor|].
  apply Forall_cons_1 in Hl as [Hl Hrest].
  assert (Hnext : Forall channel_wf (parse_lines rest)).
  { apply (IH (length rest)); [simpl; lia|done..]. }
  rewrite parse_lines_cons.
  destruct (bool_decide (strip l = [])); [done|].
  destruct (is_extinf l) eqn:He; [|done].
  assert (Hln : no_linebreak (strip l)) by (by apply strip_Forall).
  apply Forall_cons_2.
  - destruct (make_channel_shape (strip l) (url_after rest) Hln)
      as (d & a & t & E & Hd & Ha & Hnd & Ht & Htl).
    exists d, a, t, (url_after rest), (strip l).
    split; [done|]. split; [done|]. split; [done|]. split; [done|].
    split; [done|]. split; [done|]. split.
    { destruct (url_after_cases rest Hrest) as [[-> _]|Hgood]; [by left|by right]. }
    split; [apply strip_idem|]. split; [by rewrite is_extinf_strip|done].
  - apply (IH (length (skip_url rest))); [|done|by apply skip_url_Forall].
    pose proof (skip_url_length rest). simpl. lia.
Qed.

(** X4: every channel [parse_m3u_to_json] returns, for any text, has all
    five keys; its duration consists of digits and minus signs; its attribute
    keys are pairwise different, not empty and made of letters, digits,
    hyphens and underscores; its attribute values hold no double quote, no
    comma and no line break; its title has no blank at either end; its URL
    is empty or a stripped line that does not start with [#]; and its
    [raw_extinf] is a stripped line that starts with [#EXTINF] in any letter
    case. *)
Theorem parse_m3u_to_json_wf (text : str) :
  Forall channel_wf (parse_m3u_to_json text).
Proof.
  rewrite parse_m3u_to_json_lines. apply parse_lines_wf, splitlines_no_linebreak.
Qed.

Lemma filter_drop_length {A : Type} (p : A -> bool) (k : nat) (l : list A) :
  length (List.filter p (drop k l)) <= length (List.filter p l).
Proof.
  revert k. induction l as [|x l IH]; intros k; [by rewrite drop_nil|].
  destruct k as [|k]; [done|]. cbn [drop List.filter].
  specialize (IH k). destruct (p x); cbn [length]; lia.
Qed.

Lemma parse_lines_count (lines : list str) :
  length (parse_lines lines) <= length (List.filter is_extinf lines)
  /\ (List.filter is_extinf lines <> [] -> parse_lines lines <> []).
Proof.
  remember (length lines) as n eqn:Hn. revert lines Hn.
  induction (lt_wf n) as [n _ IH]. intros lines ->.
  destruct lines as [|l rest]; [by rewrite parse_lines_nil|].
  destruct (IH (length rest) ltac:(simpl; lia) rest eq_refl) as [IH1 IH2].
  rewrite parse_lines_cons. cbn [List.filter].
  destruct (bool_decide (strip l = [])) eqn:Hb.
  - apply bool_decide_eq_true_1 in Hb.
    assert (He : is_extinf l = false) by (unfold is_extinf; by rewrite Hb).
    by rewrite He.
  - destruct (is_extinf l); [|done]. split; [|done]. cbn [length].
    assert (Hlt : length (skip_url rest) < length (l :: rest)).
    { pose proof (skip_url_length rest). simpl. lia. }
    destruct (IH _ Hlt (skip_url rest) eq_refl) as [IH3 _].
    pose proof (filter_drop_length is_extinf
                  ((scan_url_from rest 0).2 + 1) rest) as Hd.
    fold (skip_url rest) in Hd. lia.
Qed.

(** X5: [parse_m3u_to_json] returns at most one channel per [#EXTINF] line
    of the text, and it returns no channel exactly when the text has
    no [#EXTINF] line (the empty text, or a text of URLs and comments
    only). *)
Theorem parse_m3u_to_json_count (text : str) :
  length (parse_m3u_to_json text) <= length (extinf_lines text)
  /\ (parse_m3u_to_json text = [] <-> extinf_lines text = []).
Proof.
  rewrite parse_m3u_to_json_lines. unfold extinf_lines.
  destruct (parse_lines_count (splitlines text)) as [H1 H2].
  split; [done|]. split.
  - intros H. destruct (List.filter is_extinf (splitlines text)); [done|].
    by destruct H2.
  - intros H. rewrite H in H1.
    destruct (parse_lines (splitlines text)); [done|]. cbn in H1. lia.
Qed.

Lemma parser_output_urls (cs : list channel) :
  parser_output cs ->
  forall i ch, cs !! i = Some ch -> S i < length cs -> has_url ch.
Proof.
  induction 1 as [|ln Hl|ln u cs Hl Hu Hcs IH]; intros i ch Hi Hlt.
  - done.
  - cbn in Hlt. lia.
  - destruct i as [|i].
    + injection Hi as <-. exists u. by rewrite make_channel_url.
    + apply (IH i); [done|]. cbn in Hlt. lia.
Qed.

(** X6: in the list [parse_m3u_to_json] returns, only the last channel can
    be without a URL: every earlier one has the stripped, non-blank line
    that does not start with [#] which the parser found for it. *)
Theorem parse_m3u_to_json_urls (text : str) (i : nat) (ch : channel) :
  parse_m3u_to_json text !! i = Some ch ->
  S i < length (parse_m3u_to_json text) ->
  has_url ch.
Proof.
  apply parser_output_urls. rewrite parse_m3u_to_json_lines.
  apply parse_lines_output, splitlines_no_linebreak.
Qed.

Lemma parse_m3u_to_json_urls_witness :
  has_url (Channel (Some (py "A")) (Some (py "-1")) (Some [])
             (Some (py "http://a")) (Some (py "#EXTINF:-1,A"))).
Proof.
  apply (parse_m3u_to_json_urls
           (py "#EXTINF:-1,A" ++ newline ++ py "http://a" ++ newline
              ++ py "#EXTINF:-1,B" ++ newline) 0).
  - vm_compute. reflexivity.
  - vm_compute. lia.
Defined.

(** *** Lines the parser never looks at *)

Lemma ignorable_passed_over (l : str) : ignorable l = true -> passed_over l = true.
Proof.
  unfold ignorable, passed_over.
  destruct (bool_decide (strip l = [])); [done|]. cbn [orb].
  by intros [-> _]%andb_true_iff.
Qed.

Lemma url_after_significant (rest : list str) :
  url_after (List.filter (fun l => negb (ignorable l)) rest) = url_after rest.
Proof.
  induction rest as [|l rest IH]; [done|]. cbn [List.filter].
  destruct (ignorable l) eqn:Hi; cbn [negb].
  - rewrite (url_after_cons l rest), (ignorable_passed_over l Hi). exact IH.
  - rewrite !url_after_cons. by rewrite IH.
Qed.

Lemma skip_url_significant (rest : list str) :
  skip_url (List.filter (fun l => negb (ignorable l)) rest)
  = List.filter (fun l => negb (ignorable l)) (skip_url rest).
Proof.
  induction rest as [|l rest IH]; [done|]. cbn [List.filter].
  destruct (ignorable l) eqn:Hi; cbn [negb].
  - rewrite (skip_url_cons l rest), (ignorable_passed_over l Hi). exact IH.
  - rewrite !skip_url_cons. by destruct (passed_over l).
Qed.

Lemma parse_lines_significant (lines : list str) :
  parse_lines (List.filter (fun l => negb (ignorable l)) lines) = parse_lines lines.
Proof.
  remember (length lines) as n eqn:Hn. revert lines Hn.
  induction (lt_wf n) as [n _ IH]. intros lines ->.
  destruct lines as [|l rest]; [done|].
  assert (Hrest : parse_lines (List.filter (fun l => negb (ignorable l)) rest)
                  = parse_lines rest).
  { apply (IH (length rest)); [simpl; lia|done]. }
  cbn [List.filter]. rewrite (parse_lines_cons l rest). unfold ignorable at 1.
  destruct (bool_decide (strip l = [])) eqn:Hb; cbn [orb negb]; [exact Hrest|].
  destruct (is_extinf l) eqn:He; cbn [negb andb].
  - rewrite andb_false_r. cbn [negb].
    rewrite parse_lines_cons, Hb, He, url_after_significant, skip_url_significant.
    f_equal. apply (IH (length (skip_url rest))); [|done].
    pose proof (skip_url_length rest). simpl. lia.
  - rewrite andb_true_r. destruct (startswith "#" (strip l)); cbn [negb];
      [exact Hrest|].
    by rewrite parse_lines_cons, Hb, He.
Qed.

(** X12: blank lines and comment lines other than [#EXTINF] lines never
    matter to [parse_m3u_to_json]: two texts that have the same lines once
    those are left out parse to the same channels, [raw_extinf] included.
    In particular the [#EXTM3U] header line is not needed. *)
Theorem parse_m3u_to_json_significant (text text' : str) :
  significant_lines text = significant_lines text' ->
  parse_m3u_to_json text = parse_m3u_to_json text'.
Proof.
  unfold significant_lines. intros H. rewrite !parse_m3u_to_json_lines.
  rewrite <- (parse_lines_significant (splitlines text)), H.
  apply parse_lines_significant.
Qed.

Lemma parse_m3u_to_json_significant_witness :
  parse_m3u_to_json scenario_text_commented = parse_m3u_to_json scenario_text.
Proof.
  apply parse_m3u_to_json_significant. vm_compute. reflexivity.
Defined.

(** *** Writing any selection of parsed channels *)

Lemma parser_output_sublist (cs cs' : list channel) :
  parser_output cs -> sublist cs' cs -> parser_output cs'.
Proof.
  intros H. revert cs'. induction H as [|ln Hl|ln u cs Hl Hu Hcs IH]; intros cs' Hs.
  - apply sublist_nil_r in Hs as ->. constructor.
  - apply sublist_cons_r in Hs as [Hs|(l' & -> & Hs)];
      apply sublist_nil_r in Hs as ->; by constructor.
  - apply sublist_cons_r in Hs as [Hs|(l' & -> & Hs)]; [by apply IH|].
    constructor; [done..|]. by apply IH.
Qed.

Lemma filter_sublist {A : Type} (p : A -> bool) (l : list A) :
  sublist (List.filter p l) l.
Proof.
  induction l as [|x l IH]; [constructor|]. cbn [List.filter].
  destruct (p x); by constructor.
Qed.

Lemma filter_channels_filter (channels : list channel) (field keyword : str) :
  filter_channels channels field keyword
  = if bool_decide (keyword = []) then channels
    else List.filter (field_contains field (strip keyword)) channels.
Proof.
  unfold filter_channels. destruct (bool_decide (keyword = [])); [done|].
  cbv zeta. rewrite <- (app_nil_l (List.filter _ _)).
  rewrite <- filter_loop_acc. f_equal.
  unfold field_contains, selected_field.
  destruct (bool_decide (field = py "title")); [done|].
  destruct (bool_decide (field = py "group")); done.
Qed.

Lemma filter_channels_sublist (channels : list channel) (field keyword : str) :
  sublist (filter_channels channels field keyword) channels.
Proof.
  rewrite filter_channels_filter.
  destruct (bool_decide (keyword = [])); [done|apply filter_sublist].
Qed.

Lemma parse_m3u_to_json_output (text : str) : parser_output (parse_m3u_to_json text).
Proof.
  rewrite parse_m3u_to_json_lines. apply parse_lines_output, splitlines_no_linebreak.
Qed.

Lemma written_lines (cs : list channel) :
  parser_output cs ->
  splitlines (m3u_text_of cs) = py "#EXTM3U" :: flat_map channel_lines cs.
Proof.
  intros H. rewrite m3u_text_of_unlines, splitlines_unlines; [done|].
  apply Forall_cons_2; [|by apply parser_output_lines].
  repeat (apply Forall_cons_2; [done|]). constructor.
Qed.

Lemma parse_written (cs : list channel) :
  parser_output cs -> parse_m3u_to_json (m3u_text_of cs) = map reparsed cs.
Proof.
  intros H. rewrite parse_m3u_to_json_lines, written_lines by done.
  by rewrite parse_lines_header_line, parse_lines_written.
Qed.

(** X7: filtering the parsed channels and writing the selection loses
    nothing: for every text, field and keyword, parsing the file that
    [create_m3u_from_channels] writes for
    [filter_channels(parse_m3u_to_json(text), field, keyword)] returns
    exactly the selected channels, with the same duration, title, url and
    attrs, in the same order. *)
Theorem filter_write_parse (text field keyword : str) :
  let selected := filter_channels (parse_m3u_to_json text) field keyword in
  map fields (parse_m3u_to_json (m3u_text_of selected)) = map fields selected.
Proof.
  intros selected.
  assert (H : parser_output selected).
  { apply (parser_output_sublist (parse_m3u_to_json text));
      [apply parse_m3u_to_json_output|apply filter_channels_sublist]. }
  rewrite parse_written by done. by apply fields_written.
Qed.

Lemma channel_lines_fields (ch ch' : channel) :
  fields ch = fields ch' -> channel_lines ch = channel_lines ch'.
Proof.
  destruct ch as [t d a u r], ch' as [t' d' a' u' r'].
  unfold fields. cbn. by intros [= -> -> -> ->].
Qed.

Lemma flat_map_channel_lines (cs cs' : list channel) :
  map fields cs = map fields cs' ->
  flat_map channel_lines cs = flat_map channel_lines cs'.
Proof.
  revert cs'. induction cs as [|ch cs IH]; intros [|ch' cs'] H; try done.
  cbn [map] in H. apply (inj2 cons) in H as [Hf Hr]. cbn [flat_map].
  by rewrite (channel_lines_fields ch ch' Hf), (IH cs' Hr).
Qed.

Lemma m3u_text_of_same_fields (cs cs' : list channel) :
  map fields cs = map fields cs' -> m3u_text_of cs = m3u_text_of cs'.
Proof.
  intros H. rewrite !m3u_text_of_unlines. by rewrite (flat_map_channel_lines cs cs').
Qed.

(** X8: the file [create_m3u_from_channels] writes depends only on the
    duration, title, url and attrs of the channels: [raw_extinf], although
    kept in every record, never reaches the file. *)
Theorem m3u_text_of_fields (cs cs' : list channel) :
  map fields cs = map fields cs' -> m3u_text_of cs = m3u_text_of cs'.
Proof.
  intros H. rewrite !m3u_text_of_unlines. f_equal. f_equal.
  by apply flat_map_channel_lines.
Qed.

Lemma m3u_text_of_fields_witness :
  m3u_text_of [channel_abc]
  = m3u_text_of [Channel (Some (py "abc")) (Some (py "-1")) (Some [])
                   (Some (py "http://x")) None].
Proof.
  apply m3u_text_of_fields. reflexivity.
Defined.

(** X9: a written playlist is a fixed point: for every text, parsing the
    file written for the parsed channels and writing the result again gives
    the same file, character for character. *)
Theorem write_parse_fixed_point (text : str) :
  let written := m3u_text_of (parse_m3u_to_json text) in
  m3u_text_of (parse_m3u_to_json written) = written.
Proof.
  intros written. subst written. apply m3u_text_of_same_fields.
  rewrite parse_written by apply parse_m3u_to_json_output.
  apply fields_written, parse_m3u_to_json_output.
Qed.

(** *** The filter *)

Lemma filter_filter_same {A : Type} (p : A -> bool) (l : list A) :
  List.filter p (List.filter p l) = List.filter p l.
Proof.
  induction l as [|x l IH]; [done|]. cbn [List.filter].
  destruct (p x) eqn:E; [|done]. cbn [List.filter]. by rewrite E, IH.
Qed.

Lemma filter_filter_comm {A : Type} (p q : A -> bool) (l : list A) :
  List.filter p (List.filter q l) = List.filter q (List.filter p l).
Proof.
  induction l as [|x l IH]; [done|]. cbn [List.filter].
  destruct (p x) eqn:Ep, (q x) eqn:Eq; cbn [List.filter];
    rewrite ?Ep, ?Eq, IH; done.
Qed.

(** X10: [filter_channels] selects: its result is a sub-list of the channels
    given (same records, same order); filtering the result again by the same
    field and keyword changes nothing; and two filters can be applied in
    either order. *)
Theorem filter_channels_laws (channels : list channel) (f1 k1 f2 k2 : str) :
  sublist (filter_channels channels f1 k1) channels
  /\ filter_channels (filter_channels channels f1 k1) f1 k1
     = filter_channels channels f1 k1
  /\ filter_channels (filter_channels channels f1 k1) f2 k2
     = filter_channels (filter_channels channels f2 k2) f1 k1.
Proof.
  split; [apply filter_channels_sublist|].
  rewrite !filter_channels_filter.
  destruct (bool_decide (k1 = [])), (bool_decide (k2 = []));
    try done; split; try done.
  - apply filter_filter_same.
  - apply filter_filter_same.
  - apply filter_filter_comm.
Qed.
(* ===================================================================== *)
(** ** HTTP strategy selector and debug files: every case *)
(* ===================================================================== *)

(** X11: one call of [request_with_client] (main.py) changes nothing but
    the list of requests sent: no file, no clock reading, no store.  It asks
    cloudscraper first when it is installed, and [requests] only when
    cloudscraper is absent or raised an [Exception]; so it sends one or two
    requests, all for the endpoint given, and when cloudscraper answers,
    that answer is returned and [requests] is never asked. *)
Theorem request_with_client_frame (E : env) (endpoint : str) (timeout : Z)
    (stream : bool) (w : world) :
  let out := Main.request_with_client E endpoint timeout stream w in
  requests_log out.2 = requests_log w ++ requests_sent E endpoint timeout stream
  /\ files out.2 = files w
  /\ clock_reads out.2 = clock_reads w
  /\ servers_file out.2 = servers_file w
  /\ 1 <= length (requests_sent E endpoint timeout stream) <= 2
  /\ (forall r, has_cloudscraper E = true ->
        scraper_get E endpoint timeout stream = Ret r ->
        out.1 = Ret (inl r, py "cloudscraper")
        /\ requests_sent E endpoint timeout stream = [(py "cloudscraper", endpoint)]).
Proof.
  unfold requests_sent, fell_back, Main.request_with_client, mbind,
    try_except_Exception, client_call, mret.
  destruct w as [lg fs cr sf]. cbn.
  destruct (has_cloudscraper E); cbn.
  - destruct (scraper_get E endpoint timeout stream) as [r|e]; cbn.
    + repeat split; try done; try lia; congruence.
    + destruct (is_Exception e); cbn.
      * destruct (requests_get E endpoint timeout stream) as [r|e2]; cbn.
        -- rewrite <- app_assoc. repeat split; try done; lia.
        -- destruct (is_Exception e2); cbn; rewrite <- app_assoc;
             repeat split; try done; lia.
      * repeat split; try done; lia.
  - destruct (requests_get E endpoint timeout stream) as [r|e2]; cbn.
    + repeat split; try done; lia.
    + destruct (is_Exception e2); cbn; repeat split; try done; lia.
Qed.

(** *** Debug files *)

Lemma replace_char_gone (a b : ascii) (s : str) : a <> b -> a ∉ replace_char a b s.
Proof.
  intros Hab Hin. unfold replace_char in Hin.
  apply list_elem_of_fmap in Hin as (c & Hc & _).
  destruct (bool_decide (c = a)) eqn:E; [done|].
  apply bool_decide_eq_false_1 in E. by subst.
Qed.

Lemma debug_path_no_blank (D name : str) (t : N) :
  exists fname, debug_path D t name = DEBUG_DIR D ++ py "/" ++ fname
                /\ " "%char ∉ fname.
Proof. eexists. split; [reflexivity|]. by apply replace_char_gone. Qed.

Lemma debug_content_bounded (endpoint body : str) :
  debug_content endpoint body
    = debug_header endpoint ++ take (N.to_nat 500000) body
  /\ (length body <= N.to_nat 500000 ->
      debug_content endpoint body = debug_header endpoint ++ body)
  /\ length (debug_content endpoint body)
     <= length (debug_header endpoint) + N.to_nat 500000.
Proof.
  split.
  { unfold debug_content, debug_header. by rewrite <- !app_assoc. }
  split.
  - intros Hl. unfold debug_content, debug_header.
    rewrite firstn_all2 by done. by rewrite <- !app_assoc.
  - unfold debug_content, debug_header. rewrite !length_app, length_take.
    cbn [length]. generalize (N.to_nat 500000). intros n. lia.
Qed.

Lemma ensure_dirs_exists (E : env) (D : str) (w : world) (servers : list server) :
  servers_file w = Some servers -> ensure_dirs E D w = (Ret tt, w).
Proof. intros H. unfold ensure_dirs. by rewrite H. Qed.

(** What a run of [save_debug_response] does once the store exists. *)
Lemma save_debug_response_effect (E : env) (D name endpoint body : str)
    (w : world) (servers : list server) :
  servers_file w = Some servers ->
  let path := debug_path D (clock E (clock_reads w)) name in
  let out := save_debug_response E D name endpoint body w in
  out.1 = Ret (if disk_ok E path then Some path else None)
  /\ clock_reads out.2 = S (clock_reads w)
  /\ requests_log out.2 = requests_log w
  /\ servers_file out.2 = servers_file w
  /\ (disk_ok E path = true ->
      files out.2 = <[path := debug_content endpoint body]> (files w))
  /\ (forall p, p <> path -> files out.2 !! p = files w !! p).
Proof.
  intros Hs path out. subst out path.
  unfold save_debug_response, mbind.
  rewrite (ensure_dirs_exists E D w servers Hs).
  unfold now, try_except_Exception, write_file, mbind, mret. cbn.
  destruct (disk_ok E (debug_path D (clock E (clock_reads w)) name)); cbn.
  - repeat split; try done. intros p Hp. by rewrite lookup_insert_ne.
  - destruct (failed_write E (debug_path D (clock E (clock_reads w)) name)); cbn;
      repeat split; try done.
    intros p Hp. by rewrite lookup_insert_ne.
Qed.

(** X13: whenever [save_debug_response], called with [servers.json] in
    place, returns, it has read the clock once, sent no request and left the
    store alone, and it returns the path of the debug file when the disk took
    the write and [None] when it did not.  When it returns the path, the file
    holds the line naming the endpoint, a blank line and the first 500000
    characters of the body; whether the write went through or not, every
    other file is as it was (the debug file itself may be left empty or
    partly written by a write that fails).  The file lies in the debug
    directory under a name without blanks, whatever the label; a body of at
    most 500000 characters is written whole and no debug file is longer
    than the header and 500000 characters. *)
Theorem save_debug_response_outcome (E : env) (D name endpoint body : str)
    (w : world) (servers : list server) (r : option str) :
  servers_file w = Some servers ->
  let out := save_debug_response E D name endpoint body w in
  let path := debug_path D (clock E (clock_reads w)) name in
  out.1 = Ret r ->
  r = (if disk_ok E path then Some path else None)
  /\ clock_reads out.2 = S (clock_reads w)
  /\ requests_log out.2 = requests_log w
  /\ servers_file out.2 = Some servers
  /\ (r = Some path ->
      files out.2 = <[path := debug_content endpoint body]> (files w))
  /\ (forall p, p <> path -> files out.2 !! p = files w !! p)
  /\ (exists fname, path = DEBUG_DIR D ++ py "/" ++ fname /\ " "%char ∉ fname)
  /\ (length body <= N.to_nat 500000 ->
      debug_content endpoint body = debug_header endpoint ++ body)
  /\ length (debug_content endpoint body)
     <= length (debug_header endpoint) + N.to_nat 500000.
Proof.
  intros Hs out path Hr.
  destruct (debug_content_bounded endpoint body) as (_ & Hc2 & Hc3).
  destruct (save_debug_response_effect E D name endpoint body w servers Hs)
    as (H1 & H2 & H3 & H4 & H5 & H6).
  fold out path in H1, H2, H3, H4, H5, H6.
  rewrite Hr in H1. injection H1 as H1.
  split; [done|]. split; [done|]. split; [done|].
  split; [by rewrite H4|]. split.
  { intros Hp. apply H5. rewrite Hp in H1.
    destruct (disk_ok E path); [done|discriminate]. }
  split; [done|].
  split; [apply debug_path_no_blank|]. split; done.
Qed.

Lemma save_debug_response_outcome_witness :
  files (save_debug_response env_failing Main.DATA_DIR "label" "http://h" "body"
           world_two_servers).2
  = <[debug_path Main.DATA_DIR 1700000000%N "label"
      := debug_content "http://h" "body"]> (files world_two_servers).
Proof.
  pose proof (save_debug_response_outcome env_failing Main.DATA_DIR "label"
                "http://h" "body" world_two_servers _
                (Some (debug_path Main.DATA_DIR 1700000000%N "label"))
                eq_refl eq_refl) as H.
  cbv zeta in H. destruct H as (_ & _ & _ & _ & H & _).
  apply H. reflexivity.
Defined.
(* ===================================================================== *)
(** ** Probe engine: the authentication fetch on every answer *)
(* ===================================================================== *)

Lemma mbind_Ret {A B : Type} (m : M A) (k : A -> M B) (w : world) (b : B) :
  (mbind m k w).1 = Ret b ->
  exists a, (m w).1 = Ret a /\ (k a (m w).2).1 = Ret b.
Proof.
  unfold mbind. destruct (m w) as [[a|e] w']; cbn; [|done]. intros H. by exists a.
Qed.

Lemma mbind_run {A B : Type} (m : M A) (k : A -> M B) (w : world) (a : A) :
  (m w).1 = Ret a -> mbind m k w = k a (m w).2.
Proof. unfold mbind. destruct (m w) as [[a'|e] w']; cbn; [|done]. by intros [= ->]. Qed.

(** Saving a debug file sends no request, whatever happens to the write. *)
Lemma ensure_dirs_log (E : env) (D : str) (w : world) :
  requests_log (ensure_dirs E D w).2 = requests_log w.
Proof.
  unfold ensure_dirs, write_servers. destruct (servers_file w); [done|].
  destruct (disk_ok E (SERVERS_FILE D)); [done|].
  by destruct (failed_write E (SERVERS_FILE D)).
Qed.

Lemma save_debug_response_log (E : env) (D name endpoint body : str) (w : world) :
  requests_log (save_debug_response E D name endpoint body w).2 = requests_log w.
Proof.
  unfold save_debug_response, mbind.
  pose proof (ensure_dirs_log E D w) as He.
  destruct (ensure_dirs E D w) as [[[]|e] w1]; cbn in He |- *; [|done].
  unfold now, try_except_Exception, write_file, mbind, mret. cbn.
  destruct (disk_ok E _); cbn; [done|]. by destruct (failed_write E _).
Qed.

(** Nor does it touch a store that exists. *)
Lemma save_debug_response_store (E : env) (D name endpoint body : str)
    (w : world) (servers : list server) :
  stored w servers -> stored (save_debug_response E D name endpoint body w).2 servers.
Proof.
  intros Hw. unfold save_debug_response, mbind.
  rewrite (ensure_dirs_exists E D w servers Hw).
  unfold now, try_except_Exception, write_file, mbind, mret. cbn.
  destruct (disk_ok E _); cbn; [done|]. by destruct (failed_write E _).
Qed.

(** The guarded save of the branch for another status: it returns, sends
    no request and leaves the store. *)
Lemma guarded_save (E : env) (D name endpoint body : str) (w : world) :
  exists w',
    try_except (save_debug_response E D name endpoint body >> mret tt) (mret tt) w
    = (Ret tt, w')
    /\ requests_log w' = requests_log w
    /\ (forall servers, stored w servers -> stored w' servers).
Proof.
  unfold try_except, mbind at 1.
  pose proof (save_debug_response_log E D name endpoint body w) as Hl.
  pose proof (save_debug_response_store E D name endpoint body w) as Hst.
  destruct (save_debug_response E D name endpoint body w) as [[p|e] w1];
    cbn in Hl, Hst |- *; by eexists.
Qed.

Section PlayerApiResult.

Variable E : env.
Variables username password : str.
Variable timeout : Z.

(** The data directory and the request function of the file: that of
    main.py, or that of xtream.py, which answers and logs alike. *)
Variable D : str.
Variable req : str -> Z -> bool -> M ((response + exn) * str).
Hypothesis Hreq :
  forall endpoint w,
    req endpoint timeout false w
    = (answer E endpoint timeout false,
       with_requests w (calls E endpoint timeout false)).

Local Abbreviation loop :=
  (player_api_loop E D req username password timeout).
Local Abbreviation success := (api_success E username password timeout).
Local Abbreviation attempt := (api_attempt E username password timeout).
Local Abbreviation asked := (api_asked E username password timeout).
Local Abbreviation sent :=
  (fun base : str => calls E (api_url base username password) timeout false).

(** Whenever the loop returns, it returns the first success, or the failure
    with the attempts made; and it has asked the candidates up to the first
    success, each once, in order. *)
Lemma api_attempt_answer (base : str) (rc : response + exn) (client : str) :
  answer E (api_url base username password) timeout false = Ret (rc, client) ->
  attempt base = Some (api_url base username password, rc, client).
Proof. intros H. unfold api_attempt. by rewrite H. Qed.

Lemma player_api_loop_result (endpoints : list str)
    (tried : list (str * (response + exn) * str)) (w : world)
    (out : result player_result * world) (res : player_result) :
  loop endpoints tried w = out ->
  out.1 = Ret res ->
  res = match first_api_success E username password timeout endpoints with
        | Some (base, client, data) =>
            PlayerOk (api_url base username password) client data
        | None => PlayerFailed (tried ++ omap attempt endpoints)
        end
  /\ requests_log out.2 = requests_log w ++ flat_map sent (asked endpoints).
Proof.
  revert tried w. induction endpoints as [|base rest IH]; intros tried w Hout Hres.
  - cbn in Hout. subst out. cbn in Hres |- *. injection Hres as <-.
    by rewrite !app_nil_r.
  - cbn [player_api_loop] in Hout. cbn [first_api_success api_asked].
    change (omap attempt (base :: rest))
      with (match attempt base with
            | Some y => y :: omap attempt rest
            | None => omap attempt rest
            end).
    change (base ++ _ ++ username ++ _ ++ password)
      with (api_url base username password) in Hout.
    unfold mbind at 1 in Hout. rewrite Hreq in Hout.
    destruct (answer E (api_url base username password) timeout false)
      as [[rc client]|e] eqn:Ha; [|subst out; done].
    rewrite (api_attempt_answer base rc client Ha).
    unfold api_success. rewrite Ha.
    destruct rc as [r|e]; cbn [fst snd] in Hout.
    + destruct (status_code r =? 200)%Z eqn:Hs; cbn [negb] in Hout.
      * unfold mbind at 1, try_except_Exception, lift in Hout.
        destruct (json_of r) as [data|e] eqn:Hj.
        -- unfold mbind, mret in Hout. subst out. cbn in Hres |- *.
           injection Hres as <-. split; [done|]. by rewrite app_nil_r.
        -- unfold mbind at 1 in Hout. cbn [fst snd] in Hout.
           destruct (is_Exception e); [|subst out; done].
           unfold mbind at 1 in Hout.
           pose proof (save_debug_response_log E D
                         "player_api_badjson" (api_url base username password)
                         (text r)
                         (with_requests w
                            (calls E (api_url base username password) timeout false)))
             as Hl.
           destruct (save_debug_response E D "player_api_badjson" _ _ _)
             as [[p|e2] w1]; cbn in Hl; [|subst out; done].
           unfold mret in Hout. destruct (IH _ _ Hout Hres) as [H1 H2].
           rewrite H1, H2, Hl. cbn [flat_map with_requests requests_log].
           split; by rewrite <- app_assoc.
      * unfold mbind at 1 in Hout.
        destruct (guarded_save E D "player_api_non200"
                    (api_url base username password) (text r)
                    (with_requests w
                       (calls E (api_url base username password) timeout false)))
          as (w1 & Hg & Hl & _).
        rewrite Hg in Hout.
        destruct (IH _ _ Hout Hres) as [H1 H2].
        rewrite H1, H2, Hl. cbn [flat_map with_requests requests_log].
           split; by rewrite <- app_assoc.
    + destruct (IH _ _ Hout Hres) as [H1 H2].
      rewrite H1, H2. cbn [flat_map with_requests requests_log].
      split; by rewrite <- app_assoc.
Qed.

Hypothesis Hstore : store_writable E D.
Hypothesis Hclients : clients_raise_exceptions E.
Hypothesis Hjson : json_errors_are_exceptions E.

Lemma answer_captured (endpoint : str) (stream : bool) :
  captured E endpoint timeout stream (answer E endpoint timeout stream).
Proof. unfold answer. by apply main_request_captured. Qed.

Lemma ensure_dirs_returns (w : world) :
  exists w', ensure_dirs E D w = (Ret tt, w').
Proof.
  unfold ensure_dirs, write_servers. destruct (servers_file w); [by eexists|].
  red in Hstore. rewrite Hstore. by eexists.
Qed.

Lemma save_debug_response_returns (name endpoint body : str) (w : world) :
  exists p w', save_debug_response E D name endpoint body w = (Ret p, w').
Proof.
  unfold save_debug_response, mbind.
  destruct (ensure_dirs_returns w) as (w1 & ->).
  unfold now, try_except_Exception, write_file, mbind, mret. cbn.
  destruct (disk_ok E _); cbn; by eexists _, _.
Qed.

Lemma player_api_loop_returns (endpoints : list str)
    (tried : list (str * (response + exn) * str)) (w : world) :
  exists res, (loop endpoints tried w).1 = Ret res.
Proof.
  revert tried w. induction endpoints as [|base rest IH]; intros tried w.
  - by eexists.
  - cbn [player_api_loop].
    change (base ++ _ ++ username ++ _ ++ password)
      with (api_url base username password).
    unfold mbind at 1. rewrite Hreq.
    pose proof (answer_captured (api_url base username password) false) as Hc.
    destruct (answer E (api_url base username password) timeout false)
      as [[[r|e] client]|e] eqn:Ha; cbn [fst snd]; [| |done].
    + destruct (status_code r =? 200)%Z eqn:Hs; cbn [negb].
      * unfold mbind at 1, try_except_Exception, lift.
        destruct (json_of r) as [data|e] eqn:Hj; cbn [fst snd].
        -- unfold mbind, mret. cbn. by eexists.
        -- assert (He : is_Exception e = true).
           { destruct Hc as [(_ & _ & Hc)|(_ & Hc)];
               eapply Hjson; eauto. }
           unfold mbind at 1. cbn [fst snd]. rewrite He. unfold mbind at 1.
           destruct (save_debug_response_returns "player_api_badjson"
                       (api_url base username password) (text r)
                       (with_requests w
                          (calls E (api_url base username password) timeout false)))
             as (p & w1 & ->).
           cbn. apply IH.
      * unfold mbind at 1.
        destruct (guarded_save E D "player_api_non200"
                    (api_url base username password) (text r)
                    (with_requests w
                       (calls E (api_url base username password) timeout false)))
          as (w1 & -> & _ & _).
        apply IH.
    + apply IH.
Qed.

End PlayerApiResult.

Lemma api_asked_prefix (E : env) (username password : str) (timeout : Z)
    (endpoints : list str) :
  api_asked E username password timeout endpoints `prefix_of` endpoints.
Proof.
  induction endpoints as [|base rest IH]; [done|]. cbn [api_asked].
  destruct (api_success E username password timeout base).
  - by apply (prefix_cons base [] rest), prefix_nil.
  - by apply prefix_cons.
Qed.

(** The two files ask alike: [request_with_client] of xtream.py is that of
    main.py without streaming. *)
Lemma main_req (E : env) (timeout : Z) (endpoint : str) (w : world) :
  Main.request_with_client E endpoint timeout false w
  = (answer E endpoint timeout false,
     with_requests w (calls E endpoint timeout false)).
Proof. apply request_with_client_run. Qed.

Lemma xtream_req (E : env) (timeout : Z) (endpoint : str) (w : world) :
  (fun endpoint timeout (_ : bool) => Xtream.request_with_client E endpoint timeout)
    endpoint timeout false w
  = (answer E endpoint timeout false,
     with_requests w (calls E endpoint timeout false)).
Proof. apply (request_with_client_run E endpoint timeout false w). Qed.

(** X14: whenever [fetch_player_api_robust] returns, in main.py and in
    xtream.py alike, for any answers of the servers and any state of the
    disk, first success wins: its result is the endpoint, client and payload
    of the first candidate, in the order generated, that answers with status
    200 and a JSON body; and when no candidate does, it is the failure with
    one attempt per candidate, in that order. *)
Theorem fetch_player_api_first_success_wins (E : env)
    (addr username password : str) (timeout : Z) (w : world)
    (res : player_result) :
  ((Main.fetch_player_api_robust E addr username password timeout w).1 = Ret res ->
   res = first_success_wins E username password timeout
           (Main.generate_endpoints addr))
  /\ ((Xtream.fetch_player_api_robust E addr username password timeout w).1
        = Ret res ->
      res = first_success_wins E username password timeout
              (Xtream.generate_endpoints addr)).
Proof.
  split; intros H.
  - by destruct (player_api_loop_result E username password timeout
                   Main.DATA_DIR (Main.request_with_client E)
                   (main_req E timeout)
                   (Main.generate_endpoints addr) [] w _ res eq_refl H) as [-> _].
  - by destruct (player_api_loop_result E username password timeout
                   Xtream.DATA_DIR _ (xtream_req E timeout)
                   (Xtream.generate_endpoints addr) [] w _ res eq_refl H) as [-> _].
Qed.

Lemma fetch_player_api_first_success_wins_witness :
  PlayerOk (api_url "http://h:8080" "u" "p") (py "requests") account_json
  = first_success_wins env_abc "u" "p" 20%Z (Main.generate_endpoints "h").
Proof.
  apply (proj1 (fetch_player_api_first_success_wins env_abc "h" "u" "p" 20%Z w0
                  (PlayerOk (api_url "http://h:8080" "u" "p") (py "requests")
                     account_json))).
  vm_compute. reflexivity.
Defined.

(** X15: [fetch_player_api_robust], in main.py and in xtream.py alike,
    sends requests for the candidates up to and including the first that
    succeeds, each asked once and in the order generated, and for no
    candidate after it. *)
Theorem fetch_player_api_requests (E : env)
    (addr username password : str) (timeout : Z) (w : world) :
  let asked := api_asked E username password timeout (Main.generate_endpoints addr) in
  let sent := flat_map (fun base =>
                calls E (api_url base username password) timeout false) asked in
  let out := Main.fetch_player_api_robust E addr username password timeout w in
  let xout := Xtream.fetch_player_api_robust E addr username password timeout w in
  asked `prefix_of` Main.generate_endpoints addr
  /\ ((exists res, out.1 = Ret res) -> requests_log out.2 = requests_log w ++ sent)
  /\ ((exists res, xout.1 = Ret res) -> requests_log xout.2 = requests_log w ++ sent).
Proof.
  intros asked sent out xout. split; [apply api_asked_prefix|].
  split; intros [res H].
  - by destruct (player_api_loop_result E username password timeout
                   Main.DATA_DIR (Main.request_with_client E)
                   (main_req E timeout)
                   (Main.generate_endpoints addr) [] w _ res eq_refl H) as [_ H2].
  - by destruct (player_api_loop_result E username password timeout
                   Xtream.DATA_DIR _ (xtream_req E timeout)
                   (Xtream.generate_endpoints addr) [] w _ res eq_refl H) as [_ H2].
Qed.

Lemma fetch_player_api_requests_witness :
  requests_log (Main.fetch_player_api_robust env_abc "h" "u" "p" 20%Z w0).2
  = requests_log w0
      ++ flat_map (fun base => calls env_abc (api_url base "u" "p") 20%Z false)
           (api_asked env_abc "u" "p" 20%Z (Main.generate_endpoints "h")).
Proof.
  apply (proj1 (proj2 (fetch_player_api_requests env_abc "h" "u" "p" 20%Z w0))).
  eexists. vm_compute. reflexivity.
Defined.

(** X16: when the failures of the two clients are [Exception]s and so are
    the failures of [resp.json()], [fetch_player_api_robust] never raises
    as long as the store file of the program can be written: it returns the
    first success, or the failure with all attempts, also when the disk
    refuses every debug file.  This holds for main.py and for xtream.py,
    each with its own data directory. *)
Theorem fetch_player_api_returns (E : env)
    (addr username password : str) (timeout : Z) (w : world) :
  clients_raise_exceptions E ->
  json_errors_are_exceptions E ->
  (store_writable E Main.DATA_DIR ->
   (Main.fetch_player_api_robust E addr username password timeout w).1
   = Ret (first_success_wins E username password timeout
            (Main.generate_endpoints addr)))
  /\ (store_writable E Xtream.DATA_DIR ->
      (Xtream.fetch_player_api_robust E addr username password timeout w).1
      = Ret (first_success_wins E username password timeout
               (Xtream.generate_endpoints addr))).
Proof.
  intros Hc Hj. split; intros Hs.
  - unfold Main.fetch_player_api_robust, fetch_player_api_robust.
    destruct (player_api_loop_returns E username password timeout
                Main.DATA_DIR (Main.request_with_client E) (main_req E timeout)
                Hs Hc Hj (Main.generate_endpoints addr) [] w) as [res H].
    rewrite H. f_equal.
    by destruct (player_api_loop_result E username password timeout
                   Main.DATA_DIR (Main.request_with_client E)
                   (main_req E timeout)
                   (Main.generate_endpoints addr) [] w _ res eq_refl H) as [-> _].
  - unfold Xtream.fetch_player_api_robust, fetch_player_api_robust.
    destruct (player_api_loop_returns E username password timeout
                Xtream.DATA_DIR _ (xtream_req E timeout)
                Hs Hc Hj (Xtream.generate_endpoints addr) [] w) as [res H].
    rewrite H. f_equal.
    by destruct (player_api_loop_result E username password timeout
                   Xtream.DATA_DIR _ (xtream_req E timeout)
                   (Xtream.generate_endpoints addr) [] w _ res eq_refl H) as [-> _].
Qed.

Lemma fetch_player_api_returns_witness :
  (Main.fetch_player_api_robust env_abc "h" "u" "p" 20%Z w0).1
  = Ret (first_success_wins env_abc "u" "p" 20%Z (Main.generate_endpoints "h")).
Proof.
  refine (proj1 (fetch_player_api_returns env_abc "h" "u" "p" 20%Z w0 _ _) _).
  - intros url timeout stream e [H|H].
    + injection H as <-. reflexivity.
    + cbn in H. destruct (bool_decide _) in H; [by injection H as <-|].
      destruct (bool_decide _) in H; discriminate H.
  - intros url timeout stream r e [H|H] Hj; [cbn in H; discriminate H|].
    cbn in H. destruct (bool_decide _) in H; [discriminate H|].
    destruct (bool_decide _) in H; injection H as <-; [|discriminate Hj].
    by injection Hj as <-.
  - reflexivity.
Defined.
(* ===================================================================== *)
(** ** Probe engine: the playlist fetch on every answer *)
(* ===================================================================== *)

(** Whatever [save_debug_response] raises is an [Exception]. *)
Lemma save_debug_response_raises (E : env) (D name endpoint body : str)
    (w : world) (e : exn) :
  (save_debug_response E D name endpoint body w).1 = Raise e ->
  is_Exception e = true.
Proof.
  unfold save_debug_response, mbind, ensure_dirs, write_servers.
  destruct (servers_file w); cbn.
  - unfold now, try_except_Exception, write_file, mbind, mret. cbn.
    destruct (disk_ok E _); cbn; done.
  - destruct (disk_ok E (SERVERS_FILE D)); cbn.
    + unfold now, try_except_Exception, write_file, mbind, mret. cbn.
      destruct (disk_ok E _); cbn; done.
    + by intros [= <-].
Qed.

(** A save that is guarded by [except Exception] returns, sends no request
    and leaves the store. *)
Lemma guarded_save_Exception (E : env) (D name endpoint body : str) (w : world) :
  exists w',
    try_except_Exception
      (save_debug_response E D name endpoint body >> mret (@None playlist_result))
      (fun _ => mret None) w
    = (Ret None, w')
    /\ requests_log w' = requests_log w
    /\ (forall servers, stored w servers -> stored w' servers).
Proof.
  unfold try_except_Exception, mbind at 1.
  pose proof (save_debug_response_log E D name endpoint body w) as Hl.
  pose proof (save_debug_response_raises E D name endpoint body w) as Hr.
  pose proof (save_debug_response_store E D name endpoint body w) as Hst.
  destruct (save_debug_response E D name endpoint body w) as [[p|e] w1];
    cbn in Hl, Hr, Hst |- *; [by eexists|].
  rewrite (Hr e eq_refl). by eexists.
Qed.

Section PlaylistResult.

Variable E : env.
Variables username password m3u_type : str.
Variable timeout : Z.

Local Abbreviation loop :=
  (playlist_loop E Main.DATA_DIR (Main.request_with_client E)
     username password m3u_type timeout).
Local Abbreviation success := (playlist_success E username password m3u_type timeout).
Local Abbreviation asked := (playlist_asked E username password m3u_type timeout).
Local Abbreviation sent :=
  (fun base : str =>
     calls E (playlist_url base username password m3u_type) timeout true).

(** What the loop does for one candidate. *)
Lemma playlist_loop_step (base : str) (rest : list str) (w : world)
    (out : result playlist_result * world) :
  loop (base :: rest) w = out ->
  match answer E (playlist_url base username password m3u_type) timeout true with
  | Raise e => out = (Raise e, with_requests w (sent base))
  | Ret (rc, client) =>
      match success base with
      | Some (client', body) =>
          client' = client
          /\ out = (Ret (PlaylistOk (playlist_url base username password m3u_type)
                          client body),
                    with_requests w (sent base))
      | None =>
          (exists e, out = (Raise e, with_requests w (sent base))
                     /\ is_Exception e = false
                     /\ exists r, rc = inl r /\ stream_text E r = Raise e)
          \/ exists w', out = loop rest w'
                        /\ requests_log w' = requests_log w ++ sent base
                        /\ (forall servers, stored w servers -> stored w' servers)
      end
  end.
Proof.
  intros Hout. cbn [playlist_loop] in Hout.
  change (base ++ _ ++ username ++ _ ++ password ++ _ ++ m3u_type)
    with (playlist_url base username password m3u_type) in Hout.
  unfold mbind at 1 in Hout. rewrite request_with_client_run in Hout.
  unfold playlist_success.
  destruct (answer E (playlist_url base username password m3u_type) timeout true)
    as [[[r|e] client]|e] eqn:Ha; cbn [fst snd] in Hout; [| |done].
  - destruct (status_code r =? 200)%Z eqn:Hs; cbn [negb] in Hout.
    + unfold mbind at 1 in Hout. unfold try_except_Exception at 1 in Hout.
      unfold mbind at 1, lift in Hout.
      destruct (stream_text E r) as [body|e] eqn:Hb.
      * destruct (contains "#EXTM3U" (upper body)) eqn:Hm.
        -- unfold mret in Hout. done.
        -- right. unfold mbind at 1 in Hout.
           pose proof (save_debug_response_log E Main.DATA_DIR "playlist_nonm3u"
                         (playlist_url base username password m3u_type) body
                         (with_requests w (sent base))) as Hl.
           pose proof (save_debug_response_raises E Main.DATA_DIR "playlist_nonm3u"
                         (playlist_url base username password m3u_type) body
                         (with_requests w (sent base))) as Hr.
           pose proof (save_debug_response_store E Main.DATA_DIR "playlist_nonm3u"
                         (playlist_url base username password m3u_type) body
                         (with_requests w (sent base))) as Hst.
           destruct (save_debug_response E Main.DATA_DIR "playlist_nonm3u" _ _ _)
             as [[p|e2] w1]; cbn [fst snd] in Hl, Hr, Hst, Hout.
           ++ unfold mret in Hout. exists w1. split; [done|]. split; [done|].
              intros servers Hsv. by apply Hst.
           ++ rewrite (Hr e2 eq_refl) in Hout.
              destruct (guarded_save_Exception E Main.DATA_DIR "playlist_error"
                          (playlist_url base username password m3u_type)
                          (if bool_decide (text r = []) then exn_text e2 else text r)
                          w1) as (w2 & Hg & Hl2 & Hst2).
              rewrite Hg in Hout.
              exists w2. split; [done|]. split; [by rewrite Hl2, Hl|].
              intros servers Hsv. by apply Hst2, Hst.
      * cbn [fst snd] in Hout. destruct (is_Exception e) eqn:He.
        -- right.
           destruct (guarded_save_Exception E Main.DATA_DIR "playlist_error"
                       (playlist_url base username password m3u_type)
                       (if bool_decide (text r = []) then exn_text e else text r)
                       (with_requests w (sent base))) as (w2 & Hg & Hl2 & Hst2).
           rewrite Hg in Hout.
           exists w2. split; [done|]. split; [by rewrite Hl2|].
           intros servers Hsv. by apply Hst2.
        -- left. exists e. subst out. split; [done|]. split; [done|]. by exists r.
    + right. unfold mbind at 1 in Hout.
      destruct (guarded_save E Main.DATA_DIR "playlist_non200"
                  (playlist_url base username password m3u_type) (text r)
                  (with_requests w (sent base))) as (w1 & Hg & Hl & Hst).
      rewrite Hg in Hout.
      exists w1. split; [done|]. split; [by rewrite Hl|].
      intros servers Hsv. by apply Hst.
  - right. eexists. split; [done|]. split; [done|]. by intros servers Hsv.
Qed.

Lemma playlist_loop_result (endpoints : list str) (w : world)
    (out : result playlist_result * world) (res : playlist_result) :
  loop endpoints w = out ->
  out.1 = Ret res ->
  res = first_playlist_wins E username password m3u_type timeout endpoints
  /\ requests_log out.2 = requests_log w ++ flat_map sent (asked endpoints).
Proof.
  unfold first_playlist_wins.
  revert w. induction endpoints as [|base rest IH]; intros w Hout Hres.
  - cbn in Hout. subst out. cbn in Hres |- *. injection Hres as <-.
    by rewrite app_nil_r.
  - pose proof (playlist_loop_step base rest w out Hout) as Hstep.
    cbn [first_playlist_success playlist_asked].
    destruct (answer E (playlist_url base username password m3u_type) timeout true)
      as [[rc client]|e]; [|by rewrite Hstep in Hres].
    destruct (success base) as [[client' body]|].
    + destruct Hstep as [-> Hstep]. rewrite Hstep in Hres |- *.
      cbn in Hres |- *. injection Hres as <-. by rewrite app_nil_r.
    + destruct Hstep as [(e & He & _)|(w' & Hstep & Hl & _)].
      * rewrite He in Hres. done.
      * symmetry in Hstep. destruct (IH _ Hstep Hres) as [H1 H2].
        rewrite H1, H2, Hl. cbn [flat_map]. by rewrite <- app_assoc.
Qed.

(** The loop leaves a store that exists as it is. *)
Lemma playlist_loop_store (endpoints : list str) (w : world)
    (out : result playlist_result * world) (servers : list server) :
  loop endpoints w = out -> stored w servers -> stored out.2 servers.
Proof.
  revert w. induction endpoints as [|base rest IH]; intros w Hout Hw.
  - cbn in Hout. by subst out.
  - pose proof (playlist_loop_step base rest w out Hout) as Hstep.
    destruct (answer E (playlist_url base username password m3u_type) timeout true)
      as [[rc client]|e]; [|by rewrite Hstep].
    destruct (success base) as [[client' body]|].
    + destruct Hstep as [_ ->]. done.
    + destruct Hstep as [(e & -> & _)|(w' & Hstep & _ & Hst)]; [done|].
      symmetry in Hstep. by apply (IH _ Hstep), Hst.
Qed.

Hypothesis Hclients : clients_raise_exceptions E.
Hypothesis Hstream : stream_errors_are_exceptions E.

Lemma playlist_loop_returns (endpoints : list str) (w : world) :
  exists res, (loop endpoints w).1 = Ret res.
Proof.
  revert w. induction endpoints as [|base rest IH]; intros w; [by eexists|].
  pose proof (playlist_loop_step base rest w _ eq_refl) as Hstep.
  pose proof (main_request_captured E
                (playlist_url base username password m3u_type) timeout true w0
                Hclients) as Hc.
  fold (answer E (playlist_url base username password m3u_type) timeout true) in Hc.
  destruct (answer E (playlist_url base username password m3u_type) timeout true)
    as [[rc client]|e]; [|done].
  destruct (success base) as [[client' body]|].
  - destruct Hstep as [_ ->]. by eexists.
  - destruct Hstep as [(e & _ & He & r & -> & Hr)|(w' & -> & _ & _)]; [|apply IH].
    assert (is_Exception e = true); [|congruence].
    destruct Hc as [(_ & _ & Hc)|(_ & Hc)]; eapply Hstream; eauto.
Qed.

End PlaylistResult.

Lemma playlist_asked_prefix (E : env) (username password m3u_type : str)
    (timeout : Z) (endpoints : list str) :
  playlist_asked E username password m3u_type timeout endpoints
    `prefix_of` endpoints.
Proof.
  induction endpoints as [|base rest IH]; [done|]. cbn [playlist_asked].
  destruct (playlist_success E username password m3u_type timeout base).
  - by apply (prefix_cons base [] rest), prefix_nil.
  - by apply prefix_cons.
Qed.

Lemma first_playlist_wins_marked (E : env) (username password m3u_type : str)
    (timeout : Z) (endpoints : list str) :
  marked (first_playlist_wins E username password m3u_type timeout endpoints).
Proof.
  unfold first_playlist_wins.
  induction endpoints as [|base rest IH]; [done|]. cbn [first_playlist_success].
  destruct (playlist_success E username password m3u_type timeout base)
    as [[client body]|] eqn:Hs; [|exact IH].
  cbn. unfold playlist_success in Hs.
  destruct (answer E _ timeout true) as [[[r|e] c]|e]; try done.
  destruct (status_code r =? 200)%Z; [|done].
  destruct (stream_text E r) as [b|e]; [|done].
  destruct (contains "#EXTM3U" (upper b)) eqn:Hm; [|done]. by injection Hs as <- <-.
Qed.

(** X17: whenever [fetch_playlist_robust] (main.py) returns, its result is
    the playlist of the first candidate, in the order generated, that
    answers with status 200 and a streamed body holding [#EXTM3U] in any
    letter case, and the failure when no candidate does; so a body that is
    returned always holds the marker.  The candidates up to that one were
    asked, each once and in order, and none after it. *)
Theorem fetch_playlist_first_wins (E : env)
    (addr username password m3u_type : str) (timeout : Z) (w : world)
    (res : playlist_result) :
  let out := Main.fetch_playlist_robust E addr username password m3u_type
               timeout w in
  let asked := playlist_asked E username password m3u_type timeout
                 (Main.generate_endpoints addr) in
  out.1 = Ret res ->
  res = first_playlist_wins E username password m3u_type timeout
          (Main.generate_endpoints addr)
  /\ marked res
  /\ requests_log out.2
     = requests_log w
         ++ flat_map (fun base =>
              calls E (playlist_url base username password m3u_type) timeout true)
              asked
  /\ asked `prefix_of` Main.generate_endpoints addr.
Proof.
  intros out asked H.
  destruct (playlist_loop_result E username password m3u_type timeout
              (Main.generate_endpoints addr) w _ res eq_refl H) as [H1 H2].
  split; [done|]. split; [rewrite H1; apply first_playlist_wins_marked|].
  split; [done|apply playlist_asked_prefix].
Qed.

Lemma fetch_playlist_first_wins_witness :
  PlaylistFailed
  = first_playlist_wins env_html "u" "p" "m3u_plus" 20%Z
      (Main.generate_endpoints "h").
Proof.
  apply (fetch_playlist_first_wins env_html "h" "u" "p" "m3u_plus" 20%Z w0).
  vm_compute. reflexivity.
Defined.

(** X18: when the failures of the two clients and of the streaming are
    [Exception]s, [fetch_playlist_robust] (main.py) never raises, whatever
    the disk does: every save of a debug file is guarded, also the one in
    the handler of the streaming errors.  It returns the playlist of the
    first candidate that succeeds, or the failure. *)
Theorem fetch_playlist_returns (E : env)
    (addr username password m3u_type : str) (timeout : Z) (w : world) :
  clients_raise_exceptions E ->
  stream_errors_are_exceptions E ->
  (Main.fetch_playlist_robust E addr username password m3u_type timeout w).1
  = Ret (first_playlist_wins E username password m3u_type timeout
           (Main.generate_endpoints addr)).
Proof.
  intros Hc Hs. unfold Main.fetch_playlist_robust, fetch_playlist_robust.
  destruct (playlist_loop_returns E username password m3u_type timeout Hc Hs
              (Main.generate_endpoints addr) w) as [res H].
  rewrite H. f_equal.
  by destruct (playlist_loop_result E username password m3u_type timeout
                 (Main.generate_endpoints addr) w _ res eq_refl H) as [-> _].
Qed.

Lemma fetch_playlist_returns_witness :
  (Main.fetch_playlist_robust (env_read_only env_html) "h" "u" "p" "m3u_plus"
     20%Z w0).1
  = Ret (first_playlist_wins (env_read_only env_html) "u" "p" "m3u_plus" 20%Z
           (Main.generate_endpoints "h")).
Proof.
  apply fetch_playlist_returns.
  - intros url timeout stream e [H|H]; cbn in H; [|discriminate H].
    by injection H as <-.
  - intros url timeout stream r e [H|H] Hs; cbn in H; [discriminate H|].
    injection H as <-. discriminate Hs.
Defined.
(* ===================================================================== *)
(** ** The server store: adding, editing and deleting records *)
(* ===================================================================== *)

Section Store.

Variable E : env.
Variable D : str.
Hypothesis Hstore : store_writable E D.

Lemma load_servers_any (w : world) :
  load_servers E D w
  = (Ret (default [] (servers_file w)), with_store w (default [] (servers_file w))).
Proof.
  unfold load_servers, mbind, ensure_dirs, write_servers, with_store.
  destruct w as [lg fs cr [sf|]]; cbn; [done|].
  red in Hstore. by rewrite Hstore.
Qed.

Lemma save_servers_any (servers : list server) (w : world) :
  save_servers E D servers w = (Ret tt, with_store w servers).
Proof. by apply save_servers_run. Qed.

Lemma add_server_run (name_in url_in user_in pass_in : str) (w : world) :
  add_server E D name_in url_in user_in pass_in w
  = (Ret tt,
     {| requests_log := requests_log w; files := files w;
        clock_reads := S (clock_reads w);
        servers_file :=
          Some (default [] (servers_file w)
                  ++ [new_server (strip name_in) (strip url_in) (strip user_in)
                        (strip pass_in) (clock E (clock_reads w))]) |}).
Proof.
  unfold add_server. cbv zeta. unfold mbind at 1, now. unfold mbind at 1.
  rewrite load_servers_any, save_servers_any. reflexivity.
Qed.

Lemma delete_server_run (idx : nat) (confirm_in : str) (w : world)
    (servers : list server) (s : server) :
  stored w servers -> servers !! idx = Some s ->
  delete_server E D idx confirm_in w
  = if says_yes confirm_in then (Ret tt, with_store w (delete idx servers))
    else (Ret tt, w).
Proof.
  intros Hw Hi. unfold delete_server, mbind.
  rewrite (load_servers_run E D w servers Hw), Hi. unfold says_yes.
  destruct (bool_decide (lower (strip confirm_in) = py "y")); [|done].
  apply save_servers_any.
Qed.

End Store.

Lemma new_server_lookup (name server_url username password : str) (t : N) :
  let s := new_server name server_url username password t in
  s !! py "name" = Some (JStr (if bool_decide (name = []) then server_url else name))
  /\ s !! py "server_url" = Some (JStr server_url)
  /\ s !! py "username" = Some (JStr username)
  /\ s !! py "password" = Some (JStr password)
  /\ s !! py "created_at" = Some (JInt (Z.of_N t))
  /\ s !! py "last_check" = Some JNull
  /\ s !! py "last_endpoint" = Some JNull
  /\ s !! py "last_client" = Some JNull
  /\ s !! py "user_info" = Some (JObj [])
  /\ s !! py "server_info" = Some (JObj []).
Proof.
  cbv zeta. unfold new_server.
  repeat split;
    repeat (first [apply lookup_insert_eq | rewrite lookup_insert_ne by done]).
Qed.

(** X19: when the store file can be written, [add_server] returns and
    leaves the store with the records it had, in their order, followed by
    one new record: its fields are the answers without the blanks around
    them, its name is the URL when the name was left blank, it was never
    checked, and its account and server information are empty.  No
    request is sent and no other file is written. *)
Theorem add_server_appends (E : env) (name_in url_in user_in pass_in : str)
    (w : world) :
  store_writable E Main.DATA_DIR ->
  let out := Main.add_server E name_in url_in user_in pass_in w in
  let s := new_server (strip name_in) (strip url_in) (strip user_in)
             (strip pass_in) (clock E (clock_reads w)) in
  out.1 = Ret tt
  /\ servers_file out.2 = Some (default [] (servers_file w) ++ [s])
  /\ s !! py "name"
     = Some (JStr (if bool_decide (strip name_in = []) then strip url_in
                   else strip name_in))
  /\ s !! py "server_url" = Some (JStr (strip url_in))
  /\ s !! py "username" = Some (JStr (strip user_in))
  /\ s !! py "password" = Some (JStr (strip pass_in))
  /\ s !! py "last_check" = Some JNull
  /\ s !! py "user_info" = Some (JObj [])
  /\ s !! py "server_info" = Some (JObj [])
  /\ requests_log out.2 = requests_log w
  /\ files out.2 = files w.
Proof.
  intros Hs out s. subst out. unfold Main.add_server.
  rewrite add_server_run by done. cbn [fst snd servers_file requests_log files].
  fold s.
  destruct (new_server_lookup (strip name_in) (strip url_in) (strip user_in)
              (strip pass_in) (clock E (clock_reads w)))
    as (H1 & H2 & H3 & H4 & H5 & H6 & H7 & H8 & H9 & H10).
  fold s in H1, H2, H3, H4, H6, H9, H10.
  repeat split; done.
Qed.

Lemma add_server_appends_witness :
  servers_file (Main.add_server env_abc " home " "h" "u" "p" world_two_servers).2
  = Some ([server_other; server_h]
            ++ [new_server "home" "h" "u" "p" 1700000000%N]).
Proof.
  exact (proj1 (proj2 (add_server_appends env_abc " home " "h" "u" "p"
                         world_two_servers eq_refl))).
Defined.

(** X20: adding a server and then deleting the last record, with the
    answer [y], gives back the store as it was. *)
Theorem add_then_delete (E : env) (name_in url_in user_in pass_in confirm_in : str)
    (w : world) (servers : list server) :
  store_writable E Main.DATA_DIR ->
  stored w servers ->
  says_yes confirm_in = true ->
  let w1 := (Main.add_server E name_in url_in user_in pass_in w).2 in
  let out := Main.delete_server E (length servers) confirm_in w1 in
  out.1 = Ret tt /\ stored out.2 servers.
Proof.
  intros Hs Hw Hy w1 out. subst out w1. unfold Main.add_server, Main.delete_server.
  rewrite add_server_run by done. red in Hw. rewrite Hw. cbn [default snd].
  set (s := new_server _ _ _ _ _).
  assert (Hi : (servers ++ [s]) !! length servers = Some s).
  { by rewrite lookup_app_r, Nat.sub_diag. }
  erewrite (delete_server_run E Main.DATA_DIR Hs (length servers) confirm_in _
              (servers ++ [s]) s); [|reflexivity|exact Hi].
  rewrite Hy. cbn [fst snd]. split; [done|]. unfold stored, with_store.
  cbn [servers_file]. f_equal.
  change (servers ++ [s]) with (servers ++ s :: []).
  by rewrite delete_middle, app_nil_r.
Qed.

Lemma add_then_delete_witness :
  stored (Main.delete_server env_abc 2 " Y "
            (Main.add_server env_abc "x" "h" "u" "p" world_two_servers).2).2
    [server_other; server_h].
Proof.
  exact (proj2 (add_then_delete env_abc "x" "h" "u" "p" " Y " world_two_servers
                  [server_other; server_h] eq_refl eq_refl eq_refl)).
Defined.

(** X21: [delete_server] removes the record chosen and no other, and only
    on the answer [y] (in either case, blanks around it allowed): the
    records before it stay, the records after it move up by one; on any
    other answer nothing at all is written. *)
Theorem delete_server_removes (E : env) (idx : nat) (confirm_in : str)
    (w : world) (servers : list server) (s : server) :
  store_writable E Main.DATA_DIR ->
  stored w servers ->
  servers !! idx = Some s ->
  let out := Main.delete_server E idx confirm_in w in
  out.1 = Ret tt
  /\ (if says_yes confirm_in
      then exists saved,
             stored out.2 saved
             /\ saved = take idx servers ++ drop (S idx) servers
             /\ S (length saved) = length servers
             /\ (forall j, j < idx -> saved !! j = servers !! j)
             /\ (forall j, idx <= j -> saved !! j = servers !! S j)
      else out.2 = w).
Proof.
  intros Hs Hw Hi out. subst out. unfold Main.delete_server.
  rewrite (delete_server_run E Main.DATA_DIR Hs idx confirm_in w servers s Hw Hi).
  destruct (says_yes confirm_in); cbn [fst snd]; [|done].
  split; [done|]. exists (delete idx servers).
  split; [done|]. split; [apply delete_take_drop|].
  split.
  { rewrite length_delete by (by eexists).
    apply lookup_lt_Some in Hi. lia. }
  split.
  - intros j Hj. by apply list_lookup_delete_lt.
  - intros j Hj. by apply list_lookup_delete_ge.
Qed.

Lemma delete_server_removes_witness :
  (Main.delete_server env_abc 0 "n" world_two_servers).2 = world_two_servers.
Proof.
  exact (proj2 (delete_server_removes env_abc 0 "n" world_two_servers
                  [server_other; server_h] server_other eq_refl eq_refl eq_refl)).
Defined.

(** *** Editing *)

Lemma edit_server_run (E : env) (D : str) (idx : nat)
    (name_in url_in user_in pwd_prompt pass_in : str)
    (w : world) (servers : list server) (s : server) :
  store_writable E D -> stored w servers -> servers !! idx = Some s ->
  edit_server E D idx name_in url_in user_in pwd_prompt pass_in w
  = (Ret tt,
     with_store w
       (<[idx := edited s name_in url_in user_in pwd_prompt pass_in]> servers)).
Proof.
  intros Hs Hw Hi. unfold edit_server, mbind.
  rewrite (load_servers_run E D w servers Hw), Hi. cbv zeta.
  by rewrite save_servers_any.
Qed.

Lemma edited_outside (s : server) (name_in url_in user_in pwd_prompt pass_in : str) :
  same_outside edited_keys s (edited s name_in url_in user_in pwd_prompt pass_in).
Proof.
  intros key Hk. unfold edited_keys in Hk.
  rewrite !not_elem_of_cons in Hk. destruct Hk as (H1 & H2 & H3 & H4 & _).
  unfold edited. by rewrite !lookup_insert_ne.
Qed.

(** X22: [edit_server] rewrites the record chosen and nothing else: the
    other records and the number of records stay, and in the record only
    [name], [server_url], [username] and [password] can change.  An answer
    that is not blank becomes the new value, without the blanks around it;
    and the password stays as it is unless the question whether to change
    it was answered with [y]. *)
Theorem edit_server_frame (E : env) (idx : nat)
    (name_in url_in user_in pwd_prompt pass_in : str)
    (w : world) (servers : list server) (s : server) :
  store_writable E Main.DATA_DIR ->
  stored w servers ->
  servers !! idx = Some s ->
  let out := Main.edit_server E idx name_in url_in user_in pwd_prompt pass_in w in
  exists s' saved,
    out.1 = Ret tt
    /\ stored out.2 saved
    /\ length saved = length servers
    /\ saved !! idx = Some s'
    /\ (forall j, j <> idx -> saved !! j = servers !! j)
    /\ same_outside edited_keys s s'
    /\ (~ blank name_in -> s' !! py "name" = Some (JStr (strip name_in)))
    /\ (~ blank url_in -> s' !! py "server_url" = Some (JStr (strip url_in)))
    /\ (~ blank user_in -> s' !! py "username" = Some (JStr (strip user_in)))
    /\ (says_yes pwd_prompt = false -> is_Some (s !! py "password") ->
        s' !! py "password" = s !! py "password").
Proof.
  intros Hs Hw Hi out. subst out. unfold Main.edit_server.
  rewrite (edit_server_run E Main.DATA_DIR idx name_in url_in user_in pwd_prompt
             pass_in w servers s Hs Hw Hi).
  exists (edited s name_in url_in user_in pwd_prompt pass_in),
    (<[idx := edited s name_in url_in user_in pwd_prompt pass_in]> servers).
  cbn [fst snd]. split; [done|]. split; [reflexivity|].
  split; [apply length_insert|].
  split; [apply list_lookup_insert_eq; by eapply lookup_lt_Some|].
  split; [intros j Hj; by apply list_lookup_insert_ne|].
  split; [apply edited_outside|].
  unfold edited, entered_or, blank.
  split; [|split; [|split]].
  - intros Hb. rewrite !lookup_insert_ne by done. rewrite lookup_insert_eq.
    by rewrite bool_decide_eq_false_2.
  - intros Hb. rewrite !lookup_insert_ne by done. rewrite lookup_insert_eq.
    by rewrite bool_decide_eq_false_2.
  - intros Hb. rewrite !lookup_insert_ne by done. rewrite lookup_insert_eq.
    by rewrite bool_decide_eq_false_2.
  - intros -> [x Hx]. rewrite lookup_insert_eq. by rewrite Hx.
Qed.

Lemma edit_server_frame_witness :
  exists s' saved,
    (Main.edit_server env_abc 1 "den" [] [] "n" "secret" world_two_servers).1
      = Ret tt
    /\ stored (Main.edit_server env_abc 1 "den" [] [] "n" "secret"
                 world_two_servers).2 saved
    /\ saved !! 1 = Some s'
    /\ saved !! 0 = Some server_other
    /\ s' !! py "name" = Some (JStr (py "den"))
    /\ s' !! py "password" = Some (JStr (py "p")).
Proof.
  destruct (edit_server_frame env_abc 1 "den" [] [] "n" "secret"
              world_two_servers [server_other; server_h] server_h
              eq_refl eq_refl eq_refl)
    as (s' & saved & H1 & H2 & _ & H4 & H5 & _ & H7 & _ & _ & H10).
  exists s', saved. split; [exact H1|]. split; [exact H2|]. split; [exact H4|].
  split; [apply (H5 0); lia|]. split.
  - apply H7. unfold blank. vm_compute. discriminate.
  - rewrite H10; [reflexivity|reflexivity|]. by eexists.
Defined.

(** X23: editing a record that has the four keys and answering every
    prompt with a blank line (and not changing the password, or leaving the
    new password blank) leaves the store exactly as it was. *)
Theorem edit_server_blank (E : env) (idx : nat)
    (name_in url_in user_in pwd_prompt pass_in : str)
    (w : world) (servers : list server) (s : server) :
  store_writable E Main.DATA_DIR ->
  stored w servers ->
  servers !! idx = Some s ->
  Forall (fun key => is_Some (s !! key)) edited_keys ->
  blank name_in -> blank url_in -> blank user_in ->
  says_yes pwd_prompt = false \/ blank pass_in ->
  Main.edit_server E idx name_in url_in user_in pwd_prompt pass_in w = (Ret tt, w).
Proof.
  intros Hs Hw Hi Hk Hn Hu Hus Hp. unfold Main.edit_server.
  rewrite (edit_server_run E Main.DATA_DIR idx name_in url_in user_in pwd_prompt
             pass_in w servers s Hs Hw Hi).
  f_equal.
  assert (He : edited s name_in url_in user_in pwd_prompt pass_in = s).
  { unfold edited_keys in Hk.
    apply Forall_cons_1 in Hk as [[n Hkn] Hk].
    apply Forall_cons_1 in Hk as [[u Hku] Hk].
    apply Forall_cons_1 in Hk as [[us Hkus] Hk].
    apply Forall_cons_1 in Hk as [[p Hkp] _].
    unfold edited, entered_or. red in Hn, Hu, Hus.
    rewrite Hn, Hu, Hus, Hkn, Hku, Hkus, Hkp.
    rewrite !(bool_decide_eq_true_2 (@nil ascii = [])) by done.
    cbn [default from_option id]. unfold id.
    assert (Hpw : (if says_yes pwd_prompt
                   then if bool_decide (strip pass_in = []) then p
                        else JStr (strip pass_in)
                   else p) = p).
    { destruct Hp as [->|Hp]; [done|]. red in Hp. rewrite Hp.
      rewrite (bool_decide_eq_true_2 (@nil ascii = [])) by done.
      by destruct (says_yes pwd_prompt). }
    rewrite Hpw.
    rewrite (insert_id s (py "name") n Hkn).
    rewrite (insert_id s (py "server_url") u Hku).
    rewrite (insert_id s (py "username") us Hkus).
    by rewrite (insert_id s (py "password") p Hkp). }
  rewrite He, list_insert_id by done.
  destruct w as [lg fs cr sf]. red in Hw. cbn in Hw. subst sf. reflexivity.
Qed.

Lemma edit_server_blank_witness :
  Main.edit_server env_abc 1 " " [] [] "y" "  " world_two_servers
  = (Ret tt, world_two_servers).
Proof.
  apply (edit_server_blank env_abc 1 " " [] [] "y" "  " world_two_servers
           [server_other; server_h] server_h); try reflexivity.
  - repeat constructor; by eexists.
  - by right.
Defined.

(** *** An index beyond the list *)

(** X24: with an index beyond the last record, [edit_server],
    [delete_server], [refresh_server] and [fetch_and_save_playlist], of
    main.py and of xtream.py alike, all raise [IndexError] from
    [servers[idx]]: before any prompt is evaluated, before any request is
    sent, and without writing anything. *)
Theorem index_beyond_store (E : env) (json_dumps : channel -> str) (idx : nat)
    (name_in url_in user_in pwd_prompt pass_in confirm_in : str)
    (w : world) (servers : list server) :
  stored w servers ->
  length servers <= idx ->
  (Main.edit_server E idx name_in url_in user_in pwd_prompt pass_in w
     = (Raise index_error, w)
   /\ Main.delete_server E idx confirm_in w = (Raise index_error, w)
   /\ Main.refresh_server E idx w = (Raise index_error, w)
   /\ Main.fetch_and_save_playlist E json_dumps idx w = (Raise index_error, w))
  /\ (Xtream.edit_server E idx name_in url_in user_in pwd_prompt pass_in w
        = (Raise index_error, w)
      /\ Xtream.delete_server E idx confirm_in w = (Raise index_error, w)
      /\ Xtream.refresh_server E idx w = (Raise index_error, w)
      /\ Xtream.fetch_and_save_playlist E idx w = (Raise index_error, w)).
Proof.
  intros Hw Hi. apply lookup_ge_None in Hi.
  unfold Main.edit_server, Main.delete_server, Main.refresh_server,
    Main.fetch_and_save_playlist, Xtream.edit_server, Xtream.delete_server,
    Xtream.refresh_server, Xtream.fetch_and_save_playlist,
    edit_server, delete_server, refresh_server, fetch_and_save_playlist, mbind.
  rewrite (load_servers_run E Main.DATA_DIR w servers Hw).
  rewrite (load_servers_run E Xtream.DATA_DIR w servers Hw).
  by rewrite Hi.
Qed.

Lemma index_beyond_store_witness :
  Main.refresh_server env_abc 2 world_two_servers
  = (Raise index_error, world_two_servers).
Proof.
  exact (proj1 (proj2 (proj2 (proj1 (index_beyond_store env_abc (fun _ => []) 2
                                [] [] [] [] [] [] world_two_servers
                                [server_other; server_h] eq_refl
                                (le_n 2)))))).
Defined.
(* ===================================================================== *)
(** ** Refreshing: the success branch, and all servers at once *)
(* ===================================================================== *)

Lemma marked_ok_outside (E : env) (w1 : world) (s : server) (endpoint client : str)
    (o : list (str * json)) :
  same_outside refreshed_keys s (marked_ok E w1 s endpoint client o).
Proof.
  intros key Hk. unfold refreshed_keys in Hk.
  rewrite !not_elem_of_cons in Hk. destruct Hk as (H1 & H2 & H3 & H4 & H5 & _).
  unfold marked_ok. by rewrite !lookup_insert_ne.
Qed.

Lemma marked_failed_outside (E : env) (w1 : world) (s : server) :
  same_outside refreshed_keys s (marked_failed E w1 s).
Proof.
  intros key Hk. unfold refreshed_keys in Hk.
  rewrite !not_elem_of_cons in Hk. destruct Hk as (H1 & H2 & H3 & H4 & H5 & _).
  unfold marked_failed. by rewrite !lookup_insert_ne.
Qed.

(** X25: when [fetch_player_api_robust] succeeds during [refresh_server]
    with a payload that is a JSON object, the record chosen gets
    [user_info] and [server_info] from the payload (the empty object when
    the key is missing or its value is empty), the endpoint and the client
    of the success, and the time read after the fetch; every other field
    of the record, every other record and every file stay as they are.
    With a payload that is not an object, [refresh_server] raises
    [AttributeError] after the fetch and saves nothing. *)
Theorem refresh_server_success_frame (E : env) (idx : nat) (w : world)
    (servers : list server) (s : server) (server_url endpoint client : str)
    (data : json) :
  store_writable E Main.DATA_DIR ->
  stored w servers ->
  servers !! idx = Some s ->
  s !! py "server_url" = Some (JStr server_url) ->
  let fetched := Main.fetch_player_api_robust E server_url
                   (formatted E s "username") (formatted E s "password")
                   DEFAULT_TIMEOUT w in
  fetched.1 = Ret (PlayerOk endpoint client data) ->
  match data with
  | JObj o =>
      success_recorded E idx servers s endpoint client o fetched.2
        (Main.refresh_server E idx w)
  | _ => Main.refresh_server E idx w = (Raise (Exn AttributeError "get"), fetched.2)
  end.
Proof.
  intros Hs Hw Hi Hurl fetched Hf.
  assert (Hrun : Main.refresh_server E idx w
    = match data with
      | JObj o =>
          (Ret tt,
           {| requests_log := requests_log fetched.2; files := files fetched.2;
              clock_reads := S (clock_reads fetched.2);
              servers_file :=
                Some (<[idx := marked_ok E fetched.2 s endpoint client o]> servers) |})
      | _ => (Raise (Exn AttributeError "get"), fetched.2)
      end).
  { subst fetched. unfold Main.refresh_server, refresh_server. unfold mbind at 1.
    rewrite (load_servers_run E Main.DATA_DIR w servers Hw), Hi, Hurl.
    unfold mbind at 1. unfold Main.fetch_player_api_robust in Hf |- *.
    destruct (fetch_player_api_robust E Main.DATA_DIR Main.generate_endpoints
                (Main.request_with_client E) server_url _ _ _ w)
      as [res w1] eqn:Ef.
    cbn [fst snd] in Hf |- *. subst res.
    destruct data as [|b|z|x|l|o]; try reflexivity.
    unfold mbind, now. by rewrite save_servers_run. }
  rewrite Hrun. destruct data as [|b|z|x|l|o]; try reflexivity.
  unfold success_recorded. cbn [fst snd servers_file files requests_log].
  split; [done|]. split.
  { eexists. split; [reflexivity|]. split; [apply length_insert|]. split.
    - apply list_lookup_insert_eq. by eapply lookup_lt_Some.
    - intros j Hj. by apply list_lookup_insert_ne. }
  unfold marked_ok at 1 2 3 4 5.
  split; [by rewrite !lookup_insert_ne, lookup_insert_eq by done|].
  split; [by rewrite !lookup_insert_ne, lookup_insert_eq by done|].
  split; [by rewrite !lookup_insert_ne, lookup_insert_eq by done|].
  split; [by rewrite lookup_insert_ne, lookup_insert_eq by done|].
  split; [by rewrite lookup_insert_eq|].
  split; [apply marked_ok_outside|done].
Qed.

Lemma refresh_server_success_frame_witness :
  success_recorded env_account 1 [server_other; server_h] server_h
    (api_url "http://h" "u" "p") (py "requests")
    [(py "user_info", JObj [(py "status", JStr (py "Active"))]);
     (py "server_info", JObj [(py "port", JStr (py "8080"))])]
    (Main.fetch_player_api_robust env_account "h" "u" "p" DEFAULT_TIMEOUT
       world_two_servers).2
    (Main.refresh_server env_account 1 world_two_servers).
Proof.
  apply (refresh_server_success_frame env_account 1 world_two_servers
           [server_other; server_h] server_h "h"
           (api_url "http://h" "u" "p") (py "requests") account_json
           eq_refl eq_refl eq_refl eq_refl).
  vm_compute. reflexivity.
Defined.

(** *** What a fetch leaves of the store *)

Section FetchStore.

Variable E : env.
Variable servers : list server.

Lemma player_api_loop_store (username password : str) (timeout : Z)
    (endpoints : list str) (tried : list (str * (response + exn) * str))
    (w : world) (out : result player_result * world) :
  player_api_loop E Main.DATA_DIR (Main.request_with_client E)
    username password timeout endpoints tried w = out ->
  stored w servers -> stored out.2 servers.
Proof.
  revert tried w. induction endpoints as [|base rest IH]; intros tried w Hout Hw.
  - cbn in Hout. by subst out.
  - cbn [player_api_loop] in Hout.
    unfold mbind at 1 in Hout. rewrite request_with_client_run in Hout.
    destruct (answer E _ timeout false) as [[[r|e] client]|e];
      cbn [fst snd] in Hout; [| |by subst out].
    + destruct (status_code r =? 200)%Z; cbn [negb] in Hout.
      * unfold mbind at 1, try_except_Exception, lift in Hout.
        destruct (json_of r) as [data|e].
        -- unfold mbind, mret in Hout. by subst out.
        -- unfold mbind at 1 in Hout. cbn [fst snd] in Hout.
           destruct (is_Exception e); [|by subst out].
           unfold mbind at 1 in Hout.
           match type of Hout with
           | context [save_debug_response E ?D ?n ?u ?b ?w'] =>
               pose proof (save_debug_response_store E D n u b w' servers Hw) as Hst;
               destruct (save_debug_response E D n u b w') as [[p|e2] w1]
           end; cbn [fst snd] in Hst, Hout; [|by subst out].
           unfold mret in Hout. by apply (IH _ _ Hout).
      * unfold mbind at 1 in Hout. unfold try_except, mbind at 1 in Hout.
        match type of Hout with
        | context [save_debug_response E ?D ?n ?u ?b ?w'] =>
            pose proof (save_debug_response_store E D n u b w' servers Hw) as Hst;
            destruct (save_debug_response E D n u b w') as [[p|e2] w1]
        end; cbn [fst snd] in Hst, Hout; unfold mret in Hout;
          by apply (IH _ _ Hout).
    + by apply (IH _ _ Hout).
Qed.

Lemma refresh_record_frame (s : server) (w : world)
    (out : result server * world) :
  refresh_record E Main.DATA_DIR Main.generate_endpoints
    (Main.request_with_client E) s w = out ->
  stored w servers ->
  stored out.2 servers
  /\ forall s', out.1 = Ret s' -> same_outside refreshed_keys s s'.
Proof.
  intros Hout Hw. unfold refresh_record in Hout.
  destruct (s !! py "server_url") as [[| | |server_url| |]|];
    try (subst out; split; [done|done]).
  unfold mbind at 1 in Hout.
  pose proof (player_api_loop_store (formatted E s "username")
                (formatted E s "password") DEFAULT_TIMEOUT
                (Main.generate_endpoints server_url) [] w _ eq_refl Hw) as Hst.
  fold (fetch_player_api_robust E Main.DATA_DIR Main.generate_endpoints
          (Main.request_with_client E) server_url (formatted E s "username")
          (formatted E s "password") DEFAULT_TIMEOUT w) in Hst.
  destruct (fetch_player_api_robust E Main.DATA_DIR Main.generate_endpoints
              (Main.request_with_client E) server_url _ _ _ w)
    as [[res|e] w1]; cbn [fst snd] in Hst, Hout; [|subst out; split; done].
  destruct res as [endpoint client data|tried].
  - destruct data as [|b|z|x|l|o]; try (subst out; split; done).
    unfold mbind, now, mret in Hout. subst out. cbn [fst snd]. split; [done|].
    intros s' [= <-]. apply (marked_ok_outside E w1 s endpoint client o).
  - unfold mbind, now, mret in Hout. subst out. cbn [fst snd]. split; [done|].
    intros s' [= <-]. apply (marked_failed_outside E w1 s).
Qed.

Lemma refresh_all_loop_frame (todo done : list server) (w : world)
    (out : result (list server) * world) :
  refresh_all_loop E Main.DATA_DIR Main.generate_endpoints
    (Main.request_with_client E) todo done w = out ->
  stored w servers ->
  stored out.2 servers
  /\ forall l, out.1 = Ret l ->
       exists l', l = done ++ l'
                  /\ Forall2 (same_outside refreshed_keys) todo l'.
Proof.
  revert done w. induction todo as [|s rest IH]; intros done w Hout Hw.
  - cbn in Hout. subst out. split; [done|]. intros l [= <-].
    exists []. by rewrite app_nil_r.
  - cbn [refresh_all_loop] in Hout. unfold mbind at 1 in Hout.
    destruct (refresh_record_frame s w _ eq_refl Hw) as [Hst Hfr].
    destruct (refresh_record E Main.DATA_DIR Main.generate_endpoints
                (Main.request_with_client E) s w) as [[s'|e] w1];
      cbn [fst snd] in Hst, Hfr, Hout; [|subst out; split; done].
    destruct (IH _ _ Hout Hst) as [H1 H2]. split; [done|].
    intros l Hl. destruct (H2 l Hl) as (l' & -> & HF).
    exists (s' :: l'). split; [by rewrite <- app_assoc|].
    constructor; [by apply Hfr|done].
Qed.

End FetchStore.

Lemma refresh_all_servers_run (E : env) (w : world) (servers : list server) :
  stored w servers ->
  Main.refresh_all_servers E w
  = if bool_decide (servers = []) then (Ret tt, w)
    else match refresh_all_loop E Main.DATA_DIR Main.generate_endpoints
                 (Main.request_with_client E) servers [] w with
         | (Ret l, w1) => save_servers E Main.DATA_DIR l w1
         | (Raise e, w1) => (Raise e, w1)
         end.
Proof.
  intros Hw. unfold Main.refresh_all_servers, refresh_all_servers.
  unfold mbind at 1.
  rewrite (load_servers_run E Main.DATA_DIR w servers Hw).
  by destruct (bool_decide (servers = [])).
Qed.

(** X26: [refresh_all_servers] saves once, at the end.  With an empty
    store it does nothing at all.  When it returns, the store holds as many
    records as before, in the same order, and each differs from its old
    self in the five keys of a refresh at most.  When it raises while the
    records are refreshed (a record without a [server_url] text, a payload
    that is not an object, an interrupted request), nothing has been saved:
    the store is as it was, and what was learnt about the records before is
    lost.  The one other raise is the [OSError] of the final save on a disk
    that refuses the write, which can leave [servers.json] emptied or partly
    written. *)
Theorem refresh_all_servers_frame (E : env) (w : world) (servers : list server) :
  stored w servers ->
  let out := Main.refresh_all_servers E w in
  (servers = [] -> out = (Ret tt, w))
  /\ (out.1 = Ret tt ->
      exists saved,
        stored out.2 saved
        /\ Forall2 (same_outside refreshed_keys) servers saved)
  /\ (forall e, out.1 = Raise e ->
      stored out.2 servers
      \/ (e = Exn OSError (SERVERS_FILE Main.DATA_DIR)
          /\ disk_ok E (SERVERS_FILE Main.DATA_DIR) = false)).
Proof.
  intros Hw out. subst out. rewrite (refresh_all_servers_run E w servers Hw).
  destruct (bool_decide (servers = [])) eqn:He.
  { apply bool_decide_eq_true_1 in He. subst servers.
    split; [done|]. split; [|done]. intros _. exists []. by split. }
  apply bool_decide_eq_false_1 in He. split; [done|].
  destruct (refresh_all_loop_frame E servers servers [] w _ eq_refl Hw)
    as [Hst Hl].
  destruct (refresh_all_loop E Main.DATA_DIR Main.generate_endpoints
              (Main.request_with_client E) servers [] w) as [[l|e] w1];
    cbn [fst snd] in Hst, Hl |- *; [|split; [done|intros e' _; by left]].
  destruct (Hl l eq_refl) as (l' & -> & HF). cbn [app].
  unfold save_servers, mbind.
  rewrite (ensure_dirs_exists E Main.DATA_DIR w1 servers Hst).
  unfold write_servers.
  destruct (disk_ok E (SERVERS_FILE Main.DATA_DIR)) eqn:Hd.
  - cbn. split; [|done]. intros _. by exists l'.
  - destruct (failed_write E (SERVERS_FILE Main.DATA_DIR)); cbn [fst snd];
      (split; [done|]); intros e' [= <-]; [by right|by left].
Qed.

Lemma refresh_all_servers_frame_witness :
  exists saved,
    stored (Main.refresh_all_servers env_account world_two_servers).2 saved
    /\ Forall2 (same_outside refreshed_keys) [server_other; server_h] saved.
Proof.
  apply (proj1 (proj2 (refresh_all_servers_frame env_account world_two_servers
                         [server_other; server_h] eq_refl))).
  vm_compute. reflexivity.
Defined.

(** On a disk that runs full the final save raises and leaves a
    [servers.json] that reads as the empty list. *)
Example save_servers_disk_full (E : env) (servers : list server) :
  save_servers (env_disk_full E) Main.DATA_DIR servers world_two_servers
  = (Raise (Exn OSError (SERVERS_FILE Main.DATA_DIR)),
     {| requests_log := []; files := ∅; clock_reads := 0;
        servers_file := Some [] |}).
Proof. reflexivity. Qed.
(* ===================================================================== *)
(** ** Fetching and saving a playlist *)
(* ===================================================================== *)

Lemma playlist_paths_differ (D safe_name username : str) :
  playlist_path D safe_name username <> playlist_json_path D safe_name username.
Proof.
  unfold playlist_path, playlist_json_path, path_join.
  set (x := safe_name ++ py "_" ++ username).
  replace (safe_name ++ py "_" ++ username ++ py "_playlist.m3u")
    with (x ++ py "_playlist.m3u") by (subst x; by rewrite <- !app_assoc).
  replace (safe_name ++ py "_" ++ username ++ py "_playlist.json")
    with (x ++ py "_playlist.json") by (subst x; by rewrite <- !app_assoc).
  assert (Hsw : startswith "/" (x ++ py "_playlist.m3u")
                = startswith "/" (x ++ py "_playlist.json")).
  { by destruct x. }
  rewrite <- Hsw. destruct (startswith "/" (x ++ py "_playlist.m3u")).
  - by intros ?%app_inv_head.
  - destruct (_ || _).
    + intros H%app_inv_head. by apply app_inv_head in H.
    + intros H%app_inv_head. apply (app_inv_head (py "/")) in H.
      by apply app_inv_head in H.
Qed.

Lemma marked_fetched_outside (E : env) (w1 : world) (s : server)
    (endpoint client : str) :
  same_outside fetched_keys s (marked_fetched E w1 s endpoint client).
Proof.
  intros key Hk. unfold fetched_keys in Hk.
  rewrite !not_elem_of_cons in Hk. destruct Hk as (H1 & H2 & H3 & _).
  unfold marked_fetched. by rewrite !lookup_insert_ne.
Qed.

Section FetchAndSave.

Variable E : env.
Variable json_dumps : channel -> str.
Variable idx : nat.
Variable w : world.
Variable servers : list server.
Variable s : server.
Variable server_url : str.
Hypothesis Hw : stored w servers.
Hypothesis Hi : servers !! idx = Some s.
Hypothesis Hurl : s !! py "server_url" = Some (JStr server_url).

Local Abbreviation fetched :=
  (Main.fetch_playlist_robust E server_url (formatted E s "username")
     (formatted E s "password") "m3u_plus" DEFAULT_TIMEOUT w).

(** The call, up to the end of the fetch. *)
Lemma fetch_and_save_playlist_run :
  Main.fetch_and_save_playlist E json_dumps idx w
  = match fetched with
    | (Raise e, w1) => (Raise e, w1)
    | (Ret PlaylistFailed, w1) => (Ret tt, w1)
    | (Ret (PlaylistOk endpoint client body), w1) =>
        match label_of s with
        | None => (Raise (Exn AttributeError "replace"), w1)
        | Some name =>
            let safe_name := replace_char " " "_" name in
            (write_file E (playlist_path Main.DATA_DIR safe_name
                             (formatted E s "username")) body >>
             (if bool_decide (parse_m3u_to_json body = []) then mret None
              else save_playlist_json E Main.DATA_DIR json_dumps safe_name
                     (formatted E s "username") (parse_m3u_to_json body)) >>
             t <- now E ;;
             save_servers E Main.DATA_DIR
               (<[idx := <[py "last_client" := JStr client]>
                          (<[py "last_endpoint" := JStr endpoint]>
                          (<[py "last_check" := JInt (Z.of_N t)]> s))]> servers)) w1
        end
    end.
Proof.
  unfold Main.fetch_and_save_playlist, fetch_and_save_playlist.
  unfold mbind at 1.
  rewrite (load_servers_run E Main.DATA_DIR w servers Hw), Hi, Hurl.
  unfold mbind at 1. unfold Main.fetch_playlist_robust.
  destruct (fetch_playlist_robust E Main.DATA_DIR Main.generate_endpoints
              (Main.request_with_client E) server_url _ _ _ _ w)
    as [[[endpoint client body|]|e] w1]; [|done..].
  unfold label_of.
  destruct (s !! py "name") as [[| | |n| |]|]; done.
Qed.

End FetchAndSave.

(** X27: when the playlist fetch fails, [fetch_and_save_playlist] returns
    having done nothing beyond the fetch itself: no playlist file is
    written and the store is exactly as it was; unlike [refresh_server], it
    does not even record the time of the attempt. *)
Theorem fetch_and_save_playlist_failed (E : env) (json_dumps : channel -> str)
    (idx : nat) (w : world) (servers : list server) (s : server)
    (server_url : str) :
  stored w servers ->
  servers !! idx = Some s ->
  s !! py "server_url" = Some (JStr server_url) ->
  let fetched := Main.fetch_playlist_robust E server_url (formatted E s "username")
                   (formatted E s "password") "m3u_plus" DEFAULT_TIMEOUT w in
  fetched.1 = Ret PlaylistFailed ->
  Main.fetch_and_save_playlist E json_dumps idx w = (Ret tt, fetched.2)
  /\ stored fetched.2 servers.
Proof.
  intros Hw Hi Hurl fetched Hf. split.
  - rewrite (fetch_and_save_playlist_run E json_dumps idx w servers s server_url
               Hw Hi Hurl).
    fold fetched. destruct fetched as [[res|e] w1]; cbn [fst snd] in Hf |- *;
      [|done]. by injection Hf as ->.
  - subst fetched. unfold Main.fetch_playlist_robust, fetch_playlist_robust.
    by eapply playlist_loop_store.
Qed.

Lemma fetch_and_save_playlist_failed_witness :
  Main.fetch_and_save_playlist env_html (fun _ => []) 1 world_two_servers
  = (Ret tt,
     (Main.fetch_playlist_robust env_html "h" "u" "p" "m3u_plus" DEFAULT_TIMEOUT
        world_two_servers).2)
  /\ stored (Main.fetch_playlist_robust env_html "h" "u" "p" "m3u_plus"
               DEFAULT_TIMEOUT world_two_servers).2 [server_other; server_h].
Proof.
  apply (fetch_and_save_playlist_failed env_html (fun _ => []) 1 world_two_servers
           [server_other; server_h] server_h "h" eq_refl eq_refl eq_refl).
  vm_compute. reflexivity.
Defined.

(** X28: when the playlist fetch succeeds and the disk takes the writes,
    [fetch_and_save_playlist] writes the body, as fetched, to the file named
    after the record (blanks of the name replaced by underscores) and its
    user; when the body has channels, it writes them to the JSON file
    beside it, and otherwise writes no JSON file; and it saves the store
    with the endpoint, the client and the time of the fetch in the record
    chosen, every other field (the account information included) and every
    other record staying as they were.  The body written holds the
    marker. *)
Theorem fetch_and_save_playlist_saved (E : env) (json_dumps : channel -> str)
    (idx : nat) (w : world) (servers : list server) (s : server)
    (server_url name endpoint client body : str) :
  disk_accepts E ->
  stored w servers ->
  servers !! idx = Some s ->
  s !! py "server_url" = Some (JStr server_url) ->
  label_of s = Some name ->
  let fetched := Main.fetch_playlist_robust E server_url (formatted E s "username")
                   (formatted E s "password") "m3u_plus" DEFAULT_TIMEOUT w in
  fetched.1 = Ret (PlaylistOk endpoint client body) ->
  let out := Main.fetch_and_save_playlist E json_dumps idx w in
  let safe_name := replace_char " " "_" name in
  let path := playlist_path Main.DATA_DIR safe_name (formatted E s "username") in
  let json_path := playlist_json_path Main.DATA_DIR safe_name
                     (formatted E s "username") in
  let channels := parse_m3u_to_json body in
  let s' := marked_fetched E fetched.2 s endpoint client in
  out.1 = Ret tt
  /\ contains "#EXTM3U" (upper body) = true
  /\ files out.2 !! path = Some body
  /\ (channels <> [] ->
      files out.2
      = <[json_path := playlist_json_text json_dumps channels]>
          (<[path := body]> (files fetched.2)))
  /\ (channels = [] -> files out.2 = <[path := body]> (files fetched.2))
  /\ stored out.2 (<[idx := s']> servers)
  /\ (forall j, j <> idx -> <[idx := s']> servers !! j = servers !! j)
  /\ s' !! py "last_endpoint" = Some (JStr endpoint)
  /\ s' !! py "last_client" = Some (JStr client)
  /\ s' !! py "last_check" = Some (JInt (Z.of_N (clock E (clock_reads fetched.2))))
  /\ same_outside fetched_keys s s'
  /\ requests_log out.2 = requests_log fetched.2.
Proof.
  intros Hd Hw Hi Hurl Hname fetched Hf out safe_name path json_path channels s'.
  assert (Hm : contains "#EXTM3U" (upper body) = true).
  { pose proof (playlist_loop_result E (formatted E s "username")
                  (formatted E s "password") "m3u_plus" DEFAULT_TIMEOUT
                  (Main.generate_endpoints server_url) w _ _ eq_refl Hf) as [Hres _].
    pose proof (first_playlist_wins_marked E (formatted E s "username")
                  (formatted E s "password") "m3u_plus" DEFAULT_TIMEOUT
                  (Main.generate_endpoints server_url)) as Hmk.
    rewrite <- Hres in Hmk. exact Hmk. }
  assert (Hout : out
    = (Ret tt,
       {| requests_log := requests_log fetched.2;
          files := if bool_decide (channels = []) then <[path := body]> (files fetched.2)
                   else <[json_path := playlist_json_text json_dumps channels]>
                          (<[path := body]> (files fetched.2));
          clock_reads := S (clock_reads fetched.2);
          servers_file := Some (<[idx := s']> servers) |})).
  { subst out.
    rewrite (fetch_and_save_playlist_run E json_dumps idx w servers s server_url
               Hw Hi Hurl).
    fold fetched. subst s'.
    destruct fetched as [[res|e] w1]; cbn [fst snd] in Hf |- *; [|done].
    injection Hf as ->. rewrite Hname. cbv zeta.
    fold safe_name. fold path. fold channels.
    unfold mbind at 1. unfold write_file at 1. rewrite Hd.
    unfold mbind at 1.
    destruct (bool_decide (channels = [])).
    - unfold mret at 1. unfold mbind, now. cbn [clock_reads].
      rewrite save_servers_run by apply Hd. reflexivity.
    - unfold save_playlist_json. unfold mbind at 1.
      rewrite ensure_dirs_run by done.
      unfold try_except_Exception, mbind at 1, write_file.
      fold (playlist_json_path Main.DATA_DIR safe_name (formatted E s "username")).
      fold json_path. rewrite Hd. unfold mret at 1.
      unfold mbind, now. cbn [clock_reads after_ensure].
      rewrite save_servers_run by apply Hd. reflexivity. }
  rewrite Hout. cbn [fst snd files requests_log].
  split; [done|]. split; [done|]. split.
  { destruct (bool_decide (channels = [])); [apply lookup_insert_eq|].
    rewrite lookup_insert_ne; [apply lookup_insert_eq|].
    intros Heq. by apply (playlist_paths_differ Main.DATA_DIR safe_name
                            (formatted E s "username")). }
  split; [intros Hne; by rewrite bool_decide_eq_false_2|].
  split; [intros He; by rewrite bool_decide_eq_true_2|].
  split; [reflexivity|].
  split; [intros j Hj; by apply list_lookup_insert_ne|].
  subst s'. unfold marked_fetched at 1 2 3.
  split; [by rewrite lookup_insert_ne, lookup_insert_eq by done|].
  split; [by rewrite lookup_insert_eq|].
  split; [by rewrite !lookup_insert_ne, lookup_insert_eq by done|].
  split; [apply marked_fetched_outside|done].
Qed.

Lemma fetch_and_save_playlist_saved_witness :
  files (Main.fetch_and_save_playlist env_playlist (fun _ => py "{}") 1
           world_two_servers).2
    !! playlist_path Main.DATA_DIR "home" "u"
  = Some scenario_text.
Proof.
  assert (Hd : disk_accepts env_playlist) by (intros path; reflexivity).
  refine (proj1 (proj2 (proj2
            (fetch_and_save_playlist_saved env_playlist (fun _ => py "{}") 1
               world_two_servers [server_other; server_h] server_h
               "h" "home" (playlist_url "http://h" "u" "p" "m3u_plus")
               (py "requests") scenario_text
               Hd eq_refl eq_refl eq_refl eq_refl _)))).
  vm_compute. reflexivity.
Defined.
(* ===================================================================== *)
(** ** Writing a playlist file; the playlist fetch of xtream.py *)
(* ===================================================================== *)

Lemma contains_app (sub s : str) : contains sub (sub ++ s) = true.
Proof.
  pose proof (startswith_app sub s) as H.
  destruct (sub ++ s) as [|c r]; cbn [contains]; by rewrite H.
Qed.

(** X29: [create_m3u_from_channels] raises no exception of its own: it
    returns [True] when the disk takes the write and [False] when it does
    not.  When the write goes through, the file holds the header line
    followed by two lines per channel.  Whether it goes through or not, every
    other file is as it was, no request is sent, the clock is not read and
    the store is left alone; the playlist file itself may be left empty or
    partly written by a write that fails.  What is written starts with
    [#EXTM3U], so it passes the marker test that [fetch_playlist_robust]
    applies to a fetched body, for every list of channels. *)
Theorem create_m3u_from_channels_outcome (E : env) (channels : list channel)
    (out_path : str) (w : world) :
  let out := Main.create_m3u_from_channels E channels out_path w in
  let text := unlines (py "#EXTM3U" :: flat_map channel_lines channels) in
  out.1 = Ret (disk_ok E out_path)
  /\ (disk_ok E out_path = true -> files out.2 = <[out_path := text]> (files w))
  /\ (forall p, p <> out_path -> files out.2 !! p = files w !! p)
  /\ requests_log out.2 = requests_log w
  /\ clock_reads out.2 = clock_reads w
  /\ servers_file out.2 = servers_file w
  /\ contains "#EXTM3U" (upper text) = true.
Proof.
  intros out text. subst out text. rewrite <- m3u_text_of_unlines.
  unfold Main.create_m3u_from_channels, create_m3u_from_channels,
    try_except_Exception, mbind, write_file, mret.
  assert (Hmark : contains "#EXTM3U" (upper (m3u_text_of channels)) = true).
  { rewrite m3u_text_of_unlines. cbn [unlines map concat].
    unfold upper. rewrite map_app.
    change (map upper_char (py "#EXTM3U" ++ newline)) with (py "#EXTM3U" ++ newline).
    rewrite <- app_assoc. apply contains_app. }
  destruct (disk_ok E out_path); cbn [fst snd].
  - repeat split; try done. intros p Hp. cbn [files]. by rewrite lookup_insert_ne.
  - destruct (failed_write E out_path); cbn; repeat split; try done.
    intros p Hp. by rewrite lookup_insert_ne.
Qed.

(** On a disk that runs full the playlist that was in the file is lost,
    although [False] is returned. *)
Example create_m3u_from_channels_disk_full (E : env) (old : str) :
  let w := {| requests_log := []; files := {[ py "out.m3u" := old ]};
              clock_reads := 0; servers_file := None |} in
  let out := Main.create_m3u_from_channels (env_disk_full E) [channel_abc]
               (py "out.m3u") w in
  out.1 = Ret false /\ files out.2 !! py "out.m3u" = Some [].
Proof.
  intros w out. subst w out. split; [reflexivity|].
  unfold Main.create_m3u_from_channels, create_m3u_from_channels,
    try_except_Exception, mbind, write_file, mret.
  cbn [disk_ok failed_write env_disk_full fst snd files].
  apply lookup_insert_eq.
Qed.

Section TextPlaylist.

Variable E : env.
Variables username password m3u_type : str.
Variable timeout : Z.

Local Abbreviation loop :=
  (Xtream.playlist_loop E username password m3u_type timeout).
Local Abbreviation success := (text_success E username password m3u_type timeout).

Lemma xtream_request_run (endpoint : str) (w : world) :
  Xtream.request_with_client E endpoint timeout w
  = (answer E endpoint timeout false,
     with_requests w (calls E endpoint timeout false)).
Proof. apply (request_with_client_run E endpoint timeout false w). Qed.

Lemma text_playlist_loop_result (endpoints : list str) (w : world)
    (out : result playlist_result * world) (res : playlist_result) :
  loop endpoints w = out ->
  out.1 = Ret res ->
  res = first_text_wins E username password m3u_type timeout endpoints.
Proof.
  unfold first_text_wins.
  revert w. induction endpoints as [|base rest IH]; intros w Hout Hres.
  - cbn in Hout. subst out. cbn in Hres |- *. by injection Hres as <-.
  - cbn [Xtream.playlist_loop] in Hout. cbn [first_text_success].
    change (base ++ _ ++ username ++ _ ++ password ++ _ ++ m3u_type)
      with (playlist_url base username password m3u_type) in Hout.
    unfold mbind at 1 in Hout. rewrite xtream_request_run in Hout.
    unfold text_success.
    destruct (answer E (playlist_url base username password m3u_type) timeout false)
      as [[[r|e] client]|e]; cbn [fst snd] in Hout; [| |by subst out].
    + destruct (status_code r =? 200)%Z; cbn [negb andb] in Hout |- *.
      * destruct (contains "#EXTM3U" (upper (text r))).
        -- unfold mret in Hout. subst out. cbn in Hres. by injection Hres as <-.
        -- unfold mbind at 1 in Hout.
           destruct (save_debug_response E Xtream.DATA_DIR _ _ _ _)
             as [[p|e2] w1]; [|by subst out].
           by apply (IH _ Hout).
      * by apply (IH _ Hout).
    + by apply (IH _ Hout).
Qed.

(** Candidates without a body leave no trace but their requests. *)
Lemma text_playlist_loop_quiet (endpoints : list str) (w : world) :
  Forall (no_body E username password m3u_type timeout) endpoints ->
  loop endpoints w
  = (Ret PlaylistFailed,
     with_requests w
       (flat_map (fun base =>
          calls E (playlist_url base username password m3u_type) timeout false)
          endpoints)).
Proof.
  intros H. revert w. induction H as [|base rest Hb Hrest IH]; intros w.
  - cbn. unfold mret, with_requests. destruct w. cbn. by rewrite app_nil_r.
  - cbn [Xtream.playlist_loop flat_map].
    change (base ++ _ ++ username ++ _ ++ password ++ _ ++ m3u_type)
      with (playlist_url base username password m3u_type).
    unfold mbind at 1. rewrite xtream_request_run.
    unfold no_body in Hb.
    destruct (answer E (playlist_url base username password m3u_type) timeout false)
      as [[[r|e] client]|e]; cbn [fst snd]; [| |done].
    + apply Z.eqb_neq in Hb. rewrite Hb. cbn [negb]. rewrite IH.
      unfold with_requests. cbn. by rewrite <- app_assoc.
    + rewrite IH. unfold with_requests. cbn. by rewrite <- app_assoc.
Qed.

End TextPlaylist.

Lemma first_text_wins_marked (E : env) (username password m3u_type : str)
    (timeout : Z) (endpoints : list str) :
  marked (first_text_wins E username password m3u_type timeout endpoints).
Proof.
  unfold first_text_wins.
  induction endpoints as [|base rest IH]; [done|]. cbn [first_text_success].
  destruct (text_success E username password m3u_type timeout base)
    as [[client body]|] eqn:Hs; [|exact IH].
  cbn. unfold text_success in Hs.
  destruct (answer E _ timeout false) as [[[r|e] c]|e]; try done.
  destruct (status_code r =? 200)%Z; [|done]. cbn [andb] in Hs.
  destruct (contains "#EXTM3U" (upper (text r))) eqn:Hm; [|done].
  by injection Hs as <- <-.
Qed.

Lemma first_wins_agree (E : env) (username password m3u_type : str)
    (timeout : Z) (endpoints : list str) :
  Forall (fun base =>
            playlist_success E username password m3u_type timeout base
            = text_success E username password m3u_type timeout base) endpoints ->
  first_playlist_wins E username password m3u_type timeout endpoints
  = first_text_wins E username password m3u_type timeout endpoints.
Proof.
  unfold first_playlist_wins, first_text_wins.
  induction 1 as [|base rest Hb Hrest IH]; [done|].
  cbn [first_playlist_success first_text_success]. rewrite Hb.
  by destruct (text_success E username password m3u_type timeout base)
       as [[client body]|].
Qed.

(** X30: whenever [fetch_playlist_robust] of xtream.py returns, its result
    is the text of the first candidate that answers with status 200 and a
    text holding [#EXTM3U] in any letter case, and the failure when no
    candidate does; a text that is returned holds the marker.  Unlike
    main.py, it saves nothing for an answer with another status: when every
    candidate fails to connect or answers with another status, the fetch
    fails and the world differs by the requests only.  And when every
    candidate gives main.py, which streams, the body that it gives xtream.py
    as text, the two files return the same result. *)
Theorem xtream_fetch_playlist_first_wins (E : env)
    (addr username password m3u_type : str) (timeout : Z) (w : world) :
  let out := Xtream.fetch_playlist_robust E addr username password m3u_type
               timeout w in
  let main_out := Main.fetch_playlist_robust E addr username password m3u_type
                    timeout w in
  (forall res, out.1 = Ret res ->
     res = first_text_wins E username password m3u_type timeout
             (Xtream.generate_endpoints addr)
     /\ marked res)
  /\ (Forall (no_body E username password m3u_type timeout)
        (Xtream.generate_endpoints addr) ->
      out = (Ret PlaylistFailed,
             with_requests w
               (flat_map (fun base =>
                  calls E (playlist_url base username password m3u_type)
                    timeout false)
                  (Xtream.generate_endpoints addr))))
  /\ (Forall (fun base =>
                playlist_success E username password m3u_type timeout base
                = text_success E username password m3u_type timeout base)
        (Xtream.generate_endpoints addr) ->
      forall res res', out.1 = Ret res -> main_out.1 = Ret res' -> res = res').
Proof.
  intros out main_out. split; [|split].
  - intros res H.
    pose proof (text_playlist_loop_result E username password m3u_type timeout
                  (Xtream.generate_endpoints addr) w _ res eq_refl H) as ->.
    split; [done|apply first_text_wins_marked].
  - intros H. by apply text_playlist_loop_quiet.
  - intros Hall res res' H H'.
    pose proof (text_playlist_loop_result E username password m3u_type timeout
                  (Xtream.generate_endpoints addr) w _ res eq_refl H) as ->.
    destruct (playlist_loop_result E username password m3u_type timeout
                (Main.generate_endpoints addr) w _ res' eq_refl H') as [-> _].
    change (Main.generate_endpoints addr) with (Xtream.generate_endpoints addr).
    symmetry. by apply first_wins_agree.
Qed.

Lemma xtream_fetch_playlist_first_wins_witness :
  Xtream.fetch_playlist_robust env_not_found "h" "u" "p" "m3u_plus" 20%Z w0
  = (Ret PlaylistFailed,
     with_requests w0
       (flat_map (fun base =>
          calls env_not_found (playlist_url base "u" "p" "m3u_plus") 20%Z false)
          (Xtream.generate_endpoints "h"))).
Proof.
  apply (proj1 (proj2 (xtream_fetch_playlist_first_wins env_not_found "h" "u" "p"
                         "m3u_plus" 20%Z w0))).
  apply Forall_forall. intros base _. unfold no_body. cbn. discriminate.
Defined.
